(** * Telco churn notebook: cleaning, splitting, feature transformation
      and evaluation, as a shallow embedding.

    The notebook [class1_code.ipynb] is a straight-line sequence of cells
    that call pandas and scikit-learn.  Each cell is embedded as a
    computation in a small output-and-exception monad; the library calls are
    embedded by their documented behaviour on the arguments the notebook
    passes.  Numbers held in the table are rationals ([Q]); the feature
    matrix handed to the estimators is over the reals ([R]), so that the
    square root of the standard scaler can be written.  Floating-point
    rounding is not modelled. *)

From Stdlib Require Import String Ascii List Bool Arith ZArith QArith Qabs Qround.
From Stdlib Require Import Reals Qreals Lia Lqa Lra Permutation Sorted.
From Stdlib Require OrderedTypeEx.
Import ListNotations.

Open Scope string_scope.
Open Scope list_scope.
Open Scope nat_scope.

(* ================================================================== *)
(** * Exceptions and results *)
(* ================================================================== *)

Inductive exn : Type :=
| FileNotFoundError (path : string)
| ParserError
| KeyError (key : string)
| TypeError
| ValueError (msg : string)
| ZeroDivisionError
| NotFittedError
| PlotlyError (msg : string).

Inductive result (A : Type) : Type :=
| Ok (a : A)
| Raise (e : exn).

Arguments Ok {A} a.
Arguments Raise {A} e.

Definition result_bind {A B} (r : result A) (k : A -> result B) : result B :=
  match r with
  | Ok a => k a
  | Raise e => Raise e
  end.

Declare Scope result_scope.
Delimit Scope result_scope with result.
Notation "x <-- r ;; k" := (result_bind r (fun x => k))
  (at level 61, r at next level, right associativity) : result_scope.

(* ================================================================== *)
(** * Cell output and the notebook monad *)
(* ================================================================== *)

(** What a cell writes below itself.  Formatted numbers are kept as
    numbers, and the blank line some messages start or end with is left
    out. *)
Inductive output : Type :=
| Text (s : string)                      (* print("...") *)
| TextN (s : string) (n : nat)           (* print(f"... {n}") *)
| TextPct (s : string) (pct : option Q)  (* print(f"... {pct:.2f}%") *)
| TextShape (s : string) (rows cols : nat)
| TextNames (s : string) (names : list string)
| Rich (what : string)                   (* df.head(), df.info(), fig.show() *)
| Heatmap (title : string) (z : list (list nat)).

(** A cell computation: the output written so far and either a value or
    the exception that stopped it. *)
Definition Nb (A : Type) : Type := (list output * result A)%type.

Definition nb_ret {A} (a : A) : Nb A := ([], Ok a).

Definition nb_bind {A B} (m : Nb A) (k : A -> Nb B) : Nb B :=
  match m with
  | (out, Ok a) => let (out', r) := k a in (out ++ out', r)
  | (out, Raise e) => (out, Raise e)
  end.

Definition nb_lift {A} (r : result A) : Nb A := ([], r).
Definition nb_raise {A} (e : exn) : Nb A := ([], Raise e).
Definition nb_print (o : output) : Nb unit := ([o], Ok tt).

Declare Scope nb_scope.
Delimit Scope nb_scope with nb.
Notation "x <- m ;; k" := (nb_bind m (fun x => k))
  (at level 61, m at next level, right associativity) : nb_scope.
Notation "' pat <- m ;; k" := (nb_bind m (fun x => match x with pat => k end))
  (at level 61, pat pattern, m at next level, right associativity) : nb_scope.
Notation "m ;;; k" := (nb_bind m (fun _ => k))
  (at level 61, right associativity) : nb_scope.

(** [try: body  except FileNotFoundError: handler]. *)
Definition try_except_FileNotFoundError {A}
    (body : Nb A) (handler : exn -> Nb A) : Nb A :=
  match body with
  | (out, Raise (FileNotFoundError p)) =>
      let (out', r) := handler (FileNotFoundError p) in (out ++ out', r)
  | other => other
  end.

(* ================================================================== *)
(** * Data frames *)
(* ================================================================== *)

(** A column has one dtype.  [None] is the missing value (NaN). *)
Inductive column : Type :=
| NumCol (xs : list (option Q))          (* int64 / float64 *)
| ObjCol (xs : list (option string)).    (* object *)

Definition col_length (c : column) : nat :=
  match c with
  | NumCol xs => length xs
  | ObjCol xs => length xs
  end.

(** Row labels and the named columns, in order. *)
Record DataFrame : Type := mkDataFrame {
  index : list nat;
  columns : list (string * column)
}.

Definition nrows (df : DataFrame) : nat := length (index df).
Definition column_names (df : DataFrame) : list string := map fst (columns df).

Definition has_column (name : string) (df : DataFrame) : bool :=
  existsb (fun nc => String.eqb (fst nc) name) (columns df).

(** The first column carrying a name. *)
Definition lookup (name : string) (cols : list (string * column))
  : option (string * column) :=
  find (fun nc => String.eqb (fst nc) name) cols.

(** [df[name]] *)
Definition col_get (name : string) (df : DataFrame) : result column :=
  match lookup name (columns df) with
  | Some (_, c) => Ok c
  | None => Raise (KeyError name)
  end.

(** [df.drop(name, axis=1)] *)
Definition df_drop (name : string) (df : DataFrame) : result DataFrame :=
  if has_column name df
  then Ok (mkDataFrame (index df)
             (filter (fun nc => negb (String.eqb (fst nc) name)) (columns df)))
  else Raise (KeyError name).

Fixpoint set_column (name : string) (c : column) (cols : list (string * column))
  : list (string * column) :=
  match cols with
  | [] => [(name, c)]
  | (n, c0) :: rest =>
      if String.eqb n name then (n, c) :: rest
      else (n, c0) :: set_column name c rest
  end.

(** [df[name] = c]: an existing column is replaced where it stands, a new
    one is appended. *)
Definition df_set (name : string) (c : column) (df : DataFrame) : DataFrame :=
  mkDataFrame (index df) (set_column name c (columns df)).

(** Every column has one value per row label, and names are distinct (the
    CSV reader renames repeated headers). *)
Definition wf_frame (df : DataFrame) : Prop :=
  NoDup (column_names df) /\
  Forall (fun nc => col_length (snd nc) = nrows df) (columns df).

(** [s.isnull().sum()] *)
Definition isnull_sum (c : column) : nat :=
  match c with
  | NumCol xs => length (filter (fun o => match o with None => true | _ => false end) xs)
  | ObjCol xs => length (filter (fun o => match o with None => true | _ => false end) xs)
  end.

(* ================================================================== *)
(** * Loader (cell 1) *)
(* ================================================================== *)

Definition filesystem : Type := string -> option string.

Definition dataset_path : string := "class1_dataset.csv".

Definition missing_file_message : string :=
  "ERROR: 'class1_dataset.csv' not found. Please download it and place it in the correct directory.".

Section Loader.

(** The CSV parser of pandas applied to the text of a file. *)
Variable parse_csv : string -> result DataFrame.

(** [pd.read_csv(path)] *)
Definition read_csv (fs : filesystem) (path : string) : result DataFrame :=
  match fs path with
  | None => Raise (FileNotFoundError path)
  | Some text => parse_csv text
  end.

Definition cell_load (fs : filesystem) : Nb DataFrame :=
  (df <- try_except_FileNotFoundError
           (nb_lift (read_csv fs dataset_path))
           (fun e => nb_print (Text missing_file_message) ;;; nb_raise e) ;;
   nb_print (Text "First 5 rows of the dataset:") ;;;
   nb_print (Rich "df.head()") ;;;
   nb_ret df)%nb.

End Loader.

(** Cell 3: structure and missing values per column. *)
Definition cell_info (df : DataFrame) : Nb unit :=
  (nb_print (Text "Dataset Information:") ;;;
   nb_print (Rich "df.info()") ;;;
   nb_print (Text "Missing values per column:") ;;;
   nb_print (Rich "df.isnull().sum()"))%nb.

(* ================================================================== *)
(** * Cleaner (cell 5) *)
(* ================================================================== *)

Definition dropna {A} (xs : list (option A)) : list A :=
  flat_map (fun o => match o with Some x => [x] | None => [] end) xs.

Fixpoint insert_sorted (x : Q) (l : list Q) : list Q :=
  match l with
  | [] => [x]
  | y :: l' => if Qle_bool x y then x :: l else y :: insert_sorted x l'
  end.

Definition sort_values (l : list Q) : list Q := fold_right insert_sorted [] l.

(** [s.median()] on a float series: missing values are skipped, the middle
    value of the sorted rest is taken (the mean of the two middle values
    for an even count), and NaN is returned when nothing is left. *)
Definition nanmedian (xs : list (option Q)) : option Q :=
  let vs := sort_values (dropna xs) in
  let n := length vs in
  if n =? 0 then None
  else if Nat.odd n then nth_error vs (n / 2)
  else match nth_error vs (n / 2 - 1), nth_error vs (n / 2) with
       | Some a, Some b => Some ((a + b) / 2)%Q
       | _, _ => None
       end.

(** What makes a value a median of [vs]: at least half of the values are at
    most it, and at least half are at least it. *)
Definition count_le (m : Q) (vs : list Q) : nat :=
  length (filter (fun x => Qle_bool x m) vs).
Definition count_ge (m : Q) (vs : list Q) : nat :=
  length (filter (fun x => Qle_bool m x) vs).
Definition is_median (m : Q) (vs : list Q) : Prop :=
  length vs <= 2 * count_le m vs /\ length vs <= 2 * count_ge m vs.

(** The float-series methods are reached only on the column that
    [to_numeric] has just produced; on an object column pandas raises. *)
Definition series_median (c : column) : result (option Q) :=
  match c with
  | NumCol xs => Ok (nanmedian xs)
  | ObjCol _ => Raise TypeError
  end.

Definition fill (v : option Q) (o : option Q) : option Q :=
  match o with
  | Some x => Some x
  | None => v
  end.

(** [s.fillna(v)]: filling with NaN changes nothing. *)
Definition series_fillna (v : option Q) (c : column) : result column :=
  match c with
  | NumCol xs => Ok (NumCol (map (fill v) xs))
  | ObjCol _ => Raise TypeError
  end.

(** [s.map(d)] for a dict [d] with string keys: a value that is not a key
    becomes NaN. *)
Fixpoint dict_lookup (d : list (string * Q)) (k : string) : option Q :=
  match d with
  | [] => None
  | (k', v) :: d' => if String.eqb k' k then Some v else dict_lookup d' k
  end.

Definition series_map (d : list (string * Q)) (c : column) : column :=
  match c with
  | ObjCol xs =>
      NumCol (map (fun o => match o with
                            | Some s => dict_lookup d s
                            | None => None
                            end) xs)
  | NumCol xs => NumCol (map (fun _ => None) xs)
  end.

Definition churn_dict : list (string * Q) := [("No", 0%Q); ("Yes", 1%Q)].

Section Cleaner.

(** How pandas reads one text cell as a number; [None] when it cannot. *)
Variable parse_float : string -> option Q.

(** [pd.to_numeric(s, errors='coerce')] *)
Definition to_numeric_coerce (c : column) : column :=
  match c with
  | NumCol xs => NumCol xs
  | ObjCol xs =>
      NumCol (map (fun o => match o with
                            | Some s => parse_float s
                            | None => None
                            end) xs)
  end.

Definition cell_clean (df : DataFrame) : Nb DataFrame :=
  (df1 <- nb_lift (df_drop "customerID" df) ;;
   tc <- nb_lift (col_get "TotalCharges" df1) ;;
   let df2 := df_set "TotalCharges" (to_numeric_coerce tc) df1 in
   tc2 <- nb_lift (col_get "TotalCharges" df2) ;;
   nb_print (TextN "NaNs in TotalCharges after conversion: " (isnull_sum tc2)) ;;;
   med <- nb_lift (series_median tc2) ;;
   filled <- nb_lift (series_fillna med tc2) ;;
   let df3 := df_set "TotalCharges" filled df2 in
   churn <- nb_lift (col_get "Churn" df3) ;;
   let df4 := df_set "Churn" (series_map churn_dict churn) df3 in
   nb_print (Text "Cleaned dataset info:") ;;;
   nb_print (Rich "df.info()") ;;;
   nb_print (Rich "df.head()") ;;;
   nb_ret df4)%nb.

(** The cleaned table, without the printed lines. *)
Definition clean (df : DataFrame) : result DataFrame := snd (cell_clean df).

(** The values [to_numeric] leaves in a column. *)
Definition coerced (c : column) : list (option Q) :=
  match to_numeric_coerce c with
  | NumCol xs => xs
  | ObjCol _ => []
  end.

(** The table the cleaner builds from the total-charge column [tc] and the
    label column [ch] of [df]. *)
Definition cleaned (tc ch : column) (df : DataFrame) : DataFrame :=
  mkDataFrame (index df)
    (set_column "Churn" (series_map churn_dict ch)
       (set_column "TotalCharges"
          (NumCol (map (fill (nanmedian (coerced tc))) (coerced tc)))
          (set_column "TotalCharges" (NumCol (coerced tc))
             (filter (fun nc => negb (String.eqb (fst nc) "customerID"))
                     (columns df))))).

End Cleaner.

(* ================================================================== *)
(** * Reporter (cells 7, 9 and 10) *)
(* ================================================================== *)

Definition cell_describe (df : DataFrame) : Nb unit :=
  (nb_print (Text "Descriptive Statistics (Numerical Features):") ;;;
   nb_print (Rich "df.describe()"))%nb.

(** [s.value_counts().get(v, 0)] on a float series. *)
Definition value_count (v : Q) (c : column) : nat :=
  match c with
  | NumCol xs =>
      length (filter (fun o => match o with
                               | Some x => Qeq_bool x v
                               | None => false
                               end) xs)
  | ObjCol _ => 0
  end.

Definition cell_churn_pie (df : DataFrame) : Nb unit :=
  (churn <- nb_lift (col_get "Churn" df) ;;
   nb_print (Rich "fig_churn_pie.show()") ;;;
   nb_print (TextN "Customers who did not churn: " (value_count 0 churn)) ;;;
   nb_print (TextN "Customers who churned: " (value_count 1 churn)) ;;;
   if nrows df =? 0 then nb_raise ZeroDivisionError
   else nb_print (TextPct "Churn rate: "
          (Some (inject_Z (Z.of_nat (value_count 1 churn))
                 / inject_Z (Z.of_nat (nrows df)) * 100)%Q)))%nb.

Definition require_column (name : string) (df : DataFrame) : result unit :=
  if has_column name df then Ok tt else Raise (ValueError name).

Definition cell_histograms (df : DataFrame) : Nb unit :=
  (nb_lift (require_column "Contract" df) ;;;
   nb_lift (require_column "Churn" df) ;;;
   nb_print (Rich "fig_contract_churn.show()") ;;;
   nb_lift (require_column "tenure" df) ;;;
   nb_print (Rich "fig_tenure_churn.show()") ;;;
   nb_lift (require_column "MonthlyCharges" df) ;;;
   nb_print (Rich "fig_monthly_churn.show()") ;;;
   nb_print (Text "Visualizations like these help understand factors correlated with churn. For example, customers on month-to-month contracts tend to churn more, and customers with very low or very high tenure might show different churn behaviors."))%nb.

(* ================================================================== *)
(** * Splitter: [train_test_split(X, y, test_size=0.2, random_state=42,
      stratify=y)] *)
(* ================================================================== *)

(** Sorted distinct values of an array, for a given equality and order. *)
Section Unique.
Context {A : Type} (eqb leb : A -> A -> bool).

Fixpoint insert_unique (x : A) (l : list A) : list A :=
  match l with
  | [] => [x]
  | y :: l' =>
      if eqb x y then l
      else if leb x y then x :: l
      else y :: insert_unique x l'
  end.

Definition unique (xs : list A) : list A := fold_right insert_unique [] xs.

(** Position of a value among the distinct ones. *)
Fixpoint index_in (x : A) (l : list A) : nat :=
  match l with
  | [] => 0
  | y :: l' => if eqb x y then 0 else S (index_in x l')
  end.
End Unique.

(** Label values; NaN compares equal to itself inside [np.unique] and sorts
    last. *)
Definition label : Type := option Q.

Definition label_eqb (a b : label) : bool :=
  match a, b with
  | Some x, Some y => Qeq_bool x y
  | None, None => true
  | _, _ => false
  end.

Definition label_leb (a b : label) : bool :=
  match a, b with
  | Some x, Some y => Qle_bool x y
  | Some _, None => true
  | None, Some _ => false
  | None, None => true
  end.


(** How many entries of [y] carry the label [v]. *)
Definition count_label (v : label) (y : list label) : nat :=
  length (filter (fun u => label_eqb u v) y).

(** The share of [y] that carries the label [v]. *)
Definition label_proportion (v : label) (y : list label) : Q :=
  (inject_Z (Z.of_nat (count_label v y)) / inject_Z (Z.of_nat (length y)))%Q.

(** [classes, y_indices = np.unique(y, return_inverse=True)] *)
Definition classes_of (y : list label) : list label := unique label_eqb label_leb y.
Definition y_indices_of (y : list label) : list nat :=
  map (fun v => index_in label_eqb v (classes_of y)) y.

(** [np.bincount(y_indices)] *)
Definition bincount (n_classes : nat) (ys : list nat) : list nat :=
  map (fun k => count_occ Nat.eq_dec ys k) (seq 0 n_classes).

Definition list_min (l : list nat) : nat :=
  match l with
  | [] => 0
  | x :: l' => fold_right Nat.min x l'
  end.

(** [_validate_shuffle_split] for a float [test_size] and no [train_size];
    [ceil(test_size * n_samples)] is taken exactly. *)
Definition validate_shuffle_split (n_samples : nat) (test_size : Q)
  : result (nat * nat) :=
  if Qle_bool test_size 0 || Qle_bool 1 test_size
  then Raise (ValueError "test_size must be in the (0, 1) range")
  else
    let n_test := Z.to_nat (Qceiling (test_size * inject_Z (Z.of_nat n_samples))) in
    let n_train := n_samples - n_test in
    if n_train =? 0
    then Raise (ValueError "the resulting train set will be empty")
    else Ok (n_train, n_test).

(** [floored[inds] += 1] *)
Definition add_one_at (inds : list nat) (floored : list nat) : list nat :=
  map (fun p => if existsb (Nat.eqb (fst p)) inds then S (snd p) else snd p)
      (combine (seq 0 (length floored)) floored).

(** [np.where(remainder == value)] *)
Definition where_eq (value : nat) (remainder : list nat) : list nat :=
  filter (fun i => nth i remainder 0 =? value) (seq 0 (length remainder)).

(** [a - b] on arrays of counts; used where no entry of [b] exceeds the one
    of [a]. *)
Definition list_sub (a b : list nat) : list nat :=
  map (fun p => fst p - snd p) (combine a b).

(** The positions whose remainder is one of [values]. *)
Definition with_remainder_in (values remainder : list nat) : list nat :=
  filter (fun i => existsb (Nat.eqb (nth i remainder 0)) values)
         (seq 0 (length remainder)).

(** [a.iloc[inds]] on a plain array. *)
Definition take {A} (d : A) (inds : list nat) (a : list A) : list A :=
  map (fun i => nth i a d) inds.

Definition take_column (inds : list nat) (c : column) : column :=
  match c with
  | NumCol xs => NumCol (take None inds xs)
  | ObjCol xs => ObjCol (take None inds xs)
  end.

(** [X.iloc[inds]]: rows keep their labels. *)
Definition iloc (inds : list nat) (df : DataFrame) : DataFrame :=
  mkDataFrame (take 0 inds (index df))
              (map (fun nc => (fst nc, take_column inds (snd nc))) (columns df)).

Section Splitter.

(** The generator behind [random_state]: its state, the state a seed
    gives, and the two draws the splitter makes. *)
Variable rng : Type.
Variable RandomState : Z -> rng.
Variable rng_permutation : rng -> nat -> list nat * rng.
Variable rng_choice : rng -> list nat -> nat -> list nat * rng.

(** [check_random_state(seed)]: [None] is the process-wide generator,
    an integer starts a fresh one. *)
Definition check_random_state (global : rng) (seed : option Z) : rng :=
  match seed with
  | None => global
  | Some s => RandomState s
  end.

(** [rng.permutation(a)] on an array. *)
Definition permute_array (r : rng) (a : list nat) : list nat * rng :=
  let (p, r') := rng_permutation r (length a) in (take 0 p a, r').

(** The loop of [_approximate_mode] over the distinct remainders, largest
    first.  Remainders are kept as numerators over the common total. *)
Fixpoint add_by_remainder (values remainder floored : list nat)
    (need_to_add : nat) (r : rng) : list nat * rng :=
  match values with
  | [] => (floored, r)
  | value :: values' =>
      let inds := where_eq value remainder in
      let add_now := Nat.min (length inds) need_to_add in
      let (chosen, r') := rng_choice r inds add_now in
      let floored' := add_one_at chosen floored in
      let need' := need_to_add - add_now in
      if need' =? 0 then (floored', r')
      else add_by_remainder values' remainder floored' need' r'
  end.

(** [_approximate_mode(class_counts, n_draws, rng)], with the shares
    [class_counts / total * n_draws] taken exactly. *)
Definition approximate_mode (class_counts : list nat) (n_draws : nat) (r : rng)
  : list nat * rng :=
  let total := list_sum class_counts in
  let floored := map (fun c => c * n_draws / total) class_counts in
  let need_to_add := n_draws - list_sum floored in
  if 0 <? need_to_add then
    let remainder := map (fun c => (c * n_draws) mod total) class_counts in
    let values := rev (unique Nat.eqb Nat.leb remainder) in
    add_by_remainder values remainder floored need_to_add r
  else (floored, r).

(** The per-class loop of [StratifiedShuffleSplit._iter_indices]. *)
Fixpoint draw_classes (class_indices : list (list nat)) (n_i t_i : list nat)
    (r : rng) : (list nat * list nat) * rng :=
  match class_indices, n_i, t_i with
  | ci :: cis, n :: ns, t :: ts =>
      let (perm, r1) := rng_permutation r (length ci) in
      let perm_indices_class_i :=
        map (fun p => nth (Nat.min p (length ci - 1)) ci 0) perm in
      let '((train, test), r2) := draw_classes cis ns ts r1 in
      ((firstn n perm_indices_class_i ++ train,
        firstn t (skipn n perm_indices_class_i) ++ test), r2)
  | _, _, _ => (([], []), r)
  end.

(** One split of [StratifiedShuffleSplit(test_size=n_test,
    train_size=n_train, random_state=seed)]. *)
Definition stratified_shuffle_split (global : rng) (seed : option Z)
    (n_train n_test : nat) (y : list label) : result (list nat * list nat) :=
  let classes := classes_of y in
  let y_indices := y_indices_of y in
  let n_classes := length classes in
  let class_counts := bincount n_classes y_indices in
  if list_min class_counts <? 2
  then Raise (ValueError "The least populated class in y has only 1 member")
  else if n_train <? n_classes
  then Raise (ValueError "train_size should be greater or equal to the number of classes")
  else if n_test <? n_classes
  then Raise (ValueError "test_size should be greater or equal to the number of classes")
  else
    let class_indices :=
      map (fun k => where_eq k y_indices) (seq 0 n_classes) in
    let r0 := check_random_state global seed in
    let (n_i, r1) := approximate_mode class_counts n_train r0 in
    let class_counts_remaining := list_sub class_counts n_i in
    let (t_i, r2) := approximate_mode class_counts_remaining n_test r1 in
    let '((train, test), r3) := draw_classes class_indices n_i t_i r2 in
    let (train', r4) := permute_array r3 train in
    let (test', _) := permute_array r4 test in
    Ok (train', test').

Definition train_test_split (global : rng) (X : DataFrame) (y : list label)
    (test_size : Q) (random_state : option Z)
  : result (DataFrame * DataFrame * list label * list label) :=
  if negb (nrows X =? length y)
  then Raise (ValueError "Found input variables with inconsistent numbers of samples")
  else
    (nn <-- validate_shuffle_split (nrows X) test_size ;;
     tt' <-- stratified_shuffle_split global random_state (fst nn) (snd nn) y ;;
     Ok (iloc (fst tt') X, iloc (snd tt') X,
         take None (fst tt') y, take None (snd tt') y))%result.

End Splitter.

(* ================================================================== *)
(** * Feature transformer *)
(* ================================================================== *)

(** An entry of the feature matrix; [None] is NaN. *)
Definition float : Type := option R.
Definition matrix : Type := list (list float).

Definition Rsum (l : list R) : R := fold_right Rplus 0%R l.
Definition Rmean (l : list R) : R := (Rsum l / INR (length l))%R.
(** Population variance ([ddof=0]). *)
Definition Rvar (l : list R) : R :=
  Rmean (map (fun x => (x - Rmean l) * (x - Rmean l))%R l).

(** ** [StandardScaler()] *)

Record scaler_stats : Type := mkStats { mean_ : R; var_ : R; scale_ : R }.

(** A feature with zero variance is left unscaled. *)
Definition handle_zeros_in_scale (var : R) : R :=
  if Req_dec_T var 0%R then 1%R else sqrt var.

(** Statistics of one column; NaN entries are skipped. *)
Definition scaler_fit (xs : list (option Q)) : scaler_stats :=
  let vs := map Q2R (dropna xs) in
  mkStats (Rmean vs) (Rvar vs) (handle_zeros_in_scale (Rvar vs)).

Definition scale_cell (st : scaler_stats) (x : option Q) : float :=
  match x with
  | Some q => Some ((Q2R q - mean_ st) / scale_ st)%R
  | None => None
  end.

(** ** [OneHotEncoder(handle_unknown=..., drop=...)] *)

Inductive handle_unknown : Type := HandleError | HandleIgnore.
Inductive drop_policy : Type := DropNone | DropFirst.

Record OneHotEncoder : Type := mkOneHotEncoder {
  enc_handle_unknown : handle_unknown;
  enc_drop : drop_policy
}.

Definition category : Type := option string.

Definition category_eqb (a b : category) : bool :=
  match a, b with
  | Some x, Some y => String.eqb x y
  | None, None => true
  | _, _ => false
  end.

Definition category_leb (a b : category) : bool :=
  match a, b with
  | Some x, Some y => String.leb x y
  | Some _, None => true
  | None, Some _ => false
  | None, None => true
  end.

(** [categories_] of one feature: the sorted distinct values seen in fit. *)
Definition categories_of (xs : list category) : list category :=
  unique category_eqb category_leb xs.

Definition one_hot (cats : list category) (v : category) : list float :=
  map (fun c => if category_eqb v c then Some 1%R else Some 0%R) cats.

Definition drop_columns (d : drop_policy) (row : list float) : list float :=
  match d with
  | DropNone => row
  | DropFirst => tl row
  end.

(** One cell at transform time. *)
Definition encode_cell (enc : OneHotEncoder) (cats : list category) (v : category)
  : result (list float) :=
  if existsb (category_eqb v) cats
  then Ok (drop_columns (enc_drop enc) (one_hot cats v))
  else match enc_handle_unknown enc with
       | HandleError => Raise (ValueError "Found unknown categories")
       | HandleIgnore => Ok (drop_columns (enc_drop enc) (one_hot cats v))
       end.

(** ** [ColumnTransformer] *)

Fixpoint mapM {A B} (f : A -> result B) (l : list A) : result (list B) :=
  match l with
  | [] => Ok []
  | x :: l' =>
      (y <-- f x ;; ys <-- mapM f l' ;; Ok (y :: ys))%result
  end.

Record fitted_state : Type := mkFitted {
  scaler_stats_ : list scaler_stats;        (* one per numeric column *)
  categories_ : list (list category)        (* one per categorical column *)
}.

Record ColumnTransformer : Type := mkColumnTransformer {
  ct_numerical : list string;
  ct_categorical : list string;
  ct_encoder : OneHotEncoder;
  ct_fitted : option fitted_state
}.

(** [X.select_dtypes(include=['object', 'category']).columns] *)
Definition object_columns (X : DataFrame) : list string :=
  flat_map (fun nc => match snd nc with ObjCol _ => [fst nc] | NumCol _ => [] end)
           (columns X).

(** [X.select_dtypes(include=['int64', 'float64']).columns] *)
Definition number_columns (X : DataFrame) : list string :=
  flat_map (fun nc => match snd nc with NumCol _ => [fst nc] | ObjCol _ => [] end)
           (columns X).

Definition numeric_column (X : DataFrame) (name : string)
  : result (list (option Q)) :=
  (c <-- col_get name X ;;
   match c with
   | NumCol xs => Ok xs
   | ObjCol _ => Raise (ValueError "could not convert string to float")
   end)%result.

(** The categorical features of the notebook are the object columns; the
    encoder is not modelled on numeric input. *)
Definition object_column (X : DataFrame) (name : string)
  : result (list category) :=
  (c <-- col_get name X ;;
   match c with
   | ObjCol xs => Ok xs
   | NumCol _ => Raise TypeError
   end)%result.

Definition transform_row (enc : OneHotEncoder) (st : fitted_state)
    (nums : list (list (option Q))) (cats : list (list category)) (i : nat)
  : result (list float) :=
  let num_part :=
    map (fun p => scale_cell (fst p) (nth i (snd p) None))
        (combine (scaler_stats_ st) nums) in
  (cat_part <-- mapM (fun p => encode_cell enc (fst p) (nth i (snd p) None))
                     (combine (categories_ st) cats) ;;
   Ok (num_part ++ concat cat_part))%result.

(** The stored statistics and vocabularies applied to every row of [X]. *)
Definition apply_fitted (ct : ColumnTransformer) (st : fitted_state) (X : DataFrame)
  : result matrix :=
  if nrows X =? 0 then Raise (ValueError "Found array with 0 sample(s)")
  else
    (nums <-- mapM (numeric_column X) (ct_numerical ct) ;;
     cats <-- mapM (object_column X) (ct_categorical ct) ;;
     mapM (transform_row (ct_encoder ct) st nums cats) (seq 0 (nrows X)))%result.

(** What [fit] learns from [X]. *)
Definition fit_state (ct : ColumnTransformer) (X : DataFrame) : result fitted_state :=
  if nrows X =? 0 then Raise (ValueError "Found array with 0 sample(s)")
  else
    (nums <-- mapM (numeric_column X) (ct_numerical ct) ;;
     cats <-- mapM (object_column X) (ct_categorical ct) ;;
     Ok (mkFitted (map scaler_fit nums) (map categories_of cats)))%result.

(** [preprocessor.fit_transform(X)]: the object now holds the state learnt
    from [X]. *)
Definition fit_transform (ct : ColumnTransformer) (X : DataFrame)
  : result (ColumnTransformer * matrix) :=
  (st <-- fit_state ct X ;;
   M <-- apply_fitted ct st X ;;
   Ok (mkColumnTransformer (ct_numerical ct) (ct_categorical ct)
                           (ct_encoder ct) (Some st), M))%result.

(** [preprocessor.transform(X)]: reads the stored state, writes nothing. *)
Definition transform (ct : ColumnTransformer) (X : DataFrame) : result matrix :=
  match ct_fitted ct with
  | None => Raise NotFittedError
  | Some st => apply_fitted ct st X
  end.

(** Lines 268 and 269 of the notebook: fit on the training partition,
    then transform the test partition with the fitted object. *)
Definition preprocess (pre : ColumnTransformer) (Xtr Xte : DataFrame)
  : result (ColumnTransformer * matrix * matrix) :=
  (fitted <-- fit_transform pre Xtr ;;
   Xte_p <-- transform (fst fitted) Xte ;;
   Ok (fst fitted, snd fitted, Xte_p))%result.

(** The transformer cell 12 builds for the feature table [X]. *)
Definition make_preprocessor (X : DataFrame) : ColumnTransformer :=
  mkColumnTransformer (number_columns X) (object_columns X)
                      (mkOneHotEncoder HandleIgnore DropFirst) None.

(** The values of the numeric and of the object columns, in table order. *)
Definition number_data (X : DataFrame) : list (list (option Q)) :=
  flat_map (fun nc => match snd nc with NumCol xs => [xs] | ObjCol _ => [] end)
           (columns X).
Definition object_data (X : DataFrame) : list (list category) :=
  flat_map (fun nc => match snd nc with ObjCol xs => [xs] | NumCol _ => [] end)
           (columns X).

(** The row the notebook's transformer writes for row [i]: the scaled numeric
    cells, then for every categorical feature its indicators without the
    first one. *)
Definition encoded_row (st : fitted_state)
    (nums : list (list (option Q))) (cats : list (list category)) (i : nat)
  : list float :=
  map (fun p => scale_cell (fst p) (nth i (snd p) None))
      (combine (scaler_stats_ st) nums)
  ++ concat (map (fun p => drop_columns DropFirst
                             (one_hot (fst p) (nth i (snd p) None)))
                 (combine (categories_ st) cats)).

(** The order in which categories are listed: strings by code point, NaN
    after every string. *)
Definition category_lt (a b : category) : Prop :=
  match a, b with
  | Some x, Some y => OrderedTypeEx.String_as_OT.lt x y
  | Some _, None => True
  | None, _ => False
  end.


Definition matrix_width (M : matrix) : nat :=
  match M with
  | [] => 0
  | row :: _ => length row
  end.

(* ================================================================== *)
(** * Metrics *)
(* ================================================================== *)

Definition is_nan {A} (o : option A) : bool :=
  match o with
  | None => true
  | Some _ => false
  end.

(** Both vectors must have one entry per sample and hold no NaN. *)
Definition check_targets (y_true y_pred : list label) : result (list Q * list Q) :=
  if negb (length y_true =? length y_pred)
  then Raise (ValueError "Found input variables with inconsistent numbers of samples")
  else if existsb is_nan (y_true ++ y_pred)
  then Raise (ValueError "Input contains NaN")
  else Ok (dropna y_true, dropna y_pred).

Definition count_correct (t p : list Q) : nat :=
  length (filter (fun tp => Qeq_bool (fst tp) (snd tp)) (combine t p)).

(** [accuracy_score(y_true, y_pred)]: the fraction of matching entries; NaN
    on empty input. *)
Definition accuracy_score (y_true y_pred : list label) : result (option Q) :=
  (tp <-- check_targets y_true y_pred ;;
   let n := length (fst tp) in
   if n =? 0 then Ok None
   else Ok (Some (inject_Z (Z.of_nat (count_correct (fst tp) (snd tp)))
                  / inject_Z (Z.of_nat n))%Q))%result.

Definition count_pairs (a b : Q) (t p : list Q) : nat :=
  length (filter (fun tp => Qeq_bool (fst tp) a && Qeq_bool (snd tp) b)
                 (combine t p)).

(** [unique_labels(y_true, y_pred)] *)
Definition unique_labels (t p : list Q) : list Q :=
  unique Qeq_bool Qle_bool (t ++ p).

(** [confusion_matrix(y_true, y_pred)]: rows are actual labels, columns
    predicted ones, over the sorted labels that occur in either vector. *)
Definition confusion_matrix (y_true y_pred : list label) : result (list (list nat)) :=
  (tp <-- check_targets y_true y_pred ;;
   let labels := unique_labels (fst tp) (snd tp) in
   Ok (map (fun a => map (fun b => count_pairs a b (fst tp) (snd tp)) labels)
           labels))%result.

(** [ff.create_annotated_heatmap(z, x=[two names], y=[two names])] accepts
    only a matrix with two rows whose first row has two entries. *)
Definition create_annotated_heatmap (title : string) (z : list (list nat))
  : result output :=
  match z with
  | [] => Raise (PlotlyError "z is empty")
  | row :: _ =>
      if negb (length row =? 2)
      then Raise (PlotlyError "the x list does not match the width of the z matrix")
      else if negb (length z =? 2)
      then Raise (PlotlyError "the y list does not match the length of the z matrix")
      else Ok (Heatmap title z)
  end.

(** The report every model cell ends with: the banner, the accuracy as a
    percentage, and the confusion matrix drawn as a heat map. *)
Definition evaluate (banner title : string) (y_test y_pred : list label)
  : Nb (list (list nat)) :=
  (nb_print (Text banner) ;;;
   acc <- nb_lift (accuracy_score y_test y_pred) ;;
   nb_print (TextPct "Accuracy: " (option_map (fun a => a * 100)%Q acc)) ;;;
   cm <- nb_lift (confusion_matrix y_test y_pred) ;;
   fig <- nb_lift (create_annotated_heatmap title cm) ;;
   nb_print fig ;;;
   nb_ret cm)%nb.

(* ================================================================== *)
(** * Model trainers *)
(* ================================================================== *)

(** The six estimators with the arguments the notebook gives them. *)
Inductive estimator : Type :=
| LogisticRegression (max_iter : nat) (random_state : option Z) (solver : string)
| DecisionTreeClassifier (random_state : option Z) (max_depth : nat)
| SVC (kernel : string) (random_state : option Z)
| RandomForestClassifier (n_estimators : nat) (random_state : option Z)
                         (n_jobs : Z) (max_depth : nat)
| GradientBoostingClassifier (random_state : option Z) (n_estimators : nat)
                             (max_depth : nat)
| MLPClassifier (hidden_layer_sizes : list nat) (max_iter : nat)
                (random_state : option Z) (early_stopping : bool)
                (n_iter_no_change : nat).

Definition estimator_random_state (e : estimator) : option Z :=
  match e with
  | LogisticRegression _ rs _ => rs
  | DecisionTreeClassifier rs _ => rs
  | SVC _ rs => rs
  | RandomForestClassifier _ rs _ _ => rs
  | GradientBoostingClassifier rs _ _ => rs
  | MLPClassifier _ _ rs _ _ => rs
  end.

Definition lr : estimator := LogisticRegression 1000 (Some 42%Z) "liblinear".
Definition dt : estimator := DecisionTreeClassifier (Some 42%Z) 5.
Definition svc : estimator := SVC "linear" (Some 42%Z).
Definition rf : estimator := RandomForestClassifier 100 (Some 42%Z) (-1)%Z 10.
Definition gb : estimator := GradientBoostingClassifier (Some 42%Z) 100 3.
Definition mlp : estimator := MLPClassifier [64; 32] 300 (Some 42%Z) true 10.

(** The variables cell 12 leaves behind. *)
Record prepared : Type := mkPrepared {
  X_train : DataFrame;
  X_test : DataFrame;
  y_train : list label;
  y_test : list label;
  preprocessor : ColumnTransformer;
  X_train_processed : matrix;
  X_test_processed : matrix
}.

Definition y_values (c : column) : result (list label) :=
  match c with
  | NumCol xs => Ok xs
  | ObjCol _ => Raise TypeError
  end.

Section Notebook.

Variable parse_csv : string -> result DataFrame.
Variable parse_float : string -> option Q.

Variable rng : Type.
Variable RandomState : Z -> rng.
Variable rng_permutation : rng -> nat -> list nat * rng.
Variable rng_choice : rng -> list nat -> nat -> list nat * rng.

(** The learning algorithms are opaque: what [fit] stores and what
    [predict] answers are given by the library, from the hyperparameters,
    the generator and the data. *)
Variable fitted_model : Type.
Variable est_fit :
  estimator -> rng -> matrix -> list label -> result fitted_model.
Variable est_predict : fitted_model -> matrix -> result (list label).

(** The process-wide generator, whatever state it is in when the notebook
    starts. *)
Variable global : rng.

(** [est.fit(X, y)] *)
Definition fit (e : estimator) (X : matrix) (y : list label)
  : result fitted_model :=
  est_fit e (check_random_state rng RandomState global (estimator_random_state e)) X y.

(** Cell 12.  The feature names asked for after the transform are not used
    again, and turning a sparse result into a dense one changes no entry:
    both are left out. *)
Definition cell_prepare (df : DataFrame) : Nb prepared :=
  (X <- nb_lift (df_drop "Churn" df) ;;
   yc <- nb_lift (col_get "Churn" df) ;;
   y <- nb_lift (y_values yc) ;;
   nb_print (TextNames "Categorical features: " (object_columns X)) ;;;
   nb_print (TextNames "Numerical features: " (number_columns X)) ;;;
   let pre := make_preprocessor X in
   '(Xtr, Xte, ytr, yte) <-
      nb_lift (train_test_split rng RandomState rng_permutation rng_choice
                 global X y (1 # 5)%Q (Some 42%Z)) ;;
   '(pre', Xtr_p, Xte_p) <- nb_lift (preprocess pre Xtr Xte) ;;
   nb_print (TextShape "X_train_processed shape:" (length Xtr_p) (matrix_width Xtr_p)) ;;;
   nb_print (TextShape "X_test_processed shape:" (length Xte_p) (matrix_width Xte_p)) ;;;
   nb_print (TextShape "y_train shape:" (length ytr) 0) ;;;
   nb_print (TextShape "y_test shape:" (length yte) 0) ;;;
   nb_ret (mkPrepared Xtr Xte ytr yte pre' Xtr_p Xte_p))%nb.

(** Cells 15, 18, 22, 24 and 26 share one shape; cell 20 prints around
    the fit. *)
Definition cell_model (banner title : string)
    (e : estimator) (p : prepared) : Nb (list (list nat)) :=
  (m <- nb_lift (fit e (X_train_processed p) (y_train p)) ;;
   y_pred <- nb_lift (est_predict m (X_test_processed p)) ;;
   evaluate banner title (y_test p) y_pred)%nb.

Definition cell_lr := cell_model
  "--- Logistic Regression --- "
  "Confusion Matrix for Logistic Regression (Actual vs. Predicted)" lr.
Definition cell_dt := cell_model
  "--- Decision Tree --- "
  "Confusion Matrix for Decision Tree (Actual vs. Predicted)" dt.
Definition cell_svc (p : prepared) : Nb (list (list nat)) :=
  (nb_print (Text "Starting SVC training... This might take a moment.") ;;;
   m <- nb_lift (fit svc (X_train_processed p) (y_train p)) ;;
   nb_print (Text "SVC training complete.") ;;;
   y_pred <- nb_lift (est_predict m (X_test_processed p)) ;;
   evaluate "--- Support Vector Classifier --- "
            "Confusion Matrix for SVC (Actual vs. Predicted)" (y_test p) y_pred)%nb.
Definition cell_rf := cell_model
  "--- Random Forest --- "
  "Confusion Matrix for Random Forest (Actual vs. Predicted)" rf.
Definition cell_gb := cell_model
  "--- Gradient Boosting --- "
  "Confusion Matrix for Gradient Boosting (Actual vs. Predicted)" gb.
Definition cell_mlp := cell_model
  "--- Multi-layer Perceptron (MLP) --- "
  "Confusion Matrix for MLP (Actual vs. Predicted)" mlp.

(** What a complete run leaves: the partitions and the six matrices. *)
Record report : Type := mkReport {
  rep_prepared : prepared;
  rep_matrices : list (list (list nat))
}.

(** All code cells, top to bottom; the first exception stops the run. *)
Definition notebook (fs : filesystem) : Nb report :=
  (df <- cell_load parse_csv fs ;;
   cell_info df ;;;
   df <- cell_clean parse_float df ;;
   cell_describe df ;;;
   cell_churn_pie df ;;;
   cell_histograms df ;;;
   p <- cell_prepare df ;;
   cm_lr <- cell_lr p ;;
   cm_dt <- cell_dt p ;;
   cm_svc <- cell_svc p ;;
   cm_rf <- cell_rf p ;;
   cm_gb <- cell_gb p ;;
   cm_mlp <- cell_mlp p ;;
   nb_ret (mkReport p [cm_lr; cm_dt; cm_svc; cm_rf; cm_gb; cm_mlp]))%nb.

End Notebook.

(* ================================================================== *)
(** * Concrete instances used in examples *)
(* ================================================================== *)

Module Example.

(** A reader of unsigned decimals such as [29.85]. *)
Definition digit_of (c : ascii) : option Z :=
  let n := nat_of_ascii c in
  if (48 <=? n) && (n <=? 57) then Some (Z.of_nat (n - 48)) else None.

Fixpoint read_digits (s : string) (acc : Z) (scale : positive) (frac : bool)
    (seen : bool) : option Q :=
  match s with
  | EmptyString => if seen then Some (acc # scale) else None
  | String c s' =>
      match digit_of c with
      | Some d =>
          read_digits s' (acc * 10 + d)%Z
                      (if frac then (scale * 10)%positive else scale) frac true
      | None =>
          if Ascii.eqb c "."%char && negb frac
          then read_digits s' acc scale true seen
          else None
      end
  end.

Definition parse_decimal (s : string) : option Q := read_digits s 0%Z 1%positive false false.

(** A generator that always answers the same way: the reversed range and
    the first candidates. *)
Definition rng : Type := nat.
Definition RandomState (seed : Z) : rng := Z.to_nat seed.
Definition rng_permutation (r : rng) (n : nat) : list nat * rng :=
  (rev (seq 0 n), S r).
Definition rng_choice (r : rng) (inds : list nat) (k : nat) : list nat * rng :=
  (firstn k inds, S r).

(** A learner that always predicts the first training label. *)
Definition fitted_model : Type := label.
Definition est_fit (_ : estimator) (_ : rng) (_ : matrix) (y : list label)
  : result fitted_model := Ok (hd None y).
Definition est_predict (m : fitted_model) (X : matrix) : result (list label) :=
  Ok (map (fun _ => m) X).

Definition parse_csv (_ : string) : result DataFrame := Raise ParserError.

Definition empty_fs : filesystem := fun _ => None.

(** Three customers; one total charge is blank, one label is neither
    [No] nor [Yes]. *)
Definition small : DataFrame :=
  mkDataFrame [0; 1; 2]
    [ ("customerID", ObjCol [Some "A"; Some "B"; Some "C"]);
      ("tenure", NumCol [Some 1%Q; Some 0%Q; Some 5%Q]);
      ("Contract", ObjCol [Some "One year"; Some "Two year"; Some "One year"]);
      ("TotalCharges", ObjCol [Some "29.85"; Some " "; Some "108.15"]);
      ("Churn", ObjCol [Some "No"; Some "Yes"; Some "No"]) ].

Definition odd_label : DataFrame :=
  mkDataFrame [0; 1]
    [ ("customerID", ObjCol [Some "A"; Some "B"]);
      ("TotalCharges", NumCol [Some 1%Q; Some 2%Q]);
      ("Churn", ObjCol [Some "No"; Some "Maybe"]) ].


(** Two customers with the same tenure. *)
Definition flat : DataFrame :=
mkDataFrame [0; 1]
  [ ("tenure", NumCol [Some 3%Q; Some 3%Q]);
    ("Contract", ObjCol [Some "One year"; Some "Two year"]) ].

(** Eleven customers, five of whom churned. *)
Definition eleven_y : list label :=
  [Some 0%Q; Some 1%Q; Some 0%Q; Some 1%Q; Some 0%Q; Some 1%Q;
   Some 0%Q; Some 1%Q; Some 0%Q; Some 1%Q; Some 0%Q].
Definition eleven_X : DataFrame :=
mkDataFrame (seq 0 11)
  [ ("tenure", NumCol [Some 1%Q; Some 2%Q; Some 3%Q; Some 4%Q; Some 5%Q;
                       Some 6%Q; Some 7%Q; Some 8%Q; Some 9%Q; Some 10%Q;
                       Some 11%Q]) ].

(** The features and labels of the ten customers below. *)
Definition ten_y : list label :=
  [Some 0%Q; Some 1%Q; Some 0%Q; Some 1%Q; Some 0%Q;
   Some 1%Q; Some 0%Q; Some 1%Q; Some 0%Q; Some 1%Q].
Definition ten_X : DataFrame :=
mkDataFrame (seq 0 10)
  [ ("tenure", NumCol [Some 1%Q; Some 2%Q; Some 3%Q; Some 4%Q; Some 5%Q;
                       Some 6%Q; Some 7%Q; Some 8%Q; Some 9%Q; Some 10%Q]);
    ("Contract", ObjCol [Some "Month-to-month"; Some "One year";
                         Some "Month-to-month"; Some "Two year";
                         Some "One year"; Some "Month-to-month";
                         Some "One year"; Some "Month-to-month";
                         Some "One year"; Some "Month-to-month"]) ].

(** Ten cleaned customers, five of whom churned. *)
Definition ten : DataFrame :=
mkDataFrame (seq 0 10)
  [ ("tenure", NumCol [Some 1%Q; Some 2%Q; Some 3%Q; Some 4%Q; Some 5%Q;
                       Some 6%Q; Some 7%Q; Some 8%Q; Some 9%Q; Some 10%Q]);
    ("Contract", ObjCol [Some "Month-to-month"; Some "One year";
                         Some "Month-to-month"; Some "Two year";
                         Some "One year"; Some "Month-to-month";
                         Some "One year"; Some "Month-to-month";
                         Some "One year"; Some "Month-to-month"]);
    ("Churn", NumCol [Some 0%Q; Some 1%Q; Some 0%Q; Some 1%Q; Some 0%Q;
                      Some 1%Q; Some 0%Q; Some 1%Q; Some 0%Q; Some 1%Q]) ].

(** Ten customers as the file gives them, five of whom churned. *)
Definition ten_raw : DataFrame :=
mkDataFrame (seq 0 10)
  [ ("customerID", ObjCol [Some "A"; Some "B"; Some "C"; Some "D"; Some "E";
                           Some "F"; Some "G"; Some "H"; Some "I"; Some "J"]);
    ("tenure", NumCol [Some 1%Q; Some 2%Q; Some 3%Q; Some 4%Q; Some 5%Q;
                       Some 6%Q; Some 7%Q; Some 8%Q; Some 9%Q; Some 10%Q]);
    ("Contract", ObjCol [Some "Month-to-month"; Some "One year";
                         Some "Month-to-month"; Some "Two year";
                         Some "One year"; Some "Month-to-month";
                         Some "One year"; Some "Month-to-month";
                         Some "One year"; Some "Month-to-month"]);
    ("MonthlyCharges", NumCol [Some 20%Q; Some 30%Q; Some 25%Q; Some 80%Q;
                               Some 45%Q; Some 70%Q; Some 55%Q; Some 90%Q;
                               Some 35%Q; Some 60%Q]);
    ("TotalCharges", ObjCol [Some "20"; Some "60.5"; Some "75"; Some " ";
                             Some "225"; Some "420"; Some "385"; Some "720";
                             Some "315"; Some "600"]);
    ("Churn", ObjCol [Some "No"; Some "Yes"; Some "No"; Some "Yes"; Some "No";
                      Some "Yes"; Some "No"; Some "Yes"; Some "No"; Some "Yes"]) ].

(** A directory holding the data file, and readers that answer with a
    fixed table whatever the text. *)
Definition one_file : filesystem :=
  fun path => if String.eqb path dataset_path then Some "customerID,tenure" else None.
Definition read_as (df : DataFrame) (_ : string) : result DataFrame := Ok df.

End Example.

(* ================================================================== *)
(** * Facts about the monads *)
(* ================================================================== *)

Lemma nb_bind_lift_ok {A B} (a : A) (k : A -> Nb B) :
  nb_bind (nb_lift (Ok a)) k = k a.
Proof.
  unfold nb_bind, nb_lift. destruct (k a) as [out r]. reflexivity.
Qed.

Lemma nb_bind_lift_raise {A B} (e : exn) (k : A -> Nb B) :
  nb_bind (nb_lift (Raise e)) k = ([], Raise e).
Proof. reflexivity. Qed.

Lemma snd_nb_bind {A B} (m : Nb A) (k : A -> Nb B) :
  snd (nb_bind m k) = result_bind (snd m) (fun a => snd (k a)).
Proof.
  destruct m as [out [a | e]]; simpl; [destruct (k a) |]; reflexivity.
Qed.

Lemma snd_nb_print {B} (o : output) (k : unit -> Nb B) :
  snd (nb_bind (nb_print o) k) = snd (k tt).
Proof. rewrite snd_nb_bind. reflexivity. Qed.

(* ================================================================== *)
(** * Facts about data frames *)
(* ================================================================== *)

Section FrameFacts.

Implicit Types (cols : list (string * column)) (name : string) (c : column).

Lemma lookup_set_same name c cols :
  exists n, lookup name (set_column name c cols) = Some (n, c).
Proof.
  induction cols as [| [n c0] rest IH]; simpl.
  - rewrite String.eqb_refl. eauto.
  - destruct (String.eqb n name) eqn:E; simpl; rewrite E; eauto.
Qed.

Lemma lookup_set_other name other c cols :
  other <> name ->
  lookup other (set_column name c cols) = lookup other cols.
Proof.
  intros Hne. induction cols as [| [n c0] rest IH]; simpl.
  - destruct (String.eqb_spec name other); congruence.
  - destruct (String.eqb_spec n name) as [-> | Hn]; simpl.
    + destruct (String.eqb_spec name other); congruence.
    + destruct (String.eqb n other); auto.
Qed.

Lemma names_set_present name c cols :
  existsb (fun nc => String.eqb (fst nc) name) cols = true ->
  map fst (set_column name c cols) = map fst cols.
Proof.
  induction cols as [| [n c0] rest IH]; simpl; [discriminate |].
  destruct (String.eqb n name) eqn:E; simpl; intros H.
  - reflexivity.
  - f_equal. auto.
Qed.

Lemma existsb_set name other c cols :
  existsb (fun nc => String.eqb (fst nc) other) cols = true ->
  existsb (fun nc => String.eqb (fst nc) other) (set_column name c cols) = true.
Proof.
  induction cols as [| [n c0] rest IH]; simpl; [discriminate |].
  destruct (String.eqb n name) eqn:E; simpl; intros H.
  - exact H.
  - apply orb_true_iff in H. apply orb_true_iff.
    destruct H; auto.
Qed.

Lemma lookup_drop_other name other cols :
  other <> name ->
  lookup other (filter (fun nc => negb (String.eqb (fst nc) name)) cols)
  = lookup other cols.
Proof.
  intros Hne. induction cols as [| [n c0] rest IH]; simpl; [reflexivity |].
  destruct (String.eqb_spec n name) as [-> | Hn]; simpl.
  - destruct (String.eqb_spec name other); congruence.
  - destruct (String.eqb n other); auto.
Qed.

Lemma existsb_drop_other name other cols :
  other <> name ->
  existsb (fun nc => String.eqb (fst nc) other)
          (filter (fun nc => negb (String.eqb (fst nc) name)) cols)
  = existsb (fun nc => String.eqb (fst nc) other) cols.
Proof.
  intros Hne. induction cols as [| [n c0] rest IH]; simpl; [reflexivity |].
  destruct (String.eqb_spec n name) as [-> | Hn]; simpl.
  - destruct (String.eqb_spec name other); [congruence | auto].
  - rewrite IH. reflexivity.
Qed.

Lemma names_drop name cols :
  map fst (filter (fun nc => negb (String.eqb (fst nc) name)) cols)
  = filter (fun n => negb (String.eqb n name)) (map fst cols).
Proof.
  induction cols as [| [n c0] rest IH]; simpl; [reflexivity |].
  destruct (String.eqb n name); simpl; congruence.
Qed.

Lemma lookup_some_existsb name cols p :
  lookup name cols = Some p ->
  existsb (fun nc => String.eqb (fst nc) name) cols = true.
Proof.
  unfold lookup. intros H. apply find_some in H.
  apply existsb_exists. exists p. exact H.
Qed.

Lemma existsb_lookup_some name cols :
  existsb (fun nc => String.eqb (fst nc) name) cols = true ->
  exists p, lookup name cols = Some p.
Proof.
  unfold lookup. intros H. apply existsb_exists in H as [p [Hin Hp]].
  destruct (find _ cols) eqn:F; eauto.
  apply (find_none _ _ F) in Hin. congruence.
Qed.

(** Dropping a name that occurs once shortens the header by one. *)
Lemma length_drop_nodup (name : string) (names : list string) :
  NoDup names -> In name names ->
  length (filter (fun n => negb (String.eqb n name)) names) + 1 = length names.
Proof.
  induction 1 as [| n rest Hnotin Hnd IH]; simpl; [tauto |].
  intros [-> | Hin].
  - rewrite String.eqb_refl. simpl.
    assert (Hall : filter (fun n => negb (String.eqb n name)) rest = rest).
    { apply forallb_filter_id. apply forallb_forall. intros x Hx.
      destruct (String.eqb_spec x name); [congruence | reflexivity]. }
    rewrite Hall. lia.
  - destruct (String.eqb_spec n name) as [-> | Hn]; [tauto |].
    simpl. rewrite <- (IH Hin). lia.
Qed.

End FrameFacts.

(* ================================================================== *)
(** * The cleaner *)
(* ================================================================== *)

Section CleanerFacts.

Variable parse_float : string -> option Q.

Lemma to_numeric_coerce_num (c : column) :
  to_numeric_coerce parse_float c = NumCol (coerced parse_float c).
Proof. destruct c; reflexivity. Qed.

(** The cleaner without its printed lines, as one chain of steps. *)
Lemma clean_eq (df : DataFrame) :
  clean parse_float df =
  (df1 <-- df_drop "customerID" df ;;
   tc <-- col_get "TotalCharges" df1 ;;
   let df2 := df_set "TotalCharges" (to_numeric_coerce parse_float tc) df1 in
   tc2 <-- col_get "TotalCharges" df2 ;;
   med <-- series_median tc2 ;;
   filled <-- series_fillna med tc2 ;;
   let df3 := df_set "TotalCharges" filled df2 in
   churn <-- col_get "Churn" df3 ;;
   Ok (df_set "Churn" (series_map churn_dict churn) df3))%result.
Proof.
  unfold clean, cell_clean.
  repeat first
    [ rewrite snd_nb_print
    | rewrite snd_nb_bind; cbn [snd nb_lift];
      match goal with
      | |- result_bind ?r _ = result_bind ?r _ =>
          destruct r; cbn [result_bind]; [| reflexivity]
      end ].
  reflexivity.
Qed.

Lemma col_get_lookup name df c :
  col_get name df = Ok c <-> exists n, lookup name (columns df) = Some (n, c).
Proof.
  unfold col_get. destruct (lookup name (columns df)) as [[n c0] |]; split.
  - intros [= ->]. eauto.
  - intros [n' [= _ ->]]. reflexivity.
  - discriminate.
  - intros [n' H]. discriminate.
Qed.

Lemma col_get_has name df c :
  col_get name df = Ok c -> has_column name df = true.
Proof.
  intros H. apply col_get_lookup in H as [n H].
  eapply lookup_some_existsb. exact H.
Qed.

(** With the three columns present the cleaner runs to the end. *)
Lemma clean_ok (df : DataFrame) (tc ch : column) :
  has_column "customerID" df = true ->
  col_get "TotalCharges" df = Ok tc ->
  col_get "Churn" df = Ok ch ->
  clean parse_float df = Ok (cleaned parse_float tc ch df).
Proof.
  intros Hid Htc Hch. rewrite clean_eq.
  unfold df_drop. rewrite Hid. cbn [result_bind].
  set (cols1 := filter _ (columns df)).
  assert (Htc1 : col_get "TotalCharges" (mkDataFrame (index df) cols1) = Ok tc).
  { apply col_get_lookup in Htc as [n Htc]. apply col_get_lookup. exists n.
    cbn [columns]. unfold cols1. rewrite lookup_drop_other; [exact Htc | discriminate]. }
  rewrite Htc1. cbn [result_bind]. rewrite to_numeric_coerce_num.
  unfold df_set. cbn [columns index].
  assert (Hget : forall c cols ix,
             col_get "TotalCharges"
               (mkDataFrame ix (set_column "TotalCharges" c cols)) = Ok c).
  { intros c cols ix. apply col_get_lookup. cbn [columns].
    apply lookup_set_same. }
  rewrite Hget. cbn [result_bind series_median series_fillna].
  assert (Hch3 : forall c c', col_get "Churn"
             (mkDataFrame (index df)
                (set_column "TotalCharges" c
                   (set_column "TotalCharges" c' cols1))) = Ok ch).
  { intros c c'. apply col_get_lookup in Hch as [n Hch]. apply col_get_lookup.
    exists n. cbn [columns].
    rewrite !lookup_set_other by discriminate.
    unfold cols1. rewrite lookup_drop_other; [exact Hch | discriminate]. }
  rewrite Hch3. cbn [result_bind]. reflexivity.
Qed.

Lemma cleaned_index tc ch df : index (cleaned parse_float tc ch df) = index df.
Proof. reflexivity. Qed.

Lemma cleaned_names tc ch df :
  has_column "TotalCharges" df = true ->
  has_column "Churn" df = true ->
  column_names (cleaned parse_float tc ch df)
  = filter (fun n => negb (String.eqb n "customerID")) (column_names df).
Proof.
  intros Htc Hch. unfold column_names, cleaned. cbn [columns].
  unfold has_column in *.
  rewrite names_set_present.
  2:{ do 2 apply existsb_set. rewrite existsb_drop_other; [exact Hch | discriminate]. }
  rewrite names_set_present.
  2:{ apply existsb_set. rewrite existsb_drop_other; [exact Htc | discriminate]. }
  rewrite names_set_present.
  2:{ rewrite existsb_drop_other; [exact Htc | discriminate]. }
  apply names_drop.
Qed.


Lemma cleaned_churn tc ch df :
  col_get "Churn" (cleaned parse_float tc ch df) = Ok (series_map churn_dict ch).
Proof.
  apply col_get_lookup. unfold cleaned. cbn [columns]. apply lookup_set_same.
Qed.

Lemma cleaned_other tc ch df name :
  name <> "customerID" -> name <> "TotalCharges" -> name <> "Churn" ->
  col_get name (cleaned parse_float tc ch df) = col_get name df.
Proof.
  intros H1 H2 H3. unfold col_get, cleaned. cbn [columns].
  rewrite !lookup_set_other by assumption.
  rewrite lookup_drop_other by assumption. reflexivity.
Qed.

Lemma Forall_set_column (P : string * column -> Prop) name c cols :
  Forall P cols -> (forall n, P (n, c)) -> Forall P (set_column name c cols).
Proof.
  intros Hall Hc. induction Hall as [| [n c0] rest Hp Hrest IH]; simpl.
  - constructor; auto.
  - destruct (String.eqb n name); constructor; auto.
Qed.

Lemma Forall_filter_keep {A} (P : A -> Prop) (f : A -> bool) (l : list A) :
  Forall P l -> Forall P (filter f l).
Proof.
  induction 1; simpl; [constructor |]. destruct (f x); auto.
Qed.

Lemma NoDup_filter_keep {A} (f : A -> bool) (l : list A) :
  NoDup l -> NoDup (filter f l).
Proof.
  induction 1 as [| x l Hx Hnd IH]; simpl; [constructor |].
  destruct (f x); [| exact IH]. constructor; [| exact IH].
  rewrite filter_In. tauto.
Qed.

Lemma col_length_coerced (c : column) :
  length (coerced parse_float c) = col_length c.
Proof. destruct c; simpl; [reflexivity | apply length_map]. Qed.

Lemma col_length_series_map d (c : column) :
  col_length (series_map d c) = col_length c.
Proof. destruct c; simpl; apply length_map. Qed.

Lemma lookup_In name cols n c :
  lookup name cols = Some (n, c) -> In (n, c) cols.
Proof. unfold lookup. intros H. apply find_some in H. apply H. Qed.

Lemma cleaned_wf tc ch df :
  wf_frame df ->
  col_get "TotalCharges" df = Ok tc ->
  col_get "Churn" df = Ok ch ->
  wf_frame (cleaned parse_float tc ch df).
Proof.
  intros [Hnd Hlen] Htc Hch. split.
  - rewrite cleaned_names by (eapply col_get_has; eassumption).
    apply NoDup_filter_keep. exact Hnd.
  - assert (Ltc : col_length tc = nrows df).
    { apply col_get_lookup in Htc as [n Htc]. apply lookup_In in Htc.
      rewrite Forall_forall in Hlen. exact (Hlen _ Htc). }
    assert (Lch : col_length ch = nrows df).
    { apply col_get_lookup in Hch as [n Hch]. apply lookup_In in Hch.
      rewrite Forall_forall in Hlen. exact (Hlen _ Hch). }
    unfold cleaned, nrows. cbn [columns index].
    repeat apply Forall_set_column.
    + apply Forall_filter_keep. exact Hlen.
    + intros n. cbn [snd col_length]. rewrite col_length_coerced. exact Ltc.
    + intros n. cbn [snd col_length]. rewrite length_map, col_length_coerced.
      exact Ltc.
    + intros n. cbn [snd]. rewrite col_length_series_map. exact Lch.
Qed.

Lemma has_column_get name df :
  has_column name df = true -> exists c, col_get name df = Ok c.
Proof.
  intros H. apply existsb_lookup_some in H as [[n c] H].
  exists c. apply col_get_lookup. eauto.
Qed.

Lemma has_column_In name df :
  has_column name df = true -> In name (column_names df).
Proof.
  unfold has_column, column_names. intros H.
  apply existsb_exists in H as [[n c] [Hin Heq]].
  apply String.eqb_eq in Heq. simpl in Heq. subst.
  apply in_map_iff. exists (name, c). auto.
Qed.

End CleanerFacts.

(* ================================================================== *)
(** * The median *)
(* ================================================================== *)

Section MedianFacts.

Lemma insert_sorted_length x l : length (insert_sorted x l) = S (length l).
Proof.
  induction l as [| y l IH]; simpl; [reflexivity |].
  destruct (Qle_bool x y); simpl; congruence.
Qed.

Lemma sort_values_length l : length (sort_values l) = length l.
Proof.
  induction l as [| x l IH]; simpl; [reflexivity |].
  rewrite insert_sorted_length. congruence.
Qed.

Lemma insert_sorted_perm x l : Permutation (x :: l) (insert_sorted x l).
Proof.
  induction l as [| y l IH]; simpl; [reflexivity |].
  destruct (Qle_bool x y); [reflexivity |].
  rewrite perm_swap. apply perm_skip. exact IH.
Qed.

Lemma sort_values_perm l : Permutation l (sort_values l).
Proof.
  induction l as [| x l IH]; simpl; [reflexivity |].
  rewrite <- insert_sorted_perm. apply perm_skip. exact IH.
Qed.

Lemma insert_sorted_sorted x l :
  StronglySorted Qle l -> StronglySorted Qle (insert_sorted x l).
Proof.
  induction 1 as [| y l Hs IH Hy]; simpl.
  - repeat constructor.
  - destruct (Qle_bool x y) eqn:E.
    + apply Qle_bool_iff in E. constructor; [constructor; assumption |].
      constructor; [exact E |].
      eapply Forall_impl; [| exact Hy]. intros z Hz.
      eapply Qle_trans; eassumption.
    + constructor; [exact IH |].
      assert (Hyx : (y <= x)%Q).
      { destruct (Qlt_le_dec y x) as [Hlt | Hle]; [apply Qlt_le_weak; exact Hlt |].
        apply Qle_bool_iff in Hle. congruence. }
      eapply Permutation_Forall; [apply insert_sorted_perm |].
      constructor; assumption.
Qed.

Lemma sort_values_sorted l : StronglySorted Qle (sort_values l).
Proof.
  induction l as [| x l IH]; simpl; [constructor |].
  apply insert_sorted_sorted. exact IH.
Qed.

Lemma filter_length_perm {A} (f : A -> bool) (l l' : list A) :
  Permutation l l' -> length (filter f l) = length (filter f l').
Proof.
  induction 1; simpl; try destruct (f x); try destruct (f y); simpl; congruence.
Qed.

Lemma filter_length_mono {A} (f g : A -> bool) (l : list A) :
  (forall x, f x = true -> g x = true) ->
  length (filter f l) <= length (filter g l).
Proof.
  intros Hfg. induction l as [| x l IH]; simpl; [lia |].
  destruct (f x) eqn:F.
  - rewrite (Hfg _ F). simpl. lia.
  - destruct (g x); simpl; lia.
Qed.

Lemma count_le_mono a m vs : (a <= m)%Q -> count_le a vs <= count_le m vs.
Proof.
  intros Ham. apply filter_length_mono. intros x Hx.
  apply Qle_bool_iff in Hx. apply Qle_bool_iff. eapply Qle_trans; eassumption.
Qed.

Lemma count_ge_mono b m vs : (m <= b)%Q -> count_ge b vs <= count_ge m vs.
Proof.
  intros Hmb. apply filter_length_mono. intros x Hx.
  apply Qle_bool_iff in Hx. apply Qle_bool_iff. eapply Qle_trans; eassumption.
Qed.

Lemma sorted_count_le vs : StronglySorted Qle vs ->
  forall k a, nth_error vs k = Some a -> k + 1 <= count_le a vs.
Proof.
  induction 1 as [| x vs Hs IH Hx]; intros k a Hk.
  - destruct k; discriminate.
  - destruct k as [| k]; simpl in Hk.
    + injection Hk as ->. unfold count_le. simpl.
      assert (E : Qle_bool a a = true) by (apply Qle_bool_iff, Qle_refl).
      rewrite E. simpl. lia.
    + assert (Hxa : Qle_bool x a = true).
      { apply Qle_bool_iff. rewrite Forall_forall in Hx. apply Hx.
        eapply nth_error_In. exact Hk. }
      unfold count_le. simpl. rewrite Hxa. simpl.
      specialize (IH k a Hk). unfold count_le in IH. lia.
Qed.

Lemma sorted_count_ge vs : StronglySorted Qle vs ->
  forall k a, nth_error vs k = Some a -> length vs - k <= count_ge a vs.
Proof.
  induction 1 as [| x vs Hs IH Hx]; intros k a Hk.
  - destruct k; discriminate.
  - destruct k as [| k]; simpl in Hk.
    + injection Hk as ->. unfold count_ge.
      rewrite forallb_filter_id; [lia |].
      simpl. apply andb_true_iff. split; [apply Qle_bool_iff, Qle_refl |].
      apply forallb_forall. intros y Hy. apply Qle_bool_iff.
      rewrite Forall_forall in Hx. auto.
    + specialize (IH k a Hk). unfold count_ge in *. simpl.
      destruct (Qle_bool a x); simpl; lia.
Qed.

Lemma sorted_nth_le vs : StronglySorted Qle vs ->
  forall i j a b, nth_error vs i = Some a -> nth_error vs j = Some b ->
                  i <= j -> (a <= b)%Q.
Proof.
  induction 1 as [| x vs Hs IH Hx]; intros i j a b Hi Hj Hij.
  - destruct i; discriminate.
  - destruct i as [| i], j as [| j]; simpl in *.
    + injection Hi as ->. injection Hj as ->. apply Qle_refl.
    + injection Hi as ->. rewrite Forall_forall in Hx. apply Hx.
      eapply nth_error_In. exact Hj.
    + lia.
    + eapply IH; eauto. lia.
Qed.

Lemma is_median_perm m vs vs' :
  Permutation vs vs' -> is_median m vs' -> is_median m vs.
Proof.
  intros Hp [H1 H2]. unfold is_median, count_le, count_ge in *.
  rewrite (Permutation_length Hp).
  rewrite (filter_length_perm _ _ _ Hp), (filter_length_perm _ _ _ Hp).
  split; assumption.
Qed.

(** A series with a present value has a median, and it is one. *)
Lemma nanmedian_some (xs : list (option Q)) :
  dropna xs <> [] ->
  exists m, nanmedian xs = Some m /\ is_median m (dropna xs).
Proof.
  intros Hne. unfold nanmedian.
  set (vs := sort_values (dropna xs)).
  assert (Hs : StronglySorted Qle vs) by apply sort_values_sorted.
  assert (Hp : Permutation (dropna xs) vs) by apply sort_values_perm.
  assert (Hn : 0 < length vs).
  { unfold vs. rewrite sort_values_length.
    destruct (dropna xs); [congruence | simpl; lia]. }
  destruct (Nat.eqb_spec (length vs) 0) as [E | _]; [lia |].
  destruct (Nat.odd (length vs)) eqn:Hodd.
  - assert (Hk : length vs / 2 < length vs) by (apply Nat.div_lt; lia).
    destruct (nth_error vs (length vs / 2)) as [a |] eqn:Ha.
    2:{ apply nth_error_None in Ha. lia. }
    exists a. split; [reflexivity |].
    apply (is_median_perm _ _ _ Hp). split.
    + pose proof (sorted_count_le vs Hs _ _ Ha).
      pose proof (Nat.div_mod_eq (length vs) 2).
      pose proof (Nat.mod_upper_bound (length vs) 2). lia.
    + pose proof (sorted_count_ge vs Hs _ _ Ha).
      pose proof (Nat.div_mod_eq (length vs) 2). lia.
  - assert (Hev : length vs = 2 * (length vs / 2)).
    { pose proof (Nat.div_mod_eq (length vs) 2) as Hdm.
      pose proof (Nat.mod_upper_bound (length vs) 2) as Hub.
      destruct (Nat.eq_dec (length vs mod 2) 0) as [Hz | Hnz]; [lia |].
      assert (Ho : Nat.odd (length vs) = true).
      { apply Nat.odd_spec. exists (length vs / 2). lia. }
      congruence. }
    destruct (nth_error vs (length vs / 2 - 1)) as [a |] eqn:Ha.
    2:{ apply nth_error_None in Ha. lia. }
    destruct (nth_error vs (length vs / 2)) as [b |] eqn:Hb.
    2:{ apply nth_error_None in Hb. lia. }
    exists ((a + b) / 2)%Q. split; [reflexivity |].
    assert (Hab : (a <= b)%Q).
    { eapply (sorted_nth_le vs Hs); eauto. lia. }
    assert (Ham : (a <= (a + b) / 2)%Q).
    { apply Qle_shift_div_l; [reflexivity | Lqa.lra]. }
    assert (Hmb : ((a + b) / 2 <= b)%Q).
    { apply Qle_shift_div_r; [reflexivity | Lqa.lra]. }
    apply (is_median_perm _ _ _ Hp). split.
    + pose proof (sorted_count_le vs Hs _ _ Ha).
      pose proof (count_le_mono _ _ vs Ham). lia.
    + pose proof (sorted_count_ge vs Hs _ _ Hb).
      pose proof (count_ge_mono _ _ vs Hmb). lia.
Qed.

(** A series without a present value has no median. *)
Lemma nanmedian_none (xs : list (option Q)) :
  dropna xs = [] -> nanmedian xs = None.
Proof. intros H. unfold nanmedian. rewrite H. reflexivity. Qed.


End MedianFacts.

(** Closes a goal about one label by comparing the strings involved. *)
Ltac label_case :=
  intros;
  repeat match goal with
         | H : Some _ = Some _ |- _ => injection H as H; try subst
         end;
  first [ discriminate | contradiction | congruence
        | exfalso; match goal with H : ?x <> ?x |- _ => apply H; reflexivity end ].

Section CleanerClaims.

Variable parse_float : string -> option Q.

(** C10.  Cleaning a table that has the identifier, total-charge and label
    columns succeeds; the result has the same header minus the identifier
    (exactly one name fewer), the same row labels in the same order, every
    column other than total charge and label unchanged, and still one
    value per row in every column. *)
Theorem clean_frame_limited (df : DataFrame) :
  wf_frame df ->
  has_column "customerID" df = true ->
  has_column "TotalCharges" df = true ->
  has_column "Churn" df = true ->
  exists df',
    clean parse_float df = Ok df' /\
    column_names df'
    = filter (fun n => negb (String.eqb n "customerID")) (column_names df) /\
    length (column_names df') + 1 = length (column_names df) /\
    index df' = index df /\
    (forall name,
        name <> "customerID" -> name <> "TotalCharges" -> name <> "Churn" ->
        col_get name df' = col_get name df) /\
    wf_frame df'.
Proof.
  intros Hwf Hid Htc Hch.
  destruct (has_column_get _ _ Htc) as [tc Gtc].
  destruct (has_column_get _ _ Hch) as [ch Gch].
  exists (cleaned parse_float tc ch df).
  split; [apply clean_ok; assumption |].
  assert (Hnames := cleaned_names parse_float tc ch df Htc Hch).
  split; [exact Hnames |].
  split.
  { rewrite Hnames. apply length_drop_nodup; [apply Hwf |].
    apply has_column_In. exact Hid. }
  split; [reflexivity |].
  split; [intros; apply cleaned_other; assumption |].
  apply cleaned_wf; assumption.
Qed.

(** C1 (amended).  Cleaning replaces the label column by a numeric one of
    the same length in which [No] has become 0 and [Yes] 1, and any other
    entry has become a missing value, without raising.  When every label
    is [No] or [Yes], all cleaned labels are 0 or 1 and the zeros and ones
    together count the rows. *)
Theorem clean_label_mapping (df : DataFrame) (ls : list (option string)) :
  wf_frame df ->
  has_column "customerID" df = true ->
  has_column "TotalCharges" df = true ->
  col_get "Churn" df = Ok (ObjCol ls) ->
  exists df' ys,
    clean parse_float df = Ok df' /\
    col_get "Churn" df' = Ok (NumCol ys) /\
    Forall2 (fun l y =>
               (l = Some "No" -> y = Some 0%Q) /\
               (l = Some "Yes" -> y = Some 1%Q) /\
               (l <> Some "No" -> l <> Some "Yes" -> y = None)) ls ys /\
    (Forall (fun l => l = Some "No" \/ l = Some "Yes") ls ->
     Forall (fun y => y = Some 0%Q \/ y = Some 1%Q) ys /\
     value_count 1 (NumCol ys) + value_count 0 (NumCol ys) = nrows df').
Proof.
  intros Hwf Hid Htc Hch.
  destruct (has_column_get _ _ Htc) as [tc Gtc].
  exists (cleaned parse_float tc (ObjCol ls) df).
  eexists.
  split; [apply clean_ok; assumption |].
  split; [rewrite cleaned_churn; reflexivity |].
  assert (Hlen : length ls = nrows df).
  { apply col_get_lookup in Hch as [n Hch]. apply lookup_In in Hch.
    destruct Hwf as [_ Hall]. rewrite Forall_forall in Hall.
    exact (Hall _ Hch). all: match goal with |- ?G => idtac "REMAINING" G end. }
  split.
  - clear. induction ls as [| l ls' IH]; cbn [map]; constructor; [| exact IH].
    destruct l as [s |]; cbn [dict_lookup churn_dict].
    + destruct (String.eqb_spec "No" s) as [<- | HNo].
      { repeat split; label_case. }
      destruct (String.eqb_spec "Yes" s) as [<- | HYes].
      { repeat split; label_case. }
      repeat split; label_case.
    + repeat split; label_case.
  - intros Hall. unfold nrows. rewrite cleaned_index. fold (nrows df).
    rewrite <- Hlen. clear - Hall.
    induction Hall as [| l ls' Hl Hrest [IH1 IH2]]; simpl; [split; [constructor | reflexivity] |].
    split.
    + constructor; [| exact IH1].
      destruct Hl as [-> | ->]; simpl; auto.
    + simpl in IH2.
      destruct Hl as [-> | ->]; simpl; lia.
Qed.



End CleanerClaims.

(** Decides the side conditions on a concrete table. *)
Ltac frame_facts :=
  repeat match goal with
         | |- wf_frame _ => split
         | |- NoDup _ => constructor
         | |- Forall _ _ => constructor
         | |- ~ In _ _ => simpl; intuition discriminate
         | |- _ = _ => reflexivity
         end.

Section CleanerExamples.

Lemma clean_frame_limited_witness :
  exists df',
    clean Example.parse_decimal Example.small = Ok df' /\
    column_names df'
    = filter (fun n => negb (String.eqb n "customerID"))
             (column_names Example.small) /\
    length (column_names df') + 1 = length (column_names Example.small) /\
    index df' = index Example.small /\
    (forall name,
        name <> "customerID" -> name <> "TotalCharges" -> name <> "Churn" ->
        col_get name df' = col_get name Example.small) /\
    wf_frame df'.
Proof.
  apply (clean_frame_limited Example.parse_decimal Example.small); frame_facts.
Defined.

Lemma clean_label_mapping_witness :
  exists df' ys,
    clean Example.parse_decimal Example.small = Ok df' /\
    col_get "Churn" df' = Ok (NumCol ys) /\
    Forall2 (fun l y =>
               (l = Some "No" -> y = Some 0%Q) /\
               (l = Some "Yes" -> y = Some 1%Q) /\
               (l <> Some "No" -> l <> Some "Yes" -> y = None))
            [Some "No"; Some "Yes"; Some "No"] ys /\
    (Forall (fun l => l = Some "No" \/ l = Some "Yes")
            [Some "No"; Some "Yes"; Some "No"] ->
     Forall (fun y => y = Some 0%Q \/ y = Some 1%Q) ys /\
     value_count 1 (NumCol ys) + value_count 0 (NumCol ys) = nrows df').
Proof.
  apply (clean_label_mapping Example.parse_decimal Example.small); frame_facts.
Defined.

(** C1, as stated, fails: a label that is neither [No] nor [Yes] does not
    stop the cleaner; it comes out as a missing value. *)
Lemma clean_unmapped_label_becomes_missing :
  exists df',
    clean Example.parse_decimal Example.odd_label = Ok df' /\
    col_get "Churn" df' = Ok (NumCol [Some 0%Q; None]).
Proof. eexists. split; reflexivity. Qed.



End CleanerExamples.

(* ================================================================== *)
(** * The loader *)
(* ================================================================== *)

Section LoaderClaims.

Variable parse_csv : string -> result DataFrame.
Variable parse_float : string -> option Q.
Variable rng : Type.
Variable RandomState : Z -> rng.
Variable rng_permutation : rng -> nat -> list nat * rng.
Variable rng_choice : rng -> list nat -> nat -> list nat * rng.
Variable fitted_model : Type.
Variable est_fit :
  estimator -> rng -> matrix -> list label -> result fitted_model.
Variable est_predict : fitted_model -> matrix -> result (list label).
Variable global : rng.

Lemma cell_load_missing (fs : filesystem) :
  fs dataset_path = None ->
  cell_load parse_csv fs
  = ([Text missing_file_message], Raise (FileNotFoundError dataset_path)).
Proof.
  intros H. unfold cell_load, read_csv. rewrite H. reflexivity.
Qed.

Lemma cell_load_present (fs : filesystem) (text : string) (df : DataFrame) :
  fs dataset_path = Some text -> parse_csv text = Ok df ->
  cell_load parse_csv fs
  = ([Text "First 5 rows of the dataset:"; Rich "df.head()"], Ok df).
Proof.
  intros H P. unfold cell_load, read_csv. rewrite H, P. reflexivity.
Qed.

(** C9.  When the data file does not exist, the run stops in the first
    cell with [FileNotFoundError]: the only thing written is the
    diagnostic, no table is produced, and no later cell contributes any
    output or result. *)
Theorem missing_file_aborts_run (fs : filesystem) :
  fs dataset_path = None ->
  notebook parse_csv parse_float rng RandomState rng_permutation rng_choice
           fitted_model est_fit est_predict global fs
  = ([Text missing_file_message], Raise (FileNotFoundError dataset_path)).
Proof.
  intros H. unfold notebook. rewrite (cell_load_missing fs H). reflexivity.
Qed.

End LoaderClaims.

Lemma missing_file_aborts_run_witness :
  notebook Example.parse_csv Example.parse_decimal Example.rng
           Example.RandomState Example.rng_permutation Example.rng_choice
           Example.fitted_model Example.est_fit Example.est_predict 0
           Example.empty_fs
  = ([Text missing_file_message], Raise (FileNotFoundError dataset_path)).
Proof.
  apply (missing_file_aborts_run Example.parse_csv Example.parse_decimal
           Example.rng Example.RandomState Example.rng_permutation
           Example.rng_choice Example.fitted_model Example.est_fit
           Example.est_predict 0 Example.empty_fs).
  reflexivity.
Defined.

(* ================================================================== *)
(** * Sorted distinct values *)
(* ================================================================== *)

Section UniqueFacts.

Context {A : Type} (eqb leb : A -> A -> bool).

Lemma insert_unique_In x l z :
In z (insert_unique eqb leb x l) -> z = x \/ In z l.
Proof.
induction l as [| y l IH]; simpl.
- intros [<- | []]. auto.
- destruct (eqb x y); [simpl; auto |].
  destruct (leb x y); simpl; [intuition auto |].
  intros [<- | H]; [auto |]. apply IH in H. tauto.
Qed.

Lemma insert_unique_keeps x l z :
In z l -> In z (insert_unique eqb leb x l).
Proof.
induction l as [| y l IH]; simpl; [tauto |].
destruct (eqb x y); [simpl; auto |].
destruct (leb x y); simpl; [auto |].
intros [<- | H]; auto.
Qed.

Lemma unique_In xs z : In z (unique eqb leb xs) -> In z xs.
Proof.
induction xs as [| x xs IH]; simpl; [tauto |].
intros H. apply insert_unique_In in H. destruct H; auto.
Qed.

Hypothesis eqb_refl : forall x, eqb x x = true.

(** Inserting a value makes it findable. *)
Lemma insert_unique_covers x l :
existsb (eqb x) (insert_unique eqb leb x l) = true.
Proof.
induction l as [| y l IH]; simpl.
- rewrite eqb_refl. reflexivity.
- destruct (eqb x y) eqn:E; [simpl; rewrite E; reflexivity |].
  destruct (leb x y); simpl; [rewrite eqb_refl; reflexivity |].
  rewrite E, IH. reflexivity.
Qed.

Lemma existsb_insert_unique z x l :
existsb (eqb z) l = true -> existsb (eqb z) (insert_unique eqb leb x l) = true.
Proof.
intros H. apply existsb_exists in H as [w [Hin Hw]].
apply existsb_exists. exists w. split; [| exact Hw].
apply insert_unique_keeps. exact Hin.
Qed.

(** Every value of the array is found among its distinct values. *)
Lemma unique_covers xs z :
In z xs -> existsb (eqb z) (unique eqb leb xs) = true.
Proof.
induction xs as [| x xs IH]; simpl; [tauto |].
intros [<- | H].
- apply insert_unique_covers.
- apply existsb_insert_unique. auto.
Qed.

Lemma index_in_lt z l :
existsb (eqb z) l = true -> index_in eqb z l < length l.
Proof.
induction l as [| y l IH]; simpl; [discriminate |].
destruct (eqb z y); simpl; [lia |]. intros H. apply IH in H. lia.
Qed.

(** The distinct values come out strictly increasing, for any strict order
    that the two tests decide. *)
Variable lt : A -> A -> Prop.
Hypothesis lt_trans : forall x y z, lt x y -> lt y z -> lt x z.
Hypothesis leb_lt : forall x y, eqb x y = false -> leb x y = true -> lt x y.
Hypothesis not_leb_lt : forall x y, eqb x y = false -> leb x y = false -> lt y x.

Lemma insert_unique_sorted x l :
StronglySorted lt l -> StronglySorted lt (insert_unique eqb leb x l).
Proof.
induction 1 as [| y l Hs IH Hy]; simpl.
- repeat constructor.
- destruct (eqb x y) eqn:E; [constructor; assumption |].
  destruct (leb x y) eqn:L.
  + constructor; [constructor; assumption |].
    constructor; [auto |].
    eapply Forall_impl; [| exact Hy]. intros z Hz. eapply lt_trans; eauto.
  + constructor; [exact IH |].
    apply Forall_forall. intros z Hz. apply insert_unique_In in Hz.
    destruct Hz as [-> | Hz]; [auto |].
    rewrite Forall_forall in Hy. auto.
Qed.

Lemma unique_sorted xs : StronglySorted lt (unique eqb leb xs).
Proof.
induction xs as [| x xs IH]; simpl; [constructor |].
apply insert_unique_sorted. exact IH.
Qed.

End UniqueFacts.

Lemma Qeq_bool_false_neq x y : Qeq_bool x y = false -> ~ (x == y)%Q.
Proof. apply Qeq_bool_neq. Qed.

Lemma unique_labels_sorted t p : StronglySorted Qlt (unique_labels t p).
Proof.
unfold unique_labels. apply unique_sorted.
- intros x y z. apply Qlt_trans.
- intros x y E L. apply Qeq_bool_neq in E. apply Qle_bool_iff in L.
  apply Qle_lteq in L. tauto.
- intros x y E L. apply Qnot_le_lt. intros H. apply Qle_bool_iff in H. congruence.
Qed.

Lemma unique_labels_covers t p z :
In z (t ++ p) -> existsb (Qeq_bool z) (unique_labels t p) = true.
Proof.
apply unique_covers. intros x. apply Qeq_bool_iff. reflexivity.
Qed.

(* ================================================================== *)
(** * Metrics *)
(* ================================================================== *)

Ltac qeq_facts :=
  repeat match goal with
         | H : Qeq_bool _ _ = true |- _ => apply Qeq_bool_iff in H
         | H : Qeq_bool _ _ = false |- _ => apply Qeq_bool_neq in H
         end.

Section MetricFacts.

Lemma check_targets_ok y_true y_pred t p :
check_targets y_true y_pred = Ok (t, p) ->
length t = length y_true /\ length p = length y_true /\
t = dropna y_true /\ p = dropna y_pred.
Proof.
unfold check_targets.
destruct (Nat.eqb_spec (length y_true) (length y_pred)) as [Hlen | _]; simpl;
  [| discriminate].
destruct (existsb is_nan (y_true ++ y_pred)) eqn:Hnan; [discriminate |].
intros [= <- <-].
assert (Hd : forall l : list label,
           existsb is_nan l = false -> length (dropna l) = length l).
{ induction l as [| [q |] l IH]; simpl; intros H; [reflexivity | | discriminate].
  f_equal. auto. }
rewrite existsb_app in Hnan. apply orb_false_iff in Hnan as [H1 H2].
rewrite (Hd _ H1), (Hd _ H2). auto.
Qed.

(** With two labels, each sample falls in exactly one cell, and the
    matching samples are those on the diagonal. *)
Lemma two_label_counts (neg pos : Q) : ~ (neg == pos)%Q ->
forall t p,
  length t = length p ->
  (forall z, In z (t ++ p) -> Qeq_bool z neg || Qeq_bool z pos = true) ->
  count_pairs neg neg t p + count_pairs neg pos t p
  + count_pairs pos neg t p + count_pairs pos pos t p = length t /\
  count_correct t p = count_pairs neg neg t p + count_pairs pos pos t p.
Proof.
intros Hdist. unfold count_pairs, count_correct.
induction t as [| x t IH]; intros [| y p] Hlen Hcov; simpl in Hlen;
  try discriminate; [simpl; auto |].
assert (Hx := Hcov x (or_introl eq_refl)).
assert (Hy : Qeq_bool y neg || Qeq_bool y pos = true).
{ apply Hcov. simpl. right. apply in_or_app. right. left. reflexivity. }
destruct (IH p) as [IH1 IH2]; [lia | |].
{ intros z Hz. apply Hcov. simpl. right.
  apply in_app_or in Hz. apply in_or_app. simpl. tauto. }
cbn [combine filter fst snd].
destruct (Qeq_bool x neg) eqn:Exn, (Qeq_bool x pos) eqn:Exp,
         (Qeq_bool y neg) eqn:Eyn, (Qeq_bool y pos) eqn:Eyp,
         (Qeq_bool x y) eqn:Exy;
  try discriminate; cbn [andb length];
  first [ split; lia | exfalso; qeq_facts; Lqa.lra ].
Qed.

Lemma length_two {B} (l : list B) : length l = 2 -> exists a b, l = [a; b].
Proof.
destruct l as [| a [| b [| c l]]]; simpl; try discriminate. eauto.
Qed.

(** What the confusion matrix holds when it has the two-by-two shape. *)
Lemma confusion_matrix_two_by_two y_true y_pred tn fp fn tp :
confusion_matrix y_true y_pred = Ok [[tn; fp]; [fn; tp]] ->
exists neg pos t p,
  check_targets y_true y_pred = Ok (t, p) /\
  unique_labels t p = [neg; pos] /\ (neg < pos)%Q /\
  tn = count_pairs neg neg t p /\ fp = count_pairs neg pos t p /\
  fn = count_pairs pos neg t p /\ tp = count_pairs pos pos t p.
Proof.
unfold confusion_matrix.
destruct (check_targets y_true y_pred) as [[t p] | e] eqn:Hc; simpl;
  [| discriminate].
intros [= Hcm].
assert (Hlen : length (unique_labels t p) = 2).
{ apply (f_equal (@length _)) in Hcm. rewrite length_map in Hcm. exact Hcm. }
destruct (length_two _ Hlen) as [neg [pos Hl]].
rewrite Hl in Hcm. simpl in Hcm. injection Hcm as <- <- <- <-.
exists neg, pos, t, p. repeat split; auto.
pose proof (unique_labels_sorted t p) as Hs. rewrite Hl in Hs.
inversion Hs as [| ? ? _ Hall]. inversion Hall. assumption.
Qed.

End MetricFacts.

Section MetricClaims.

Lemma heatmap_shape title z fig :
create_annotated_heatmap title z = Ok fig ->
fig = Heatmap title z /\
exists row rest, z = [row; rest] /\ length row = 2.
Proof.
unfold create_annotated_heatmap. destruct z as [| row z]; [discriminate |].
destruct (Nat.eqb_spec (length row) 2) as [Hr | _]; cbn [negb];
  [| discriminate].
destruct (Nat.eqb_spec (length (row :: z)) 2) as [Hz | _]; cbn [negb];
  [| discriminate].
intros [= <-]. split; [reflexivity |].
destruct z as [| rest [| ? ?]]; simpl in Hz; try discriminate.
eauto.
Qed.

(** C7.  Whatever a model predicts, when its report is produced the drawn
    confusion matrix is two by two, with rows for the actual and columns for
    the predicted label (smaller label first); its four cells add up to the
    size of the test partition, and the printed accuracy is the share of the
    diagonal cells, (TN + TP) / (TN + FP + FN + TP). *)
Theorem evaluate_reports_consistent_metrics
  (banner title : string) (y_test y_pred : list label)
  (out : list output) (cm : list (list nat)) :
evaluate banner title y_test y_pred = (out, Ok cm) ->
exists tn fp fn tp acc,
  cm = [[tn; fp]; [fn; tp]] /\
  out = [Text banner; TextPct "Accuracy: " (Some (acc * 100)%Q);
         Heatmap title cm] /\
  tn + fp + fn + tp = length y_test /\
  acc = (inject_Z (Z.of_nat (tn + tp))
         / inject_Z (Z.of_nat (tn + fp + fn + tp)))%Q /\
  exists neg pos,
    (neg < pos)%Q /\
    tn = count_pairs neg neg (dropna y_test) (dropna y_pred) /\
    fp = count_pairs neg pos (dropna y_test) (dropna y_pred) /\
    fn = count_pairs pos neg (dropna y_test) (dropna y_pred) /\
    tp = count_pairs pos pos (dropna y_test) (dropna y_pred).
Proof.
unfold evaluate, nb_bind, nb_print, nb_lift, nb_ret.
destruct (accuracy_score y_test y_pred) as [acc | e] eqn:Hacc; [| discriminate].
destruct (confusion_matrix y_test y_pred) as [z | e] eqn:Hcm; [| discriminate].
destruct (create_annotated_heatmap title z) as [fig | e] eqn:Hfig;
  [| discriminate].
cbn [app]. intros [= <- <-].
apply heatmap_shape in Hfig as [-> [row [rest [-> Hrow]]]].
destruct (length_two _ Hrow) as [tn [fp ->]].
assert (Hrest : length rest = 2).
{ unfold confusion_matrix in Hcm.
  destruct (check_targets y_test y_pred) as [[t p] |]; [| discriminate].
  simpl in Hcm. injection Hcm as Hcm.
  destruct (unique_labels t p) as [| a [| b [| c l]]]; simpl in Hcm;
    try discriminate.
  injection Hcm as _ _ <-. reflexivity. }
destruct (length_two _ Hrest) as [fn [tp ->]].
destruct (confusion_matrix_two_by_two _ _ _ _ _ _ Hcm)
  as [neg [pos [t [p [Hc [Hl [Hlt [Htn [Hfp [Hfn Htp]]]]]]]]]].
destruct (check_targets_ok _ _ _ _ Hc) as [Lt [Lp [Et Ep]]].
destruct (two_label_counts neg pos) with (t := t) (p := p) as [Hsum Hcorrect].
{ intros E. rewrite E in Hlt. exact (Qlt_irrefl _ Hlt). }
{ congruence. }
{ intros z Hz. apply unique_labels_covers in Hz. rewrite Hl in Hz.
  simpl in Hz. rewrite orb_false_r in Hz. exact Hz. }
assert (Hn : tn + fp + fn + tp = length y_test) by (subst tn fp fn tp; lia).
assert (Ht0 : length t <> 0).
{ intros E. destruct t; [| discriminate]. destruct p; [| simpl in *; lia].
  discriminate. }
unfold accuracy_score in Hacc. rewrite Hc in Hacc. cbn [result_bind fst snd] in Hacc.
destruct (Nat.eqb_spec (length t) 0) as [E | _]; [contradiction |].
injection Hacc as <-.
exists tn, fp, fn, tp. eexists.
split; [reflexivity |]. split; [reflexivity |]. split; [exact Hn |].
split.
- rewrite Hcorrect, <- Htn, <- Htp, Lt, <- Hn. reflexivity.
- exists neg, pos. subst t p. auto.
Qed.

Lemma evaluate_reports_consistent_metrics_witness :
exists tn fp fn tp acc,
  [[1; 0]; [1; 1]] = [[tn; fp]; [fn; tp]] /\
  [Text "--- Decision Tree --- "; TextPct "Accuracy: " (Some ((2 / 3) * 100)%Q);
   Heatmap "Confusion Matrix" [[1; 0]; [1; 1]]]
  = [Text "--- Decision Tree --- "; TextPct "Accuracy: " (Some (acc * 100)%Q);
     Heatmap "Confusion Matrix" [[1; 0]; [1; 1]]] /\
  tn + fp + fn + tp = length [Some 0%Q; Some 1%Q; Some 1%Q] /\
  acc = (inject_Z (Z.of_nat (tn + tp))
         / inject_Z (Z.of_nat (tn + fp + fn + tp)))%Q /\
  exists neg pos,
    (neg < pos)%Q /\
    tn = count_pairs neg neg (dropna [Some 0%Q; Some 1%Q; Some 1%Q])
                             (dropna [Some 0%Q; Some 0%Q; Some 1%Q]) /\
    fp = count_pairs neg pos (dropna [Some 0%Q; Some 1%Q; Some 1%Q])
                             (dropna [Some 0%Q; Some 0%Q; Some 1%Q]) /\
    fn = count_pairs pos neg (dropna [Some 0%Q; Some 1%Q; Some 1%Q])
                             (dropna [Some 0%Q; Some 0%Q; Some 1%Q]) /\
    tp = count_pairs pos pos (dropna [Some 0%Q; Some 1%Q; Some 1%Q])
                             (dropna [Some 0%Q; Some 0%Q; Some 1%Q]).
Proof.
apply (evaluate_reports_consistent_metrics "--- Decision Tree --- "
         "Confusion Matrix"
         [Some 0%Q; Some 1%Q; Some 1%Q] [Some 0%Q; Some 0%Q; Some 1%Q]).
reflexivity.
Defined.

End MetricClaims.

(* ================================================================== *)
(** * The feature transformer *)
(* ================================================================== *)

Section TransformerFacts.

Lemma mapM_ok_map {A B} (f : A -> result B) (g : A -> B) (l : list A) :
(forall x, In x l -> f x = Ok (g x)) -> mapM f l = Ok (map g l).
Proof.
induction l as [| x l IH]; intros H; simpl; [reflexivity |].
rewrite (H x (or_introl eq_refl)). cbn [result_bind].
rewrite IH; [reflexivity |]. intros y Hy. apply H. right. exact Hy.
Qed.

Lemma lookup_nodup name c cols :
NoDup (map fst cols) -> In (name, c) cols -> lookup name cols = Some (name, c).
Proof.
induction cols as [| [n c0] cols IH]; simpl; [contradiction |].
intros Hnd Hin. inversion Hnd as [| ? ? Hnotin Hnd']; subst.
destruct Hin as [[= -> ->] | Hin].
- unfold lookup. simpl. rewrite String.eqb_refl. reflexivity.
- unfold lookup. simpl. destruct (String.eqb_spec n name) as [-> | Hne].
  + exfalso. apply Hnotin. apply in_map_iff. exists (name, c). auto.
  + apply IH; assumption.
Qed.

Lemma numeric_columns_ok (X : DataFrame) :
NoDup (column_names X) ->
mapM (numeric_column X) (number_columns X) = Ok (number_data X).
Proof.
intros Hnd. unfold number_columns, number_data.
assert (H : forall cols, incl cols (columns X) ->
  mapM (numeric_column X)
    (flat_map (fun nc => match snd nc with NumCol _ => [fst nc] | ObjCol _ => [] end) cols)
  = Ok (flat_map (fun nc => match snd nc with NumCol xs => [xs] | ObjCol _ => [] end) cols)).
{ induction cols as [| [n c] cols IH]; intros Hincl; simpl; [reflexivity |].
  assert (Hin : In (n, c) (columns X)) by (apply Hincl; left; reflexivity).
  assert (Hrest : incl cols (columns X)).
  { intros x Hx. apply Hincl. right. exact Hx. }
  destruct c as [xs | xs]; simpl; [| apply IH; exact Hrest].
  unfold numeric_column at 1, col_get.
  rewrite (lookup_nodup n (NumCol xs) _ Hnd Hin). cbn [result_bind].
  rewrite (IH Hrest). reflexivity. }
apply H. apply incl_refl.
Qed.

Lemma object_columns_ok (X : DataFrame) :
NoDup (column_names X) ->
mapM (object_column X) (object_columns X) = Ok (object_data X).
Proof.
intros Hnd. unfold object_columns, object_data.
assert (H : forall cols, incl cols (columns X) ->
  mapM (object_column X)
    (flat_map (fun nc => match snd nc with ObjCol _ => [fst nc] | NumCol _ => [] end) cols)
  = Ok (flat_map (fun nc => match snd nc with ObjCol xs => [xs] | NumCol _ => [] end) cols)).
{ induction cols as [| [n c] cols IH]; intros Hincl; simpl; [reflexivity |].
  assert (Hin : In (n, c) (columns X)) by (apply Hincl; left; reflexivity).
  assert (Hrest : incl cols (columns X)).
  { intros x Hx. apply Hincl. right. exact Hx. }
  destruct c as [xs | xs]; simpl; [apply IH; exact Hrest |].
  unfold object_column at 1, col_get.
  rewrite (lookup_nodup n (ObjCol xs) _ Hnd Hin). cbn [result_bind].
  rewrite (IH Hrest). reflexivity. }
apply H. apply incl_refl.
Qed.

(** Selecting rows keeps the header and the dtypes. *)
Lemma iloc_names idx X : column_names (iloc idx X) = column_names X.
Proof.
unfold column_names, iloc. cbn [columns]. rewrite map_map. reflexivity.
Qed.

Lemma iloc_nrows idx X : nrows (iloc idx X) = length idx.
Proof. unfold nrows, iloc, take. cbn [index]. apply length_map. Qed.

Lemma iloc_number_columns idx X : number_columns (iloc idx X) = number_columns X.
Proof.
unfold number_columns, iloc. cbn [columns].
induction (columns X) as [| [n [xs | xs]] cols IH]; simpl; congruence.
Qed.

Lemma iloc_object_columns idx X : object_columns (iloc idx X) = object_columns X.
Proof.
unfold object_columns, iloc. cbn [columns].
induction (columns X) as [| [n [xs | xs]] cols IH]; simpl; congruence.
Qed.


Lemma iloc_object_data idx X :
object_data (iloc idx X) = map (take None idx) (object_data X).
Proof.
unfold object_data, iloc. cbn [columns].
induction (columns X) as [| [n [xs | xs]] cols IH]; simpl; congruence.
Qed.

Lemma encode_cell_ignore d cats v :
encode_cell (mkOneHotEncoder HandleIgnore d) cats v
= Ok (drop_columns d (one_hot cats v)).
Proof.
unfold encode_cell. cbn [enc_handle_unknown enc_drop].
destruct (existsb (category_eqb v) cats); reflexivity.
Qed.

(** With [handle_unknown='error'] the same cell would stop the transform. *)
Lemma encode_cell_error d cats v :
existsb (category_eqb v) cats = false ->
encode_cell (mkOneHotEncoder HandleError d) cats v
= Raise (ValueError "Found unknown categories").
Proof.
intros H. unfold encode_cell. rewrite H. reflexivity.
Qed.

Lemma transform_row_ignore st nums cats i :
transform_row (mkOneHotEncoder HandleIgnore DropFirst) st nums cats i
= Ok (encoded_row st nums cats i).
Proof.
unfold transform_row, encoded_row.
rewrite (mapM_ok_map _ (fun p => drop_columns DropFirst
                                   (one_hot (fst p) (nth i (snd p) None)))).
- reflexivity.
- intros p _. apply encode_cell_ignore.
Qed.

(** The notebook's transformer applies a stored state to any table with at
    least one row and the columns it was declared on. *)
Lemma apply_fitted_ok (X Y : DataFrame) (st : fitted_state) :
NoDup (column_names Y) ->
number_columns Y = number_columns X ->
object_columns Y = object_columns X ->
nrows Y <> 0 ->
forall fitted,
apply_fitted (mkColumnTransformer (number_columns X) (object_columns X)
                (mkOneHotEncoder HandleIgnore DropFirst) fitted) st Y
= Ok (map (encoded_row st (number_data Y) (object_data Y)) (seq 0 (nrows Y))).
Proof.
intros Hnd Hn Ho Hrows fitted. unfold apply_fitted.
destruct (Nat.eqb_spec (nrows Y) 0) as [E | _]; [contradiction |].
cbn [ct_numerical ct_categorical ct_encoder].
rewrite <- Hn, <- Ho.
rewrite (numeric_columns_ok Y Hnd), (object_columns_ok Y Hnd).
cbn [result_bind].
apply mapM_ok_map. intros i _. apply transform_row_ignore.
Qed.

Lemma fit_state_ok (X Y : DataFrame) :
NoDup (column_names Y) ->
number_columns Y = number_columns X ->
object_columns Y = object_columns X ->
nrows Y <> 0 ->
fit_state (make_preprocessor X) Y
= Ok (mkFitted (map scaler_fit (number_data Y))
               (map categories_of (object_data Y))).
Proof.
intros Hnd Hn Ho Hrows. unfold fit_state, make_preprocessor.
destruct (Nat.eqb_spec (nrows Y) 0) as [E | _]; [contradiction |].
cbn [ct_numerical ct_categorical].
rewrite <- Hn, <- Ho.
rewrite (numeric_columns_ok Y Hnd), (object_columns_ok Y Hnd).
reflexivity.
Qed.

End TransformerFacts.

Section EncoderFacts.

Lemma category_eqb_eq (a b : category) : category_eqb a b = true <-> a = b.
Proof.
destruct a as [x |], b as [y |]; simpl; try (split; congruence).
rewrite String.eqb_eq. split; congruence.
Qed.

Lemma category_eqb_refl (a : category) : category_eqb a a = true.
Proof. apply category_eqb_eq. reflexivity. Qed.

Lemma category_lt_irrefl (a : category) : ~ category_lt a a.
Proof.
destruct a as [x |]; simpl; [| auto].
intros H. exact (OrderedTypeEx.String_as_OT.lt_not_eq _ _ H eq_refl).
Qed.

Lemma categories_sorted (xs : list category) :
StronglySorted category_lt (categories_of xs).
Proof.
unfold categories_of. apply unique_sorted.
- intros [x |] [y |] [z |]; simpl; try contradiction; auto.
  apply OrderedTypeEx.String_as_OT.lt_trans.
- intros [x |] [y |]; simpl; try discriminate; auto.
  intros E L. apply OrderedTypeEx.String_as_OT.cmp_lt.
  unfold OrderedTypeEx.String_as_OT.cmp. unfold String.leb in L.
  destruct (String.compare x y) eqn:C; try discriminate; [| reflexivity].
  apply String.compare_eq_iff in C. subst. rewrite String.eqb_refl in E.
  discriminate.
- intros [x |] [y |]; simpl; try discriminate; auto.
  intros E L. apply OrderedTypeEx.String_as_OT.cmp_lt.
  unfold OrderedTypeEx.String_as_OT.cmp. unfold String.leb in L.
  rewrite String.compare_antisym.
  destruct (String.compare x y); try discriminate. reflexivity.
Qed.

(** The vocabulary holds exactly the values seen in fit. *)
Lemma categories_In (xs : list category) (v : category) :
In v (categories_of xs) <-> In v xs.
Proof.
split; [apply unique_In |]. intros H.
apply (unique_covers category_eqb category_leb category_eqb_refl) in H.
apply existsb_exists in H as [w [Hw E]]. apply category_eqb_eq in E.
subst. exact Hw.
Qed.

Lemma one_hot_not_In (cats : list category) (v : category) :
~ In v cats -> one_hot cats v = repeat (Some 0%R) (length cats).
Proof.
induction cats as [| c cats IH]; simpl; [reflexivity |]. intros H.
destruct (category_eqb v c) eqn:E.
- apply category_eqb_eq in E. subst. exfalso. apply H. left. reflexivity.
- f_equal. apply IH. intros Hin. apply H. right. exact Hin.
Qed.

(** A value never seen in fit, and the first category of the vocabulary,
    are both written as zeros only. *)
Lemma unseen_or_reference_is_zero (tr : list category) (v : category) :
~ In v tr \/ hd_error (categories_of tr) = Some v ->
drop_columns DropFirst (one_hot (categories_of tr) v)
= repeat (Some 0%R) (length (categories_of tr) - 1).
Proof.
intros [Hun | Href]; cbn [drop_columns].
- rewrite one_hot_not_In by (rewrite categories_In; exact Hun).
  destruct (categories_of tr); simpl; [reflexivity |].
  try rewrite Nat.sub_0_r. reflexivity.
- pose proof (categories_sorted tr) as Hs.
  destruct (categories_of tr) as [| c rest]; [discriminate |].
  injection Href as ->. cbn [one_hot map tl length].
  replace (S (length rest) - 1) with (length rest) by lia.
  apply one_hot_not_In.
  inversion Hs as [| ? ? _ Hall]; subst. intros Hin.
  rewrite Forall_forall in Hall. exact (category_lt_irrefl _ (Hall _ Hin)).
Qed.

End EncoderFacts.

Section TransformerClaims.

Lemma train_partition_schema (X : DataFrame) (idx : list nat) :
NoDup (column_names X) -> idx <> [] ->
NoDup (column_names (iloc idx X)) /\
number_columns (iloc idx X) = number_columns X /\
object_columns (iloc idx X) = object_columns X /\
nrows (iloc idx X) <> 0.
Proof.
intros Hnd Hne. rewrite iloc_names, iloc_number_columns, iloc_object_columns,
  iloc_nrows.
repeat split; auto. destruct idx; [congruence | discriminate].
Qed.

(** C4.  For any table and any two non-empty selections of its rows taken
    as training and test partition, fitting the notebook's transformer on
    the first and applying it to the second both succeed.  Every test row
    is written as its scaled numeric cells followed, per categorical
    feature, by the indicators of the vocabulary learnt in training minus
    the first; for a value that never occurred in training, and for the
    first (dropped) category, those indicators are all zero. *)
Theorem fit_then_transform_never_raises (X : DataFrame) (train test : list nat) :
NoDup (column_names X) -> train <> [] -> test <> [] ->
exists pre' st Mtr Mte,
  fit_transform (make_preprocessor X) (iloc train X) = Ok (pre', Mtr) /\
  ct_fitted pre' = Some st /\
  categories_ st = map categories_of (object_data (iloc train X)) /\
  transform pre' (iloc test X) = Ok Mte /\
  Mte = map (encoded_row st (number_data (iloc test X))
                            (object_data (iloc test X)))
            (seq 0 (length test)) /\
  forall (tr : list category) (v : category),
    ~ In v tr \/ hd_error (categories_of tr) = Some v ->
    drop_columns DropFirst (one_hot (categories_of tr) v)
    = repeat (Some 0%R) (length (categories_of tr) - 1).
Proof.
intros Hnd Htrain Htest.
destruct (train_partition_schema X train Hnd Htrain) as [Nt [Numt [Objt Rt]]].
destruct (train_partition_schema X test Hnd Htest) as [Ne [Nume [Obje Re]]].
unfold fit_transform.
rewrite (fit_state_ok X (iloc train X) Nt Numt Objt Rt). cbn [result_bind].
unfold make_preprocessor.
rewrite (apply_fitted_ok X (iloc train X) _ Nt Numt Objt Rt). cbn [result_bind].
do 4 eexists.
split; [reflexivity |]. cbn [ct_fitted ct_numerical ct_categorical ct_encoder].
split; [reflexivity |].
split; [reflexivity |].
unfold transform. cbn [ct_fitted].
rewrite (apply_fitted_ok X (iloc test X) _ Ne Nume Obje Re).
rewrite iloc_nrows.
split; [reflexivity |].
split; [reflexivity |].
apply unseen_or_reference_is_zero.
Qed.

End TransformerClaims.

Lemma fit_then_transform_never_raises_witness :
exists pre' st Mtr Mte,
  fit_transform (make_preprocessor Example.small) (iloc [0; 2] Example.small)
  = Ok (pre', Mtr) /\
  ct_fitted pre' = Some st /\
  categories_ st = map categories_of (object_data (iloc [0; 2] Example.small)) /\
  transform pre' (iloc [1] Example.small) = Ok Mte /\
  Mte = map (encoded_row st (number_data (iloc [1] Example.small))
                            (object_data (iloc [1] Example.small)))
            (seq 0 (length [1])) /\
  forall (tr : list category) (v : category),
    ~ In v tr \/ hd_error (categories_of tr) = Some v ->
    drop_columns DropFirst (one_hot (categories_of tr) v)
    = repeat (Some 0%R) (length (categories_of tr) - 1).
Proof.
apply (fit_then_transform_never_raises Example.small [0; 2] [1]).
- frame_facts.
- discriminate.
- discriminate.
Defined.

(* ================================================================== *)
(** * Cell 12 *)
(* ================================================================== *)

Section PrepareFacts.

Variable rng : Type.
Variable RandomState : Z -> rng.
Variable rng_permutation : rng -> nat -> list nat * rng.
Variable rng_choice : rng -> list nat -> nat -> list nat * rng.
Variable global : rng.

(** What a completed cell 12 has computed. *)
Lemma cell_prepare_inv (df : DataFrame) (out : list output) (p : prepared) :
cell_prepare rng RandomState rng_permutation rng_choice global df = (out, Ok p) ->
exists X yc y,
  df_drop "Churn" df = Ok X /\
  col_get "Churn" df = Ok yc /\
  y_values yc = Ok y /\
  train_test_split rng RandomState rng_permutation rng_choice global X y
                   (1 # 5)%Q (Some 42%Z)
  = Ok (X_train p, X_test p, y_train p, y_test p) /\
  preprocess (make_preprocessor X) (X_train p) (X_test p)
  = Ok (preprocessor p, X_train_processed p, X_test_processed p).
Proof.
unfold cell_prepare, nb_bind, nb_lift, nb_print, nb_ret.
destruct (df_drop "Churn" df) as [X |] eqn:HX; [| discriminate].
destruct (col_get "Churn" df) as [yc |] eqn:Hyc; [| discriminate].
destruct (y_values yc) as [y |] eqn:Hy; [| discriminate].
destruct (train_test_split _ _ _ _ _ X y _ _) as [[[[Xtr Xte] ytr] yte] |]
  eqn:Hsplit; [| discriminate].
destruct (preprocess (make_preprocessor X) Xtr Xte) as [[[pre' Mtr] Mte] |]
  eqn:Hpre; [| discriminate].
intros [= <- <-]. exists X, yc, y. cbn [X_train X_test y_train y_test
  preprocessor X_train_processed X_test_processed].
repeat split; assumption.
Qed.

Lemma preprocess_inv (pre : ColumnTransformer) (Xtr Xte : DataFrame)
  (pre' : ColumnTransformer) (Mtr Mte : matrix) :
preprocess pre Xtr Xte = Ok (pre', Mtr, Mte) ->
exists st,
  fit_state pre Xtr = Ok st /\
  pre' = mkColumnTransformer (ct_numerical pre) (ct_categorical pre)
                             (ct_encoder pre) (Some st) /\
  apply_fitted pre st Xtr = Ok Mtr /\
  apply_fitted pre' st Xte = Ok Mte.
Proof.
unfold preprocess, fit_transform.
destruct (fit_state pre Xtr) as [st |]; [| discriminate]. cbn [result_bind].
destruct (apply_fitted pre st Xtr) as [M |] eqn:Etr; [| discriminate].
cbn [result_bind fst snd]. unfold transform. cbn [ct_fitted].
destruct (apply_fitted _ st Xte) as [M' |] eqn:Ete; [| discriminate].
cbn [result_bind]. intros [= <- <- <-]. exists st.
repeat split; solve [reflexivity | assumption].
Qed.


End PrepareFacts.

(* ================================================================== *)
(** * Standardisation over the reals *)
(* ================================================================== *)

Section ScalerFacts.

Open Scope R_scope.












End ScalerFacts.

Section ScalerClaims.



Lemma map_nth_seq {A B} (g : A -> B) (d : A) (l : list A) :
map (fun i => g (nth i l d)) (seq 0 (length l)) = map g l.
Proof.
induction l as [| x l IH]; [reflexivity |].
cbn [length seq map nth]. f_equal.
rewrite <- seq_shift, map_map. exact IH.
Qed.





End ScalerClaims.



(* ================================================================== *)
(** * Reproducibility *)
(* ================================================================== *)

Section Reproducibility.

Variable parse_csv : string -> result DataFrame.
Variable parse_float : string -> option Q.
Variable rng : Type.
Variable RandomState : Z -> rng.
Variable rng_permutation : rng -> nat -> list nat * rng.
Variable rng_choice : rng -> list nat -> nat -> list nat * rng.
Variable fitted_model : Type.
Variable est_fit :
  estimator -> rng -> matrix -> list label -> result fitted_model.
Variable est_predict : fitted_model -> matrix -> result (list label).

(** A seeded call never looks at the process-wide generator. *)
Lemma check_random_state_seeded (g1 g2 : rng) (seed : Z) :
check_random_state rng RandomState g1 (Some seed)
= check_random_state rng RandomState g2 (Some seed).
Proof. reflexivity. Qed.

Lemma train_test_split_seeded (g1 g2 : rng) X y test_size (seed : Z) :
train_test_split rng RandomState rng_permutation rng_choice g1 X y test_size (Some seed)
= train_test_split rng RandomState rng_permutation rng_choice g2 X y test_size (Some seed).
Proof. reflexivity. Qed.

Lemma fit_seeded (g1 g2 : rng) (e : estimator) (X : matrix) (y : list label) :
estimator_random_state e <> None ->
fit rng RandomState fitted_model est_fit g1 e X y
= fit rng RandomState fitted_model est_fit g2 e X y.
Proof.
intros H. unfold fit. destruct (estimator_random_state e) as [s |];
  [reflexivity | contradiction].
Qed.

(** An unseeded estimator would follow the process-wide generator. *)
Lemma fit_unseeded (g : rng) (X : matrix) (y : list label) :
fit rng RandomState fitted_model est_fit g (DecisionTreeClassifier None 5) X y
= est_fit (DecisionTreeClassifier None 5) g X y.
Proof. reflexivity. Qed.

Lemma cell_prepare_seeded (g1 g2 : rng) (df : DataFrame) :
cell_prepare rng RandomState rng_permutation rng_choice g1 df
= cell_prepare rng RandomState rng_permutation rng_choice g2 df.
Proof. reflexivity. Qed.

Lemma cell_model_seeded (g1 g2 : rng) banner title e p :
estimator_random_state e <> None ->
cell_model rng RandomState fitted_model est_fit est_predict g1 banner title e p
= cell_model rng RandomState fitted_model est_fit est_predict g2 banner title e p.
Proof.
intros H. unfold cell_model. rewrite (fit_seeded g1 g2 e _ _ H). reflexivity.
Qed.

(** C6.  Two runs of the notebook on the same files, started with the
    process-wide generator in two arbitrary states, write the same output
    and end with the same result: the same train and test partitions, the
    same fitted transformer and processed matrices, and the same six
    confusion matrices.  (The transformer's [fit_state] takes no generator
    at all; the estimators are functions of their arguments and of the
    generator their seed gives.) *)
Theorem two_runs_agree (g1 g2 : rng) (fs : filesystem) :
notebook parse_csv parse_float rng RandomState rng_permutation rng_choice
         fitted_model est_fit est_predict g1 fs
= notebook parse_csv parse_float rng RandomState rng_permutation rng_choice
           fitted_model est_fit est_predict g2 fs.
Proof.
unfold notebook, cell_lr, cell_dt, cell_svc, cell_rf, cell_gb, cell_mlp,
  cell_model, fit, lr, dt, svc, rf, gb, mlp.
cbn [estimator_random_state check_random_state].
unfold cell_prepare, train_test_split, stratified_shuffle_split.
cbn [check_random_state].
reflexivity.
Qed.

End Reproducibility.

(* ================================================================== *)
(** * The splitter *)
(* ================================================================== *)

Section ListFacts.

Lemma filter_or_length {A} (p q : A -> bool) (l : list A) :
(forall x, In x l -> p x = true -> q x = false) ->
length (filter (fun x => p x || q x) l)
= length (filter p l) + length (filter q l).
Proof.
induction l as [| x l IH]; intros H; simpl; [reflexivity |].
assert (IH' := IH (fun z Hz => H z (or_intror Hz))).
destruct (p x) eqn:P; simpl.
- rewrite (H x (or_introl eq_refl) P). simpl. lia.
- destruct (q x); simpl; lia.
Qed.

Lemma filter_or_perm {A} (p q : A -> bool) (l : list A) :
(forall x, In x l -> p x = true -> q x = false) ->
Permutation (filter p l ++ filter q l) (filter (fun x => p x || q x) l).
Proof.
induction l as [| x l IH]; intros H; simpl; [constructor |].
assert (IH' := IH (fun z Hz => H z (or_intror Hz))).
destruct (p x) eqn:P; simpl.
- rewrite (H x (or_introl eq_refl) P). simpl. constructor. exact IH'.
- destruct (q x); simpl; [| exact IH'].
  rewrite <- Permutation_middle. constructor. exact IH'.
Qed.

Lemma filter_length_ext_in {A} (p q : A -> bool) (l : list A) :
(forall x, In x l -> p x = q x) ->
length (filter p l) = length (filter q l).
Proof.
intros H. rewrite (filter_ext_in p q l H). reflexivity.
Qed.

Lemma NoDup_incl_filter_length (inds l : list nat) :
NoDup inds -> NoDup l -> incl inds l ->
length (filter (fun k => existsb (Nat.eqb k) inds) l) = length inds.
Proof.
intros Hi Hl Hincl. apply Permutation_length. apply NoDup_Permutation.
- apply NoDup_filter. exact Hl.
- exact Hi.
- intros x. rewrite filter_In, existsb_exists. split.
  + intros [_ [z [Hz E]]]. apply Nat.eqb_eq in E. subst. exact Hz.
  + intros Hx. split; [apply Hincl; exact Hx |].
    exists x. split; [exact Hx | apply Nat.eqb_refl].
Qed.

Lemma list_sum_map_add {A} (f g : A -> nat) (l : list A) :
list_sum (map (fun x => f x + g x) l) = list_sum (map f l) + list_sum (map g l).
Proof.
induction l as [| x l IH]; simpl; [reflexivity |]. rewrite IH. lia.
Qed.

Lemma list_sum_indicator {A} (p : A -> bool) (l : list A) :
list_sum (map (fun x => if p x then 1 else 0) l) = length (filter p l).
Proof.
induction l as [| x l IH]; simpl; [reflexivity |].
destruct (p x); simpl; lia.
Qed.

Lemma list_sum_concat_length {A} (ls : list (list A)) :
length (concat ls) = list_sum (map (@length A) ls).
Proof.
induction ls as [| l ls IH]; simpl; [reflexivity |].
rewrite length_app, IH. reflexivity.
Qed.

Lemma nth_error_combine_seq {A} (l : list A) (s k : nat) (x : A) :
nth_error l k = Some x ->
nth_error (combine (seq s (length l)) l) k = Some (s + k, x).
Proof.
revert s k. induction l as [| y l IH]; intros s [| k]; simpl; try discriminate.
- intros [= ->]. rewrite Nat.add_0_r. reflexivity.
- intros H. rewrite (IH (S s) k H). f_equal. f_equal. lia.
Qed.

Lemma firstn_In {A} (n : nat) (l : list A) (x : A) :
In x (firstn n l) -> In x l.
Proof.
intros H. rewrite <- (firstn_skipn n l). apply in_or_app. left. exact H.
Qed.

Lemma skipn_In {A} (n : nat) (l : list A) (x : A) :
In x (skipn n l) -> In x l.
Proof.
intros H. rewrite <- (firstn_skipn n l). apply in_or_app. right. exact H.
Qed.

Lemma take_perm {A} (d : A) (p : list nat) (l : list A) :
Permutation p (seq 0 (length l)) -> Permutation (take d p l) l.
Proof.
intros H. unfold take.
rewrite (Permutation_map (fun i => nth i l d) H).
rewrite (map_nth_seq (fun x => x) d l), map_id. reflexivity.
Qed.

End ListFacts.

Section AddOneFacts.

Lemma add_one_at_length inds fl : length (add_one_at inds fl) = length fl.
Proof.
unfold add_one_at. rewrite length_map, length_combine, length_seq. lia.
Qed.

Lemma add_one_at_nth inds fl k :
k < length fl ->
nth k (add_one_at inds fl) 0
= nth k fl 0 + (if existsb (Nat.eqb k) inds then 1 else 0).
Proof.
intros Hk. unfold add_one_at.
destruct (nth_error fl k) as [x |] eqn:E.
2:{ apply nth_error_None in E. lia. }
apply nth_error_nth.
rewrite nth_error_map, (nth_error_combine_seq fl 0 k x E). cbn [option_map fst snd].
rewrite (nth_error_nth fl k 0 E). cbn [Nat.add].
destruct (existsb (Nat.eqb k) inds); f_equal; lia.
Qed.

Lemma add_one_at_sum inds fl :
NoDup inds -> (forall i, In i inds -> i < length fl) ->
list_sum (add_one_at inds fl) = list_sum fl + length inds.
Proof.
intros Hnd Hlt. unfold add_one_at.
rewrite (map_ext _ (fun p => snd p + (if existsb (Nat.eqb (fst p)) inds then 1 else 0))).
2:{ intros [i x]. cbn [fst snd]. destruct (existsb (Nat.eqb i) inds); lia. }
rewrite (list_sum_map_add snd
           (fun p : nat * nat => if existsb (Nat.eqb (fst p)) inds then 1 else 0)).
f_equal.
- assert (H : forall (a : list nat) (b : list nat),
             length a = length b -> map snd (combine a b) = b).
  { induction a as [| x a IH]; intros [| y b]; simpl; intros E;
      try discriminate; [reflexivity |]. f_equal. apply IH. lia. }
  rewrite H; [reflexivity | rewrite length_seq; reflexivity].
- rewrite (list_sum_indicator (fun p : nat * nat => existsb (Nat.eqb (fst p)) inds)).
  assert (H : forall (a : list nat) (b : list nat),
             length a = length b ->
             length (filter (fun p : nat * nat => existsb (Nat.eqb (fst p)) inds)
                            (combine a b))
             = length (filter (fun k => existsb (Nat.eqb k) inds) a)).
  { induction a as [| x a IH]; intros [| y b]; simpl; intros E;
      try discriminate; [reflexivity |].
    destruct (existsb (Nat.eqb x) inds); simpl; rewrite IH by lia; reflexivity. }
  rewrite H by (rewrite length_seq; reflexivity).
  apply NoDup_incl_filter_length; [exact Hnd | apply seq_NoDup |].
  intros i Hi. apply in_seq. specialize (Hlt i Hi). lia.
Qed.

End AddOneFacts.

Section SplitterFacts.

Variable rng : Type.
Variable RandomState : Z -> rng.
Variable rng_permutation : rng -> nat -> list nat * rng.
Variable rng_choice : rng -> list nat -> nat -> list nat * rng.

(** What the draws of a generator are, whatever its state: a permutation of
    the range, and as many distinct candidates as asked for. *)
Hypothesis permutation_spec :
  forall r n, Permutation (fst (rng_permutation r n)) (seq 0 n).
Hypothesis choice_spec :
  forall r inds k, NoDup inds -> k <= length inds ->
    length (fst (rng_choice r inds k)) = k /\
    NoDup (fst (rng_choice r inds k)) /\
    incl (fst (rng_choice r inds k)) inds.

Lemma where_eq_NoDup v R : NoDup (where_eq v R).
Proof. unfold where_eq. apply NoDup_filter. apply seq_NoDup. Qed.

Lemma where_eq_In v R i : In i (where_eq v R) <-> i < length R /\ nth i R 0 = v.
Proof.
unfold where_eq. rewrite filter_In, in_seq, Nat.eqb_eq. lia.
Qed.

Lemma with_remainder_in_cons v vs R :
~ In v vs ->
length (with_remainder_in (v :: vs) R)
= length (where_eq v R) + length (with_remainder_in vs R).
Proof.
intros Hv. unfold with_remainder_in, where_eq.
rewrite <- filter_or_length.
- apply filter_length_ext_in. intros i _. simpl. reflexivity.
- intros i _ E. apply Nat.eqb_eq in E.
  destruct (existsb (Nat.eqb (nth i R 0)) vs) eqn:Ex; [| reflexivity].
  apply existsb_exists in Ex as [z [Hz Ez]]. apply Nat.eqb_eq in Ez.
  exfalso. apply Hv. congruence.
Qed.

(** The loop of [_approximate_mode]: nobody gets more than one extra draw,
    only positions with a listed remainder get one, and the extra draws are
    as many as needed, as far as the listed positions go. *)
Lemma add_by_remainder_spec (R : list nat) :
forall vs, NoDup vs ->
forall fl need r fl' r',
  length fl = length R ->
  add_by_remainder rng rng_choice vs R fl need r = (fl', r') ->
  length fl' = length fl /\
  list_sum fl' = list_sum fl + Nat.min need (length (with_remainder_in vs R)) /\
  forall k, k < length R ->
    nth k fl 0 <= nth k fl' 0 <= nth k fl 0 + 1 /\
    (existsb (Nat.eqb (nth k R 0)) vs = false -> nth k fl' 0 = nth k fl 0).
Proof.
induction vs as [| v vs IH]; intros Hnd fl need r fl' r' Hlen Hrun.
- simpl in Hrun. injection Hrun as <- <-.
  split; [reflexivity |]. split.
  + unfold with_remainder_in. simpl.
    replace (filter (fun _ : nat => false) (seq 0 (length R))) with (@nil nat).
    * simpl. lia.
    * induction (seq 0 (length R)); simpl; auto.
  + intros k Hk. split; [lia | reflexivity].
- inversion Hnd as [| ? ? Hv Hnd']; subst.
  cbn [add_by_remainder] in Hrun.
  set (inds := where_eq v R) in *.
  set (add_now := Nat.min (length inds) need) in *.
  destruct (choice_spec r inds add_now (where_eq_NoDup v R)) as [Hc1 [Hc2 Hc3]];
    [unfold add_now; lia |].
  destruct (rng_choice r inds add_now) as [chosen r1] eqn:Ech.
  cbn [fst] in Hc1, Hc2, Hc3.
  assert (Hchosen_lt : forall i, In i chosen -> i < length fl).
  { intros i Hi. apply Hc3 in Hi. apply where_eq_In in Hi. lia. }
  assert (Hsum1 := add_one_at_sum chosen fl Hc2 Hchosen_lt).
  assert (Hlen1 := add_one_at_length chosen fl).
  assert (Hnth1 : forall k, k < length R ->
            nth k (add_one_at chosen fl) 0
            = nth k fl 0 + (if existsb (Nat.eqb k) chosen then 1 else 0)).
  { intros k Hk. apply add_one_at_nth. lia. }
  assert (Hchosen_v : forall k, existsb (Nat.eqb k) chosen = true -> nth k R 0 = v).
  { intros k E. apply existsb_exists in E as [z [Hz Ez]].
    apply Nat.eqb_eq in Ez. subst z. apply Hc3 in Hz.
    apply where_eq_In in Hz. tauto. }
  rewrite (with_remainder_in_cons v vs R Hv). fold inds.
  destruct (Nat.eqb_spec (need - add_now) 0) as [Hz | Hnz].
  + injection Hrun as <- <-.
    split; [exact Hlen1 |]. split; [rewrite Hsum1, Hc1; unfold add_now; lia |].
    intros k Hk. rewrite (Hnth1 k Hk).
    destruct (existsb (Nat.eqb k) chosen) eqn:E.
    * split; [lia |]. intros Hex. simpl in Hex.
      rewrite (Hchosen_v k E), Nat.eqb_refl in Hex. discriminate.
    * split; [lia | intros _; lia].
  + destruct (IH Hnd' _ _ _ _ _ (eq_trans Hlen1 Hlen) Hrun) as [L [S P]].
    split; [congruence |]. split.
    * rewrite S, Hsum1, Hc1. unfold add_now in *. lia.
    * intros k Hk. destruct (P k Hk) as [[P1 P2] P3].
      rewrite (Hnth1 k Hk) in P1, P2, P3.
      destruct (existsb (Nat.eqb k) chosen) eqn:E.
      -- assert (Hkv := Hchosen_v k E).
         assert (Hex : existsb (Nat.eqb (nth k R 0)) vs = false).
         { destruct (existsb (Nat.eqb (nth k R 0)) vs) eqn:Ex; [| reflexivity].
           apply existsb_exists in Ex as [z [Hz Ez]]. apply Nat.eqb_eq in Ez.
           exfalso. apply Hv. congruence. }
         specialize (P3 Hex). split; [lia |].
         intros Hex'. simpl in Hex'. rewrite Hkv, Nat.eqb_refl in Hex'.
         discriminate.
      -- split; [lia |]. intros Hex'. simpl in Hex'.
         apply orb_false_iff in Hex' as [_ Hex']. specialize (P3 Hex'). lia.
Qed.

Lemma floor_remainder_sum (cs : list nat) (d N : nat) :
N <> 0 ->
list_sum (map (fun c => c * d / N) cs) * N
+ list_sum (map (fun c => (c * d) mod N) cs) = list_sum cs * d.
Proof.
intros HN. induction cs as [| c cs IH]; simpl; [reflexivity |].
pose proof (Nat.div_mod_eq (c * d) N). nia.
Qed.

Lemma remainder_sum_bound (cs : list nat) (d N : nat) :
N <> 0 ->
list_sum (map (fun c => (c * d) mod N) cs) <= length cs * (N - 1).
Proof.
intros HN. induction cs as [| c cs IH]; simpl; [lia |].
pose proof (Nat.mod_upper_bound (c * d) N HN). nia.
Qed.

Lemma sorted_lt_NoDup (l : list nat) : StronglySorted lt l -> NoDup l.
Proof.
induction 1 as [| x l Hs IH Hx]; constructor; [| exact IH].
intros Hin. rewrite Forall_forall in Hx. specialize (Hx x Hin). lia.
Qed.

Lemma unique_nat_NoDup (l : list nat) : NoDup (unique Nat.eqb Nat.leb l).
Proof.
apply sorted_lt_NoDup. apply unique_sorted.
- intros x y z. apply Nat.lt_trans.
- intros x y E L. apply Nat.eqb_neq in E. apply Nat.leb_le in L. lia.
- intros x y E L. apply Nat.leb_gt in L. lia.
Qed.

Lemma unique_nat_covers (l : list nat) (x : nat) :
In x l -> In x (unique Nat.eqb Nat.leb l).
Proof.
intros H. apply (unique_covers Nat.eqb Nat.leb Nat.eqb_refl) in H.
apply existsb_exists in H as [z [Hz E]]. apply Nat.eqb_eq in E. congruence.
Qed.

Lemma with_remainder_in_all (R : list nat) :
length (with_remainder_in (rev (unique Nat.eqb Nat.leb R)) R) = length R.
Proof.
unfold with_remainder_in. rewrite forallb_filter_id; [apply length_seq |].
apply forallb_forall. intros i Hi. apply in_seq in Hi.
apply existsb_exists. exists (nth i R 0). split; [| apply Nat.eqb_refl].
apply in_rev. rewrite rev_involutive. apply unique_nat_covers.
apply nth_In. lia.
Qed.

Lemma nth_map_zero (f : nat -> nat) (l : list nat) (k : nat) :
f 0 = 0 -> nth k (map f l) 0 = f (nth k l 0).
Proof.
intros H. rewrite <- H at 1. apply map_nth.
Qed.

(** [_approximate_mode] hands out exactly the requested number of draws,
    and each class gets its proportional share rounded down, or one more. *)
Lemma approximate_mode_spec (cs : list nat) (d : nat) (r : rng)
  (ns : list nat) (r' : rng) :
0 < list_sum cs -> d <= list_sum cs ->
approximate_mode rng rng_choice cs d r = (ns, r') ->
length ns = length cs /\
list_sum ns = d /\
forall k, k < length cs ->
  nth k cs 0 * d / list_sum cs <= nth k ns 0 <= nth k cs 0 * d / list_sum cs + 1.
Proof.
intros HN Hd. unfold approximate_mode.
set (N := list_sum cs) in *.
set (floored := map (fun c => c * d / N) cs).
set (remainder := map (fun c => (c * d) mod N) cs).
assert (HN0 : N <> 0) by lia.
pose proof (floor_remainder_sum cs d N HN0) as Hfr.
pose proof (remainder_sum_bound cs d N HN0) as Hrb.
fold floored remainder N in Hfr, Hrb.
assert (Hfl : list_sum floored <= d) by nia.
assert (HK : 0 < length cs).
{ destruct cs; [simpl in N; lia | simpl; lia]. }
assert (Hneed : d - list_sum floored <= length cs) by nia.
assert (Hnth : forall k, nth k floored 0 = nth k cs 0 * d / N).
{ intros k. unfold floored. apply (nth_map_zero (fun c => c * d / N)).
  apply Nat.Div0.div_0_l. }
destruct (Nat.ltb_spec 0 (d - list_sum floored)) as [Hpos | Hzero].
- intros Hrun.
  destruct (add_by_remainder_spec remainder _
              (NoDup_rev (unique_nat_NoDup remainder))
              floored (d - list_sum floored) r ns r') as [L [S P]].
  + unfold floored, remainder. rewrite !length_map. reflexivity.
  + exact Hrun.
  + rewrite with_remainder_in_all in S.
    assert (Lr : length remainder = length cs)
      by (unfold remainder; apply length_map).
    assert (Lf : length floored = length cs)
      by (unfold floored; apply length_map).
    split; [congruence |]. split; [lia |].
    intros k Hk. rewrite <- Hnth. apply P. lia.
- intros [= <- <-].
  split; [unfold floored; apply length_map |]. split; [lia |].
  intros k Hk. rewrite Hnth. lia.
Qed.

(** When the draws requested are all there is, every class gives all it
    has. *)
Lemma approximate_mode_exact (cs : list nat) (d : nat) (r : rng) :
list_sum cs = d -> 0 < d ->
approximate_mode rng rng_choice cs d r = (cs, r).
Proof.
intros Hsum Hd. unfold approximate_mode. rewrite Hsum.
assert (Hfl : map (fun c => c * d / d) cs = cs).
{ rewrite <- (map_id cs) at 2. apply map_ext. intros c.
  apply Nat.div_mul. lia. }
rewrite Hfl, Hsum, Nat.sub_diag. reflexivity.
Qed.

Lemma filter_map_length {A B} (f : B -> bool) (g : A -> B) (l : list A) :
length (filter f (map g l)) = length (filter (fun x => f (g x)) l).
Proof.
induction l as [| x l IH]; simpl; [reflexivity |].
destruct (f (g x)); simpl; congruence.
Qed.

Lemma where_eq_cons (k x : nat) (l : list nat) :
length (where_eq k (x :: l))
= (if x =? k then 1 else 0) + length (where_eq k l).
Proof.
unfold where_eq. cbn [length].
change (seq 0 (S (length l))) with (0 :: seq 1 (length l)).
rewrite <- seq_shift. cbn [filter].
change (nth 0 (x :: l) 0) with x.
destruct (x =? k); cbn [length]; rewrite filter_map_length; reflexivity.
Qed.

(** [np.bincount] counts the positions [np.where] finds. *)
Lemma where_eq_length (k : nat) (yi : list nat) :
length (where_eq k yi) = count_occ Nat.eq_dec yi k.
Proof.
induction yi as [| x l IH]; [reflexivity |].
rewrite where_eq_cons, IH. cbn [count_occ].
destruct (Nat.eq_dec x k) as [-> | Hne].
- rewrite Nat.eqb_refl. reflexivity.
- destruct (Nat.eqb_spec x k); [contradiction | reflexivity].
Qed.

(** The classes split the positions among themselves. *)
Lemma class_partition_from (cls : nat -> nat) (l : list nat) (K s : nat) :
Permutation
  (concat (map (fun k => filter (fun i => cls i =? k) l) (seq s K)))
  (filter (fun i => (s <=? cls i) && (cls i <? s + K)) l).
Proof.
revert s. induction K as [| K IH]; intros s.
- simpl. rewrite (filter_ext _ (fun _ => false)).
  + induction l; simpl; auto.
  + intros i. destruct (Nat.leb_spec s (cls i)), (Nat.ltb_spec (cls i) (s + 0));
      simpl; auto; lia.
- cbn [seq map concat]. rewrite (IH (S s)).
  rewrite filter_or_perm.
  + rewrite (filter_ext _ (fun i => (s <=? cls i) && (cls i <? s + S K)));
      [reflexivity |].
    intros i.
    destruct (Nat.eqb_spec (cls i) s), (Nat.leb_spec (S s) (cls i)),
             (Nat.ltb_spec (cls i) (S s + K)), (Nat.leb_spec s (cls i)),
             (Nat.ltb_spec (cls i) (s + S K)); simpl; auto; lia.
  + intros i _ E. apply Nat.eqb_eq in E.
    destruct (Nat.leb_spec (S s) (cls i)); simpl; auto; lia.
Qed.

Lemma class_partition (yi : list nat) (K : nat) :
(forall i, i < length yi -> nth i yi 0 < K) ->
Permutation (concat (map (fun k => where_eq k yi) (seq 0 K)))
            (seq 0 (length yi)).
Proof.
intros Hlt. unfold where_eq.
rewrite (class_partition_from (fun i => nth i yi 0) (seq 0 (length yi)) K 0).
rewrite forallb_filter_id; [reflexivity |].
apply forallb_forall. intros i Hi. apply in_seq in Hi.
specialize (Hlt i ltac:(lia)).
destruct (Nat.ltb_spec (nth i yi 0) (0 + K)); simpl; auto; lia.
Qed.

Lemma clip_permutation (perm ci : list nat) :
Permutation perm (seq 0 (length ci)) ->
Permutation (map (fun p => nth (Nat.min p (length ci - 1)) ci 0) perm) ci.
Proof.
intros H. rewrite (Permutation_map _ H).
rewrite (map_ext_in _ (fun p => nth p ci 0)).
- rewrite (map_nth_seq (fun x => x) 0 ci), map_id. reflexivity.
- intros p Hp. apply in_seq in Hp. f_equal. lia.
Qed.

Lemma filter_all_or_nothing (cls : nat -> nat) (c k : nat) (l : list nat) :
(forall x, In x l -> cls x = c) ->
length (filter (fun x => cls x =? k) l) = if c =? k then length l else 0.
Proof.
intros H. induction l as [| x l IH]; simpl.
- destruct (c =? k); reflexivity.
- rewrite (H x (or_introl eq_refl)).
  assert (IH' := IH (fun z Hz => H z (or_intror Hz))).
  destruct (c =? k); cbn [length]; rewrite IH'; reflexivity.
Qed.

(** The per-class loop: train and test together rearrange the class lists,
    and every class gives train (test) as many positions as asked. *)
Lemma draw_classes_spec (cls : nat -> nat) :
forall (cis : list (list nat)) (n_i : list nat) (s : nat) (r : rng)
       (train test : list nat) (r' : rng),
  Forall2 (fun n ci => n <= length ci) n_i cis ->
  (forall j ci, nth_error cis j = Some ci -> forall x, In x ci -> cls x = s + j) ->
  draw_classes rng rng_permutation cis n_i
    (list_sub (map (@length nat) cis) n_i) r = ((train, test), r') ->
  Permutation (train ++ test) (concat cis) /\
  length train = list_sum n_i /\
  forall k,
    length (filter (fun x => cls x =? k) train)
    = (if (s <=? k) && (k <? s + length cis) then nth (k - s) n_i 0 else 0) /\
    length (filter (fun x => cls x =? k) test)
    = (if (s <=? k) && (k <? s + length cis)
       then nth (k - s) (list_sub (map (@length nat) cis) n_i) 0 else 0).
Proof.
induction cis as [| ci cis IH]; intros n_i s r train test r' Hle Hcls Hrun.
- inversion Hle; subst. simpl in Hrun. injection Hrun as <- <- <-.
  split; [constructor |]. split; [reflexivity |]. intros k. simpl.
  destruct (Nat.leb_spec s k), (Nat.ltb_spec k (s + 0)); simpl; split; auto; lia.
- inversion Hle as [| n ci' ns cis' Hn Hrest]; subst.
  unfold list_sub in Hrun. cbn [map combine fst snd] in Hrun.
  fold (list_sub (map (@length nat) cis) ns) in Hrun.
  cbn [draw_classes] in Hrun.
  pose proof (permutation_spec r (length ci)) as Hperm.
  destruct (rng_permutation r (length ci)) as [perm r1]. cbn [fst] in Hperm.
  set (pic := map (fun p => nth (Nat.min p (length ci - 1)) ci 0) perm) in *.
  assert (Hpic : Permutation pic ci) by (apply clip_permutation; exact Hperm).
  assert (Lpic : length pic = length ci) by (apply Permutation_length; exact Hpic).
  destruct (draw_classes rng rng_permutation cis ns
              (list_sub (map (@length nat) cis) ns) r1)
    as [[train0 test0] r2] eqn:Erec.
  injection Hrun as <- <- <-.
  destruct (IH ns (S s) r1 train0 test0 r2 Hrest) as [Pperm [Plen Pcount]].
  { intros j cj Hj x Hx. rewrite (Hcls (S j) cj Hj x Hx). lia. }
  { exact Erec. }
  assert (Hskip : firstn (length ci - n) (skipn n pic) = skipn n pic).
  { apply firstn_all2. rewrite length_skipn. lia. }
  rewrite Hskip.
  assert (Hin_pic : forall x, In x pic -> cls x = s).
  { intros x Hx. rewrite (Hcls 0 ci eq_refl x); [lia |].
    eapply Permutation_in; [exact Hpic | exact Hx]. }
  split; [| split].
  + rewrite <- app_assoc.
    rewrite (Permutation_app_swap_app train0 (skipn n pic) test0).
    rewrite app_assoc, (firstn_skipn n pic). cbn [concat].
    apply Permutation_app; assumption.
  + rewrite length_app, length_firstn, Lpic, Plen.
    change (list_sum (n :: ns)) with (n + list_sum ns). lia.
  + intros k. destruct (Pcount k) as [Ptr Pte].
    rewrite !filter_app, !length_app, Ptr, Pte.
    rewrite (filter_all_or_nothing cls s k (firstn n pic))
      by (intros x Hx; apply Hin_pic; eapply firstn_In; exact Hx).
    rewrite (filter_all_or_nothing cls s k (skipn n pic))
      by (intros x Hx; apply Hin_pic; eapply skipn_In; exact Hx).
    rewrite length_firstn, length_skipn, Lpic.
    unfold list_sub at 2. cbn [map combine fst snd length].
    fold (list_sub (map (@length nat) cis) ns).
    destruct (Nat.eqb_spec s k) as [<- | Hne].
    * rewrite Nat.sub_diag. cbn [nth].
      destruct (Nat.leb_spec (S s) s); [lia |]. cbn [andb].
      destruct (Nat.leb_spec s s); [| lia].
      destruct (Nat.ltb_spec s (s + S (length cis))); [| lia].
      cbn [andb]. split; lia.
    * destruct (Nat.leb_spec (S s) k), (Nat.ltb_spec k (S s + length cis)),
               (Nat.leb_spec s k), (Nat.ltb_spec k (s + S (length cis)));
        cbn [andb]; try lia;
        try (replace (k - s) with (S (k - S s)) by lia; cbn [nth]);
        split; lia.
Qed.

Lemma label_eqb_refl (a : label) : label_eqb a a = true.
Proof. destruct a; simpl; [apply Qeq_bool_refl | reflexivity]. Qed.

Lemma label_eqb_sym (a b : label) : label_eqb a b = label_eqb b a.
Proof. destruct a, b; simpl; auto. apply Qeq_bool_comm. Qed.

Lemma label_eqb_trans (a b c : label) :
label_eqb a b = true -> label_eqb b c = true -> label_eqb a c = true.
Proof.
destruct a, b, c; simpl; try discriminate; auto. apply Qeq_bool_trans.
Qed.

(** Two covered labels have the same class code exactly when they are the
    same label. *)
Lemma index_in_label (u v : label) (l : list label) :
existsb (label_eqb u) l = true -> existsb (label_eqb v) l = true ->
(index_in label_eqb u l =? index_in label_eqb v l) = label_eqb u v.
Proof.
induction l as [| c l IH]; simpl; [discriminate |].
destruct (label_eqb u c) eqn:Eu, (label_eqb v c) eqn:Ev; simpl.
- intros _ _. symmetry. apply (label_eqb_trans u c v Eu).
  rewrite label_eqb_sym. exact Ev.
- intros _ _. destruct (label_eqb u v) eqn:Euv; [| reflexivity].
  rewrite label_eqb_sym in Euv.
  rewrite (label_eqb_trans v u c Euv Eu) in Ev. discriminate.
- intros _ _. destruct (label_eqb u v) eqn:Euv; [| reflexivity].
  rewrite (label_eqb_trans u v c Euv Ev) in Eu. discriminate.
- apply IH.
Qed.

Lemma classes_cover (y : list label) (u : label) :
In u y -> existsb (label_eqb u) (classes_of y) = true.
Proof. apply unique_covers. apply label_eqb_refl. Qed.

Lemma nth_map_lt {A B} (g : A -> B) (l : list A) (i : nat) (d : A) (d' : B) :
i < length l -> nth i (map g l) d' = g (nth i l d).
Proof.
intros Hi. rewrite (nth_indep _ d' (g d)) by (rewrite length_map; exact Hi).
apply map_nth.
Qed.

Lemma y_indices_nth (y : list label) (i : nat) :
i < length y ->
nth i (y_indices_of y) 0 = index_in label_eqb (nth i y None) (classes_of y).
Proof.
intros Hi. unfold y_indices_of.
apply (nth_map_lt (fun v => index_in label_eqb v (classes_of y))). exact Hi.
Qed.

Lemma y_indices_lt (y : list label) (i : nat) :
i < length y -> nth i (y_indices_of y) 0 < length (classes_of y).
Proof.
intros Hi. rewrite (y_indices_nth y i Hi). apply index_in_lt.
apply classes_cover. apply nth_In. exact Hi.
Qed.

(** The class count of a label is the number of entries carrying it. *)
Lemma count_occ_label (classes l : list label) (v : label) :
existsb (label_eqb v) classes = true ->
(forall u, In u l -> existsb (label_eqb u) classes = true) ->
count_occ Nat.eq_dec (map (fun u => index_in label_eqb u classes) l)
          (index_in label_eqb v classes)
= count_label v l.
Proof.
intros Hv. unfold count_label.
induction l as [| u l IH]; intros Hcov; [reflexivity |].
cbn [map count_occ filter].
rewrite IH by (intros z Hz; apply Hcov; right; exact Hz).
pose proof (index_in_label u v classes (Hcov u (or_introl eq_refl)) Hv) as E.
destruct (Nat.eq_dec (index_in label_eqb u classes) (index_in label_eqb v classes))
  as [Heq | Hne].
- rewrite Heq, Nat.eqb_refl in E. rewrite <- E. reflexivity.
- apply Nat.eqb_neq in Hne. rewrite Hne in E. rewrite <- E. reflexivity.
Qed.

Lemma list_min_le (l : list nat) (x : nat) : In x l -> list_min l <= x.
Proof.
destruct l as [| a l]; [contradiction |]. unfold list_min.
assert (H : forall c, fold_right Nat.min c l <= c).
{ induction l as [| b l IHl]; simpl; intros c; [lia |]. specialize (IHl c). lia. }
intros [<- | Hin]; [apply H |].
induction l as [| b l IH]; [contradiction |]. simpl.
destruct Hin as [<- | Hin]; [apply Nat.le_min_l |].
assert (H' : forall c, fold_right Nat.min c l <= c).
{ clear - l. induction l as [| b' l IHl]; simpl; intros c; [lia |].
  specialize (IHl c). lia. }
specialize (IH H' Hin). lia.
Qed.

Lemma Forall2_nth_intro {A B} (P : A -> B -> Prop) (da : A) (db : B) :
forall (a : list A) (b : list B),
  length a = length b ->
  (forall k, k < length a -> P (nth k a da) (nth k b db)) ->
  Forall2 P a b.
Proof.
induction a as [| x a IH]; intros [| y b] Hlen H; try discriminate;
  constructor.
- exact (H 0 ltac:(simpl; lia)).
- apply IH; [simpl in Hlen; lia |].
  intros k Hk. exact (H (S k) ltac:(simpl; lia)).
Qed.

Lemma list_sub_length (a b : list nat) :
length a = length b -> length (list_sub a b) = length a.
Proof.
intros H. unfold list_sub. rewrite length_map, length_combine. lia.
Qed.

Lemma list_sub_nth (a b : list nat) (k : nat) :
length a = length b -> nth k (list_sub a b) 0 = nth k a 0 - nth k b 0.
Proof.
revert b k. induction a as [| x a IH]; intros [| y b] k H; try discriminate.
- destruct k; reflexivity.
- destruct k as [| k]; [reflexivity |].
  change (nth k (list_sub a b) 0 = nth k a 0 - nth k b 0).
  apply IH. simpl in H. lia.
Qed.

Lemma list_sub_sum (a b : list nat) :
Forall2 le b a -> list_sum (list_sub a b) + list_sum b = list_sum a.
Proof.
induction 1 as [| y x b a Hyx _ IH]; [reflexivity |].
unfold list_sub in *. simpl in *. lia.
Qed.

Lemma nth_map_seq (f : nat -> nat) (K k : nat) :
k < K -> nth k (map f (seq 0 K)) 0 = f k.
Proof.
intros Hk. rewrite (nth_map_lt f (seq 0 K) k 0 0) by (rewrite length_seq; exact Hk).
rewrite seq_nth by exact Hk. reflexivity.
Qed.

Lemma count_label_take (v : label) (inds : list nat) (y : list label) :
In v y ->
(forall i, In i inds -> i < length y) ->
count_label v (take None inds y)
= length (filter (fun i => nth i (y_indices_of y) 0
                            =? index_in label_eqb v (classes_of y)) inds).
Proof.
intros Hv Hlt. unfold count_label, take. rewrite filter_map_length.
apply filter_length_ext_in. intros i Hi.
rewrite (y_indices_nth y i (Hlt i Hi)). symmetry.
apply index_in_label; apply classes_cover; [| exact Hv].
apply nth_In. apply Hlt. exact Hi.
Qed.

Lemma count_label_class (v : label) (y : list label) :
In v y ->
count_label v y
= count_occ Nat.eq_dec (y_indices_of y) (index_in label_eqb v (classes_of y)).
Proof.
intros Hv. unfold y_indices_of. symmetry. apply count_occ_label.
- apply classes_cover. exact Hv.
- intros u Hu. apply classes_cover. exact Hu.
Qed.

(** One stratified split: every position goes to exactly one side, the
    sides have the requested sizes, and each label is represented on each
    side by its proportional share, up to one row. *)
Lemma stratified_shuffle_split_spec (global : rng) (seed : option Z)
  (n_train n_test : nat) (y : list label) (train test : list nat) :
n_train + n_test = length y ->
stratified_shuffle_split rng RandomState rng_permutation rng_choice
  global seed n_train n_test y = Ok (train, test) ->
Permutation (train ++ test) (seq 0 (length y)) /\
length train = n_train /\
length test = n_test /\
forall v, In v y ->
  count_label v (take None train y) * length y
  <= count_label v y * n_train + length y /\
  count_label v y * n_train
  <= count_label v (take None train y) * length y + length y /\
  count_label v (take None test y) * length y
  <= count_label v y * n_test + length y /\
  count_label v y * n_test
  <= count_label v (take None test y) * length y + length y.
Proof.
intros Hn. unfold stratified_shuffle_split.
set (K := length (classes_of y)).
set (yi := y_indices_of y).
set (cs := bincount K yi).
set (cis := map (fun k => where_eq k yi) (seq 0 K)).
destruct (Nat.ltb_spec (list_min cs) 2) as [| Hmin]; [discriminate |].
destruct (Nat.ltb_spec n_train K) as [| HtrK]; [discriminate |].
destruct (Nat.ltb_spec n_test K) as [| HteK]; [discriminate |].
set (r0 := check_random_state rng RandomState global seed).
assert (Lyi : length yi = length y) by (unfold yi, y_indices_of; apply length_map).
assert (Hyi : forall i, i < length yi -> nth i yi 0 < K).
{ intros i Hi. apply y_indices_lt. lia. }
assert (Lcs : length cs = K).
{ unfold cs, bincount. rewrite length_map, length_seq. reflexivity. }
assert (Lcis : length cis = K).
{ unfold cis. rewrite length_map, length_seq. reflexivity. }
assert (Hcs : map (@length nat) cis = cs).
{ unfold cis, cs, bincount. rewrite map_map. apply map_ext.
  intros k. apply where_eq_length. }
assert (Hpart : Permutation (concat cis) (seq 0 (length y))).
{ rewrite <- Lyi. apply class_partition. exact Hyi. }
assert (Hsum : list_sum cs = length y).
{ rewrite <- Hcs, <- list_sum_concat_length.
  rewrite (Permutation_length Hpart). apply length_seq. }
assert (HK : 0 < K).
{ destruct (Nat.eq_dec K 0) as [E | ]; [| lia].
  unfold cs, bincount in Hmin. rewrite E in Hmin. simpl in Hmin. lia. }
assert (Hcs2 : forall k, k < K -> 2 <= nth k cs 0).
{ intros k Hk. pose proof (list_min_le cs (nth k cs 0)) as H.
  specialize (H ltac:(apply nth_In; lia)). lia. }
destruct (approximate_mode rng rng_choice cs n_train r0) as [n_i r1] eqn:E1.
destruct (approximate_mode_spec cs n_train r0 n_i r1) as [Lni [Sni Bni]];
  [lia | lia | exact E1 |].
assert (Hle : forall k, k < K -> nth k n_i 0 <= nth k cs 0).
{ intros k Hk. specialize (Bni k ltac:(lia)). specialize (Hcs2 k Hk).
  rewrite Hsum in Bni.
  assert (nth k cs 0 * n_train / length y < nth k cs 0).
  { apply Nat.Div0.div_lt_upper_bound. nia. }
  lia. }
assert (HF2 : Forall2 le n_i cs).
{ apply (Forall2_nth_intro le 0 0); [lia |].
  intros k Hk. apply Hle. lia. }
assert (Srem : list_sum (list_sub cs n_i) = n_test).
{ pose proof (list_sub_sum cs n_i HF2). lia. }
rewrite (approximate_mode_exact (list_sub cs n_i) n_test r1 Srem) by lia.
rewrite <- Hcs.
destruct (draw_classes rng rng_permutation cis n_i
            (list_sub (map (@length nat) cis) n_i) r1)
  as [[tr te] r3] eqn:E3.
destruct (draw_classes_spec (fun x => nth x yi 0) cis n_i 0 r1 tr te r3)
  as [Pperm [Ltr Pcount]].
{ rewrite <- Hcs in HF2. apply (Forall2_nth_intro _ 0 []).
  - rewrite Lni, Lcis. exact Lcs.
  - intros k Hk.
    assert (Hk' : k < length cs) by lia.
    pose proof (Hle k ltac:(lia)) as H. rewrite <- Hcs in H.
    rewrite (nth_map_lt (@length nat) cis k [] 0) in H by lia. exact H. }
{ intros j ci Hj x Hx. unfold cis in Hj. rewrite nth_error_map in Hj.
  destruct (nth_error (seq 0 K) j) as [k |] eqn:Ej; [| discriminate].
  injection Hj as <-. apply where_eq_In in Hx.
  assert (j < K).
  { assert (Hj' : j < length (seq 0 K))
      by (apply nth_error_Some; rewrite Ej; discriminate).
    rewrite length_seq in Hj'. exact Hj'. }
  apply (nth_error_nth _ _ 0) in Ej. rewrite seq_nth in Ej by lia. lia. }
{ exact E3. }
unfold permute_array.
pose proof (permutation_spec r3 (length tr)) as Hp1.
destruct (rng_permutation r3 (length tr)) as [p1 r4]. cbn [fst] in Hp1.
pose proof (permutation_spec r4 (length te)) as Hp2.
destruct (rng_permutation r4 (length te)) as [p2 r5]. cbn [fst] in Hp2.
intros [= <- <-].
pose proof (take_perm 0 p1 tr Hp1) as Htr.
pose proof (take_perm 0 p2 te Hp2) as Hte.
assert (Hall : Permutation (take 0 p1 tr ++ take 0 p2 te) (seq 0 (length y))).
{ rewrite Htr, Hte, Pperm. exact Hpart. }
assert (Hlen_tr : length (take 0 p1 tr) = n_train).
{ rewrite (Permutation_length Htr). lia. }
assert (Hlen_te : length (take 0 p2 te) = n_test).
{ pose proof (Permutation_length Hall) as H.
  rewrite length_app, length_seq in H. lia. }
split; [exact Hall |]. split; [exact Hlen_tr |]. split; [exact Hlen_te |].
intros v Hv.
set (kv := index_in label_eqb v (classes_of y)).
assert (Hkv : kv < K).
{ apply index_in_lt. apply classes_cover. exact Hv. }
assert (Hin_range : forall i, In i (take 0 p1 tr ++ take 0 p2 te) -> i < length y).
{ intros i Hi. eapply Permutation_in in Hi; [| exact Hall].
  apply in_seq in Hi. lia. }
rewrite (count_label_take v (take 0 p1 tr) y Hv)
  by (intros i Hi; apply Hin_range; apply in_or_app; left; exact Hi).
rewrite (count_label_take v (take 0 p2 te) y Hv)
  by (intros i Hi; apply Hin_range; apply in_or_app; right; exact Hi).
fold yi kv.
rewrite (filter_length_perm _ _ _ Htr), (filter_length_perm _ _ _ Hte).
destruct (Pcount kv) as [Ctr Cte]. rewrite Ctr, Cte.
rewrite Lcis. cbn [Nat.leb andb Nat.add].
destruct (Nat.ltb_spec kv K) as [_ | ]; [| lia].
rewrite Nat.sub_0_r, Hcs.
rewrite (list_sub_nth cs n_i kv) by lia.
rewrite (count_label_class v y Hv). fold yi kv.
assert (Hc : nth kv cs 0 = count_occ Nat.eq_dec yi kv).
{ unfold cs, bincount. apply (nth_map_seq (count_occ Nat.eq_dec yi)). exact Hkv. }
rewrite <- Hc.
specialize (Bni kv ltac:(lia)). specialize (Hle kv Hkv). rewrite Hsum in Bni.
pose proof (Nat.div_mod_eq (nth kv cs 0 * n_train) (length y)) as Hdm.
pose proof (Nat.mod_upper_bound (nth kv cs 0 * n_train) (length y) ltac:(lia)) as Hub.
set (c := nth kv cs 0) in *. set (a := nth kv n_i 0) in *.
set (q := c * n_train / length y) in *.
set (m := (c * n_train) mod length y) in *.
assert (Hcn : c * length y = c * n_train + c * n_test) by nia.
repeat split; nia.
Qed.

Lemma validate_shuffle_split_fifth (n n_train n_test : nat) :
validate_shuffle_split n (1 # 5)%Q = Ok (n_train, n_test) ->
n_test = (n + 4) / 5 /\ n_train = n - n_test /\ 0 < n_train.
Proof.
unfold validate_shuffle_split. cbn [Qle_bool Qnum Qden orb Z.leb Z.mul Z.compare
  Pos.mul Pos.compare Pos.compare_cont].
assert (Hc : Z.to_nat (Qceiling ((1 # 5) * inject_Z (Z.of_nat n))) = (n + 4) / 5).
{ unfold Qceiling, Qfloor, Qopp, Qmult, inject_Z. cbn [Qnum Qden].
  rewrite Z.mul_1_l. change (Z.pos (5 * 1)) with 5%Z.
  pose proof (Z.div_mod (- Z.of_nat n) 5 ltac:(lia)).
  pose proof (Z.mod_pos_bound (- Z.of_nat n) 5 ltac:(lia)).
  pose proof (Nat.div_mod_eq (n + 4) 5).
  pose proof (Nat.mod_upper_bound (n + 4) 5 ltac:(lia)).
  lia. }
rewrite Hc.
destruct (Nat.eqb_spec (n - (n + 4) / 5) 0) as [| Hne]; [discriminate |].
intros [= <- <-]. repeat split.
change (0 < n - (n + 4) / 5). lia.
Qed.

(** C5 (amended).  When the split succeeds, the test partition has a fifth
    of the rows, rounded up, and the training partition has the rest; the
    two are selections of rows that together use every row position exactly
    once, so no row is in both and their row labels rearrange those of the
    table; and for every label value the number of its rows in each
    partition differs from its proportional share of that partition by at
    most one row. *)
Theorem train_test_split_stratified (global : rng) (X : DataFrame)
  (y : list label) (Xtr Xte : DataFrame) (ytr yte : list label) :
train_test_split rng RandomState rng_permutation rng_choice global X y
                 (1 # 5)%Q (Some 42%Z) = Ok (Xtr, Xte, ytr, yte) ->
nrows Xte = (nrows X + 4) / 5 /\
nrows Xtr + nrows Xte = nrows X /\
(exists train test,
    Permutation (train ++ test) (seq 0 (nrows X)) /\
    Xtr = iloc train X /\ Xte = iloc test X /\
    ytr = take None train y /\ yte = take None test y) /\
Permutation (index Xtr ++ index Xte) (index X) /\
forall v, In v y ->
  count_label v ytr * nrows X <= count_label v y * nrows Xtr + nrows X /\
  count_label v y * nrows Xtr <= count_label v ytr * nrows X + nrows X /\
  count_label v yte * nrows X <= count_label v y * nrows Xte + nrows X /\
  count_label v y * nrows Xte <= count_label v yte * nrows X + nrows X.
Proof.
unfold train_test_split.
destruct (Nat.eqb_spec (nrows X) (length y)) as [Hlen | ]; [| discriminate].
cbn [negb].
destruct (validate_shuffle_split (nrows X) (1 # 5)) as [[n_train n_test] |] eqn:Ev;
  [| discriminate].
cbn [result_bind fst snd].
destruct (validate_shuffle_split_fifth _ _ _ Ev) as [Hte [Htr Hpos]].
destruct (stratified_shuffle_split rng RandomState rng_permutation rng_choice
            global (Some 42%Z) n_train n_test y) as [[train test] |] eqn:Es;
  [| discriminate].
cbn [result_bind fst snd]. intros [= <- <- <- <-].
assert (Hsum : n_train + n_test = length y).
{ rewrite <- Hlen. pose proof (Nat.div_mod_eq (nrows X + 4) 5).
  pose proof (Nat.mod_upper_bound (nrows X + 4) 5 ltac:(lia)). lia. }
destruct (stratified_shuffle_split_spec global (Some 42%Z) n_train n_test y
            train test Hsum Es) as [Hperm [Ltr [Lte Hstrat]]].
rewrite !iloc_nrows, Ltr, Lte, Hlen.
split; [rewrite <- Hlen; exact Hte |]. split; [exact Hsum |].
split.
{ exists train, test. repeat split; auto. }
split.
{ unfold iloc. cbn [index]. unfold take. rewrite <- map_app.
  apply (take_perm 0 (train ++ test) (index X)).
  fold (nrows X). rewrite Hlen. exact Hperm. }
exact Hstrat.
Qed.

End SplitterFacts.

Lemma example_permutation_spec (r : Example.rng) (n : nat) :
Permutation (fst (Example.rng_permutation r n)) (seq 0 n).
Proof. simpl. symmetry. apply Permutation_rev. Qed.

Lemma example_choice_spec (r : Example.rng) (inds : list nat) (k : nat) :
NoDup inds -> k <= length inds ->
length (fst (Example.rng_choice r inds k)) = k /\
NoDup (fst (Example.rng_choice r inds k)) /\
incl (fst (Example.rng_choice r inds k)) inds.
Proof.
intros Hnd Hk. simpl. split; [| split].
- rewrite length_firstn. lia.
- rewrite <- (firstn_skipn k inds) in Hnd.
  exact (NoDup_app_remove_r _ _ Hnd).
- intros x Hx. apply (firstn_In k). exact Hx.
Qed.

Lemma train_test_split_stratified_witness :
exists Xtr Xte ytr yte,
  train_test_split Example.rng Example.RandomState Example.rng_permutation
                   Example.rng_choice 0 Example.ten_X Example.ten_y
                   (1 # 5)%Q (Some 42%Z) = Ok (Xtr, Xte, ytr, yte) /\
  nrows Xte = (nrows Example.ten_X + 4) / 5 /\
  nrows Xtr + nrows Xte = nrows Example.ten_X /\
  (exists train test,
      Permutation (train ++ test) (seq 0 (nrows Example.ten_X)) /\
      Xtr = iloc train Example.ten_X /\ Xte = iloc test Example.ten_X /\
      ytr = take None train Example.ten_y /\ yte = take None test Example.ten_y) /\
  Permutation (index Xtr ++ index Xte) (index Example.ten_X) /\
  forall v, In v Example.ten_y ->
    count_label v ytr * nrows Example.ten_X
    <= count_label v Example.ten_y * nrows Xtr + nrows Example.ten_X /\
    count_label v Example.ten_y * nrows Xtr
    <= count_label v ytr * nrows Example.ten_X + nrows Example.ten_X /\
    count_label v yte * nrows Example.ten_X
    <= count_label v Example.ten_y * nrows Xte + nrows Example.ten_X /\
    count_label v Example.ten_y * nrows Xte
    <= count_label v yte * nrows Example.ten_X + nrows Example.ten_X.
Proof.
do 4 eexists. split.
- vm_compute. reflexivity.
- eapply (train_test_split_stratified Example.rng Example.RandomState
            Example.rng_permutation Example.rng_choice
            example_permutation_spec example_choice_spec 0
            Example.ten_X Example.ten_y).
  vm_compute. reflexivity.
Defined.

(** C5, as stated, fails on small tables: with eleven rows of which five
    churned, both partitions are off the overall churn share by more than
    one percentage point. *)
Lemma small_split_misses_one_percent :
exists Xtr Xte ytr yte,
  train_test_split Example.rng Example.RandomState Example.rng_permutation
                   Example.rng_choice 0 Example.eleven_X Example.eleven_y
                   (1 # 5)%Q (Some 42%Z) = Ok (Xtr, Xte, ytr, yte) /\
  (1 # 100 < Qabs (label_proportion (Some 1%Q) ytr
                   - label_proportion (Some 1%Q) Example.eleven_y))%Q /\
  (1 # 100 < Qabs (label_proportion (Some 1%Q) yte
                   - label_proportion (Some 1%Q) Example.eleven_y))%Q.
Proof.
do 4 eexists. split; [vm_compute; reflexivity |].
split; vm_compute; reflexivity.
Qed.

(* ================================================================== *)
(** * Further properties of the frame operations and the cleaner *)
(* ================================================================== *)

Section FrameMore.

Lemma lookup_drop_same (name : string) (cols : list (string * column)) :
lookup name (filter (fun nc => negb (String.eqb (fst nc) name)) cols) = None.
Proof.
unfold lookup. induction cols as [| [n c] cols IH]; simpl; [reflexivity |].
destruct (String.eqb n name) eqn:E; simpl; [exact IH |].
rewrite E. exact IH.
Qed.

Lemma existsb_drop_same (name : string) (cols : list (string * column)) :
existsb (fun nc => String.eqb (fst nc) name)
        (filter (fun nc => negb (String.eqb (fst nc) name)) cols) = false.
Proof.
induction cols as [| [n c] cols IH]; simpl; [reflexivity |].
destruct (String.eqb n name) eqn:E; simpl; [exact IH |].
rewrite E. exact IH.
Qed.

Lemma names_set_absent (name : string) (c : column) (cols : list (string * column)) :
existsb (fun nc => String.eqb (fst nc) name) cols = false ->
map fst (set_column name c cols) = map fst cols ++ [name].
Proof.
induction cols as [| [n c0] cols IH]; simpl; [reflexivity |].
destruct (String.eqb n name) eqn:E; simpl; [discriminate |].
intros H. f_equal. exact (IH H).
Qed.

Lemma col_get_raise (name : string) (df : DataFrame) (e : exn) :
col_get name df = Raise e -> e = KeyError name /\ has_column name df = false.
Proof.
unfold col_get. destruct (lookup name (columns df)) as [[n c] |] eqn:E;
  [discriminate |].
intros [= <-]. split; [reflexivity |].
unfold has_column. destruct (existsb _ _) eqn:Ex; [| reflexivity].
apply existsb_lookup_some in Ex as [p Hp]. congruence.
Qed.

(** X1.  Assigning a column and reading it back gives the assigned values; the
    other columns and the row labels are untouched, and the header keeps
    its order: an existing name stays where it is, a new one goes last. *)
Theorem assign_then_read (name : string) (c : column) (df : DataFrame) :
col_get name (df_set name c df) = Ok c /\
(forall other, other <> name ->
   col_get other (df_set name c df) = col_get other df) /\
index (df_set name c df) = index df /\
column_names (df_set name c df)
= (if has_column name df then column_names df else column_names df ++ [name]).
Proof.
split.
{ unfold col_get, df_set. cbn [columns].
  destruct (lookup_set_same name c (columns df)) as [n ->]. reflexivity. }
split.
{ intros other Hne. unfold col_get, df_set. cbn [columns].
  rewrite lookup_set_other by exact Hne. reflexivity. }
split; [reflexivity |].
unfold column_names, df_set, has_column. cbn [columns].
destruct (existsb _ (columns df)) eqn:E.
- apply names_set_present. exact E.
- apply names_set_absent. exact E.
Qed.

(** X2.  Dropping a column succeeds only on a table that has it.
    Afterwards reading that name raises [KeyError], even when several
    columns carried it, every other column reads as before, and the row
    labels are untouched. *)
Theorem drop_then_read (name : string) (df df' : DataFrame) :
df_drop name df = Ok df' ->
has_column name df = true /\
col_get name df' = Raise (KeyError name) /\
has_column name df' = false /\
index df' = index df /\
forall other, other <> name -> col_get other df' = col_get other df.
Proof.
intros Hdrop. unfold df_drop in Hdrop.
destruct (has_column name df); [| discriminate].
injection Hdrop as <-. split; [reflexivity |].
split.
{ unfold col_get. cbn [columns]. rewrite lookup_drop_same. reflexivity. }
split.
{ unfold has_column. cbn [columns]. apply existsb_drop_same. }
split; [reflexivity |].
intros other Hne. unfold col_get. cbn [columns].
rewrite lookup_drop_other by exact Hne. reflexivity.
Qed.

End FrameMore.

Lemma drop_then_read_witness :
has_column "tenure" Example.flat = true /\
col_get "tenure" (mkDataFrame [0; 1]
   [("Contract", ObjCol [Some "One year"; Some "Two year"])])
= Raise (KeyError "tenure") /\
has_column "tenure" (mkDataFrame [0; 1]
   [("Contract", ObjCol [Some "One year"; Some "Two year"])]) = false /\
index (mkDataFrame [0; 1]
   [("Contract", ObjCol [Some "One year"; Some "Two year"])])
= index Example.flat /\
forall other, other <> "tenure" ->
  col_get other (mkDataFrame [0; 1]
     [("Contract", ObjCol [Some "One year"; Some "Two year"])])
  = col_get other Example.flat.
Proof.
apply (drop_then_read "tenure" Example.flat).
reflexivity.
Defined.

Section CleanerMore.

Variable parse_float : string -> option Q.

Lemma clean_cases (df : DataFrame) :
clean parse_float df
= if has_column "customerID" df
  then (tc <-- col_get "TotalCharges" df ;;
        ch <-- col_get "Churn" df ;;
        Ok (cleaned parse_float tc ch df))%result
  else Raise (KeyError "customerID").
Proof.
destruct (has_column "customerID" df) eqn:Hid.
- destruct (col_get "TotalCharges" df) as [tc | e] eqn:Htc.
  + destruct (col_get "Churn" df) as [ch | e] eqn:Hch.
    * cbn [result_bind]. apply clean_ok; assumption.
    * cbn [result_bind]. rewrite clean_eq. unfold df_drop. rewrite Hid.
      cbn [result_bind].
      set (df1 := mkDataFrame (index df) _).
      assert (H1 : col_get "TotalCharges" df1 = Ok tc).
      { unfold col_get, df1. cbn [columns].
        rewrite lookup_drop_other by discriminate. exact Htc. }
      rewrite H1. cbn [result_bind]. rewrite to_numeric_coerce_num.
      assert (H2 : forall c d, col_get "TotalCharges" (df_set "TotalCharges" c d) = Ok c).
      { intros c d. unfold col_get, df_set. cbn [columns].
        destruct (lookup_set_same "TotalCharges" c (columns d)) as [n ->].
        reflexivity. }
      rewrite H2. cbn [result_bind series_median series_fillna].
      assert (H3 : col_get "Churn"
                (df_set "TotalCharges"
                   (NumCol (map (fill (nanmedian (coerced parse_float tc)))
                                (coerced parse_float tc)))
                   (df_set "TotalCharges" (NumCol (coerced parse_float tc)) df1))
              = Raise e).
      { unfold col_get, df_set, df1. cbn [columns].
        rewrite !lookup_set_other by discriminate.
        rewrite lookup_drop_other by discriminate. exact Hch. }
      rewrite H3. reflexivity.
  + cbn [result_bind]. rewrite clean_eq. unfold df_drop. rewrite Hid.
    cbn [result_bind].
    assert (H1 : col_get "TotalCharges"
               (mkDataFrame (index df)
                  (filter (fun nc => negb (String.eqb (fst nc) "customerID"))
                          (columns df))) = Raise e).
    { unfold col_get. cbn [columns].
      rewrite lookup_drop_other by discriminate. exact Htc. }
    rewrite H1. reflexivity.
- rewrite clean_eq. unfold df_drop. rewrite Hid. reflexivity.
Qed.

Lemma clean_inv (df df' : DataFrame) :
clean parse_float df = Ok df' ->
exists tc ch,
  has_column "customerID" df = true /\
  col_get "TotalCharges" df = Ok tc /\
  col_get "Churn" df = Ok ch /\
  df' = cleaned parse_float tc ch df.
Proof.
rewrite clean_cases.
destruct (has_column "customerID" df); [| discriminate].
destruct (col_get "TotalCharges" df) as [tc |]; [| discriminate].
destruct (col_get "Churn" df) as [ch |]; [| discriminate].
cbn [result_bind]. intros [= <-]. exists tc, ch. auto.
Qed.

(** X3.  The cleaner needs three columns and asks for them in the order
    [customerID], [TotalCharges], [Churn].  When all are there it returns
    the table built from the total-charge and label columns it found;
    otherwise it raises [KeyError] naming the first one that is missing,
    and it raises nothing else. *)
Theorem clean_characterised (df : DataFrame) :
match clean parse_float df with
| Ok df' =>
    has_column "customerID" df = true /\
    exists tc ch,
      col_get "TotalCharges" df = Ok tc /\ col_get "Churn" df = Ok ch /\
      df' = cleaned parse_float tc ch df
| Raise e =>
    exists name,
      e = KeyError name /\ has_column name df = false /\
      (name = "customerID" \/
       name = "TotalCharges" /\ has_column "customerID" df = true \/
       name = "Churn" /\ has_column "customerID" df = true /\
       has_column "TotalCharges" df = true)
end.
Proof.
rewrite clean_cases.
destruct (has_column "customerID" df) eqn:Hid.
- destruct (col_get "TotalCharges" df) as [tc | e] eqn:Htc; cbn [result_bind].
  + destruct (col_get "Churn" df) as [ch | e] eqn:Hch; cbn [result_bind].
    * split; [reflexivity |]. exists tc, ch. auto.
    * apply col_get_raise in Hch as [-> Hno]. exists "Churn".
      split; [reflexivity |]. split; [exact Hno |]. right. right.
      split; [reflexivity |]. split; [reflexivity |].
      exact (col_get_has _ _ _ Htc).
  + apply col_get_raise in Htc as [-> Hno]. exists "TotalCharges".
    split; [reflexivity |]. split; [exact Hno |]. right. left. auto.
- exists "customerID". auto.
Qed.

(** X4.  The cleaning cell cannot be run twice: its own result no longer has
    the identifier column, so cleaning it again raises [KeyError]. *)
Theorem clean_twice_raises (df df' : DataFrame) :
clean parse_float df = Ok df' ->
clean parse_float df' = Raise (KeyError "customerID").
Proof.
intros H. apply clean_inv in H as [tc [ch [_ [_ [_ ->]]]]].
rewrite clean_cases.
assert (E : has_column "customerID" (cleaned parse_float tc ch df) = false).
{ unfold has_column, cleaned. cbn [columns].
  destruct (existsb _ _) eqn:Ex; [| reflexivity].
  apply existsb_lookup_some in Ex as [p Hp].
  rewrite !lookup_set_other in Hp by discriminate.
  rewrite lookup_drop_same in Hp. discriminate. }
rewrite E. reflexivity.
Qed.

Lemma fill_counts (m : Q) (xs : list (option Q)) :
let k := length (filter (@is_nan Q) xs) in
let zs := dropna (map (fill (Some m)) xs) in
length zs = length (dropna xs) + k /\
count_le m zs = count_le m (dropna xs) + k /\
count_ge m zs = count_ge m (dropna xs) + k.
Proof.
assert (Hmm : Qle_bool m m = true) by (apply Qle_bool_iff, Qle_refl).
unfold count_le, count_ge.
induction xs as [| [x |] xs IH]; cbn [map fill dropna flat_map app filter is_nan length].
- auto.
- cbn zeta in IH. destruct IH as [I1 [I2 I3]].
  unfold dropna in I1, I2, I3.
  repeat split.
  + rewrite I1. reflexivity.
  + destruct (Qle_bool x m); cbn [length]; rewrite I2; reflexivity.
  + destruct (Qle_bool m x); cbn [length]; rewrite I3; reflexivity.
- cbn zeta in IH. destruct IH as [I1 [I2 I3]].
  unfold dropna in I1, I2, I3.
  rewrite Hmm. cbn [length]. rewrite I1, I2, I3. repeat split; lia.
Qed.

(** X5.  Filling the gaps of a series with its median leaves no gap and keeps
    that value a median of the filled series. *)
Theorem fillna_median_keeps_median (c : column) (m : Q) (zs : list (option Q)) :
series_median c = Ok (Some m) ->
series_fillna (Some m) c = Ok (NumCol zs) ->
col_length (NumCol zs) = col_length c /\
isnull_sum (NumCol zs) = 0 /\
is_median m (dropna zs).
Proof.
destruct c as [xs | xs]; cbn [series_median series_fillna]; [| discriminate].
intros [= Hm] [= <-].
assert (Hne : dropna xs <> []).
{ intros E. rewrite (nanmedian_none xs E) in Hm. discriminate. }
destruct (nanmedian_some xs Hne) as [m' [Hm' [M1 M2]]].
rewrite Hm in Hm'. injection Hm' as <-.
destruct (fill_counts m xs) as [F1 [F2 F3]]. cbv zeta in F1, F2, F3.
split; [cbn [col_length]; apply length_map |].
split.
- cbn [isnull_sum]. clear. induction xs as [| [x |] xs IH]; simpl; auto.
- unfold is_median. rewrite F1, F2, F3. lia.
Qed.

End CleanerMore.

Lemma clean_twice_raises_witness :
clean Example.parse_decimal
  (cleaned Example.parse_decimal
     (ObjCol [Some "29.85"; Some " "; Some "108.15"])
     (ObjCol [Some "No"; Some "Yes"; Some "No"]) Example.small)
= Raise (KeyError "customerID").
Proof.
apply (clean_twice_raises Example.parse_decimal Example.small).
reflexivity.
Defined.

Lemma fillna_median_keeps_median_witness :
col_length (NumCol [Some 1%Q; Some 2%Q; Some 3%Q; Some 2%Q])
= col_length (NumCol [Some 1%Q; None; Some 3%Q; Some 2%Q]) /\
isnull_sum (NumCol [Some 1%Q; Some 2%Q; Some 3%Q; Some 2%Q]) = 0 /\
is_median 2%Q (dropna [Some 1%Q; Some 2%Q; Some 3%Q; Some 2%Q]).
Proof.
apply (fillna_median_keeps_median (NumCol [Some 1%Q; None; Some 3%Q; Some 2%Q])).
- reflexivity.
- reflexivity.
Defined.

(* ================================================================== *)
(** * Further properties of the splitter *)
(* ================================================================== *)

Lemma count_label_app (v : label) (a b : list label) :
count_label v (a ++ b) = count_label v a + count_label v b.
Proof. unfold count_label. rewrite filter_app, length_app. reflexivity. Qed.

Lemma count_label_perm (v : label) (a b : list label) :
Permutation a b -> count_label v a = count_label v b.
Proof. intros H. unfold count_label. apply filter_length_perm. exact H. Qed.

Lemma count_label_le_length (v : label) (a : list label) :
count_label v a <= length a.
Proof. unfold count_label. apply filter_length_le. Qed.

Lemma validate_shuffle_split_sum (n : nat) (test_size : Q) (n_train n_test : nat) :
validate_shuffle_split n test_size = Ok (n_train, n_test) ->
n_train + n_test = n /\ 0 < n_train.
Proof.
unfold validate_shuffle_split.
destruct (Qle_bool test_size 0 || Qle_bool 1 test_size); [discriminate |].
destruct (Nat.eqb_spec (n - Z.to_nat (Qceiling (test_size * inject_Z (Z.of_nat n)))) 0)
  as [| Hne]; [discriminate |].
intros [= <- <-]. lia.
Qed.








Section SplitterMore.

Variable rng : Type.
Variable RandomState : Z -> rng.
Variable rng_permutation : rng -> nat -> list nat * rng.
Variable rng_choice : rng -> list nat -> nat -> list nat * rng.

Hypothesis permutation_spec :
  forall r n, Permutation (fst (rng_permutation r n)) (seq 0 n).
Hypothesis choice_spec :
  forall r inds k, NoDup inds -> k <= length inds ->
    length (fst (rng_choice r inds k)) = k /\
    NoDup (fst (rng_choice r inds k)) /\
    incl (fst (rng_choice r inds k)) inds.

Lemma train_test_split_inv (global : rng) (X : DataFrame) (y : list label)
  (test_size : Q) (seed : option Z)
  (Xtr Xte : DataFrame) (ytr yte : list label) :
train_test_split rng RandomState rng_permutation rng_choice global X y
                 test_size seed = Ok (Xtr, Xte, ytr, yte) ->
exists n_train n_test train test,
  nrows X = length y /\
  validate_shuffle_split (nrows X) test_size = Ok (n_train, n_test) /\
  stratified_shuffle_split rng RandomState rng_permutation rng_choice
    global seed n_train n_test y = Ok (train, test) /\
  Xtr = iloc train X /\ Xte = iloc test X /\
  ytr = take None train y /\ yte = take None test y.
Proof.
unfold train_test_split.
destruct (Nat.eqb_spec (nrows X) (length y)) as [Hlen | ]; [| discriminate].
cbn [negb].
destruct (validate_shuffle_split (nrows X) test_size) as [[n_train n_test] |]
  eqn:Ev; [| discriminate].
cbn [result_bind fst snd].
destruct (stratified_shuffle_split rng RandomState rng_permutation rng_choice
            global seed n_train n_test y) as [[train test] |] eqn:Es;
  [| discriminate].
cbn [result_bind fst snd]. intros [= <- <- <- <-].
exists n_train, n_test, train, test. repeat split; auto.
Qed.

(** Every class has at least two members when the stratified split goes
    through. *)
Lemma stratified_split_class_sizes (global : rng) (seed : option Z)
  (n_train n_test : nat) (y : list label) (tt' : list nat * list nat) :
stratified_shuffle_split rng RandomState rng_permutation rng_choice
  global seed n_train n_test y = Ok tt' ->
forall v, In v y -> 2 <= count_label v y.
Proof.
unfold stratified_shuffle_split.
destruct (Nat.ltb_spec (list_min (bincount (length (classes_of y)) (y_indices_of y))) 2)
  as [| Hmin]; [discriminate |].
intros _ v Hv. rewrite (count_label_class v y Hv).
set (kv := index_in label_eqb v (classes_of y)).
assert (Hkv : kv < length (classes_of y)).
{ apply index_in_lt. apply classes_cover. exact Hv. }
pose proof (list_min_le (bincount (length (classes_of y)) (y_indices_of y))
              (count_occ Nat.eq_dec (y_indices_of y) kv)) as H.
assert (Hin : In (count_occ Nat.eq_dec (y_indices_of y) kv)
                 (bincount (length (classes_of y)) (y_indices_of y))).
{ unfold bincount. apply in_map_iff. exists kv. split; [reflexivity |].
  apply in_seq. lia. }
specialize (H Hin). lia.
Qed.



(** X6.  The label vector is split along with the rows, for any test share and
    any seed: each partition has one label per row, the training partition
    is not empty, and the two label vectors together rearrange [y], so that
    every label value keeps its number of rows. *)
Theorem split_keeps_every_label_row (global : rng) (X : DataFrame)
  (y : list label) (test_size : Q) (seed : option Z)
  (Xtr Xte : DataFrame) (ytr yte : list label) :
train_test_split rng RandomState rng_permutation rng_choice global X y
                 test_size seed = Ok (Xtr, Xte, ytr, yte) ->
length ytr = nrows Xtr /\
length yte = nrows Xte /\
0 < nrows Xtr /\
nrows Xtr + nrows Xte = nrows X /\
Permutation (ytr ++ yte) y /\
forall v, count_label v ytr + count_label v yte = count_label v y.
Proof.
intros H.
apply train_test_split_inv in H
  as [n_train [n_test [train [test [Hlen [Hv [Hs [-> [-> [-> ->]]]]]]]]]].
destruct (validate_shuffle_split_sum _ _ _ _ Hv) as [Hsum Hpos].
rewrite Hlen in Hsum.
destruct (stratified_shuffle_split_spec rng RandomState rng_permutation rng_choice
            permutation_spec choice_spec global seed n_train n_test y
            train test Hsum Hs) as [Hperm [Ltr [Lte _]]].
assert (HP : Permutation (take None train y ++ take None test y) y).
{ unfold take. rewrite <- map_app. apply (take_perm None (train ++ test) y).
  exact Hperm. }
rewrite !iloc_nrows. unfold take at 1 2. rewrite !length_map.
repeat split; try lia; [exact HP |].
intros v. rewrite <- count_label_app. apply count_label_perm. exact HP.
Qed.

(** X7.  With a fifth of the rows held out, a split that goes through has found
    at least two rows of every label value, and at least one of them is in
    the training partition: no class is missing when the models are
    fitted. *)
Theorem split_train_has_every_label (global : rng) (X : DataFrame)
  (y : list label) (seed : option Z)
  (Xtr Xte : DataFrame) (ytr yte : list label) :
train_test_split rng RandomState rng_permutation rng_choice global X y
                 (1 # 5)%Q seed = Ok (Xtr, Xte, ytr, yte) ->
forall v, In v y -> 2 <= count_label v y /\ 1 <= count_label v ytr.
Proof.
intros H v Hin.
apply train_test_split_inv in H
  as [n_train [n_test [train [test [Hlen [Hv [Hs [-> [-> [-> ->]]]]]]]]]].
destruct (validate_shuffle_split_fifth _ _ _ Hv) as [Hte [Htr Hpos]].
destruct (validate_shuffle_split_sum _ _ _ _ Hv) as [Hsum _].
rewrite Hlen in Hsum, Hte.
pose proof (stratified_split_class_sizes global seed n_train n_test y _ Hs v Hin)
  as H2.
split; [exact H2 |].
destruct (stratified_shuffle_split_spec rng RandomState rng_permutation rng_choice
            permutation_spec choice_spec global seed n_train n_test y
            train test Hsum Hs) as [Hperm [Ltr [Lte Hstrat]]].
destruct (Hstrat v Hin) as [_ [Hlow _]].
assert (HP : Permutation (take None train y ++ take None test y) y).
{ unfold take. rewrite <- map_app. apply (take_perm None (train ++ test) y).
  exact Hperm. }
pose proof (count_label_perm v _ _ HP) as Hc. rewrite count_label_app in Hc.
pose proof (count_label_le_length v (take None test y)) as Hle.
unfold take in Hle at 2. rewrite length_map, Lte in Hle.
pose proof (Nat.div_mod_eq (length y + 4) 5) as Hdm.
pose proof (Nat.mod_upper_bound (length y + 4) 5 ltac:(lia)) as Hub.
destruct (count_label v (take None train y)) as [| c]; [exfalso | lia].
nia.
Qed.



End SplitterMore.

Lemma split_keeps_every_label_row_witness :
exists Xtr Xte ytr yte,
  train_test_split Example.rng Example.RandomState Example.rng_permutation
                   Example.rng_choice 0 Example.eleven_X Example.eleven_y
                   (1 # 3)%Q None = Ok (Xtr, Xte, ytr, yte) /\
  length ytr = nrows Xtr /\
  length yte = nrows Xte /\
  0 < nrows Xtr /\
  nrows Xtr + nrows Xte = nrows Example.eleven_X /\
  Permutation (ytr ++ yte) Example.eleven_y /\
  forall v, count_label v ytr + count_label v yte = count_label v Example.eleven_y.
Proof.
do 4 eexists. split.
- vm_compute. reflexivity.
- eapply (split_keeps_every_label_row Example.rng Example.RandomState
            Example.rng_permutation Example.rng_choice
            example_permutation_spec example_choice_spec 0
            Example.eleven_X Example.eleven_y (1 # 3)%Q None).
  vm_compute. reflexivity.
Defined.

Lemma split_train_has_every_label_witness :
exists Xtr Xte ytr yte,
  train_test_split Example.rng Example.RandomState Example.rng_permutation
                   Example.rng_choice 0 Example.ten_X Example.ten_y
                   (1 # 5)%Q (Some 42%Z) = Ok (Xtr, Xte, ytr, yte) /\
  2 <= count_label (Some 1%Q) Example.ten_y /\
  1 <= count_label (Some 1%Q) ytr.
Proof.
do 4 eexists. split.
- vm_compute. reflexivity.
- eapply (split_train_has_every_label Example.rng Example.RandomState
            Example.rng_permutation Example.rng_choice
            example_permutation_spec example_choice_spec 0
            Example.ten_X Example.ten_y (Some 42%Z)).
  + vm_compute. reflexivity.
  + simpl. auto.
Defined.


(* ================================================================== *)
(** * Further properties of the feature transformer *)
(* ================================================================== *)

Lemma sorted_category_NoDup (l : list category) :
StronglySorted category_lt l -> NoDup l.
Proof.
induction 1 as [| a l Hs IH Ha]; constructor; [| exact IH].
intros Hin. rewrite Forall_forall in Ha.
exact (category_lt_irrefl a (Ha a Hin)).
Qed.

Lemma one_hot_app (a b : list category) (v : category) :
one_hot (a ++ b) v = one_hot a v ++ one_hot b v.
Proof. unfold one_hot. apply map_app. Qed.

Lemma one_hot_length (cats : list category) (v : category) :
length (one_hot cats v) = length cats.
Proof. unfold one_hot. apply length_map. Qed.

Lemma encode_cell_first (cats : list category) (v : category) :
encode_cell (mkOneHotEncoder HandleIgnore DropFirst) cats v
= Ok (tl (one_hot cats v)).
Proof. rewrite encode_cell_ignore. reflexivity. Qed.

Lemma one_hot_In_eq (cats : list category) (v w : category) :
In v cats -> one_hot cats v = one_hot cats w -> v = w.
Proof.
induction cats as [| c cats IH]; [contradiction |].
cbn [one_hot map]. intros Hin [= Hc Hrest].
destruct Hin as [-> | Hin]; [| exact (IH Hin Hrest)].
rewrite category_eqb_refl in Hc.
destruct (category_eqb w v) eqn:E.
- apply category_eqb_eq in E. congruence.
- exfalso. injection Hc as Hc. exact (R1_neq_R0 Hc).
Qed.

(** X10.  A category seen in fit, other than the first of the vocabulary, is
    written as zeros with a single one, at its place in the vocabulary
    without the first entry. *)
Theorem seen_category_has_one_indicator (tr : list category) (v : category) :
In v tr -> hd_error (categories_of tr) <> Some v ->
exists c0 pre post,
  categories_of tr = c0 :: pre ++ v :: post /\
  encode_cell (mkOneHotEncoder HandleIgnore DropFirst) (categories_of tr) v
  = Ok (repeat (Some 0%R) (length pre) ++ Some 1%R :: repeat (Some 0%R) (length post)).
Proof.
intros Hin Hhd. rewrite encode_cell_first.
apply categories_In in Hin.
pose proof (sorted_category_NoDup _ (categories_sorted tr)) as Hnd.
destruct (in_split _ _ Hin) as [l1 [post E]].
rewrite E in Hhd, Hnd |- *.
destruct l1 as [| c0 pre]; [exfalso; apply Hhd; reflexivity |].
exists c0, pre, post. split; [reflexivity |].
cbn [app one_hot map tl]. fold (one_hot (pre ++ v :: post) v).
rewrite one_hot_app. cbn [one_hot map]. fold (one_hot post v).
rewrite category_eqb_refl.
inversion Hnd as [| ? ? _ Hnd']; subst.
apply NoDup_remove_2 in Hnd'.
rewrite !one_hot_not_In; [reflexivity | |];
  intros H; apply Hnd'; apply in_or_app; auto.
Qed.

(** X11.  Two different categories seen in fit never share a code: the encoder
    with the first category dropped is one-to-one on the training
    vocabulary. *)
Theorem seen_categories_have_distinct_codes (tr : list category) (v w : category) :
In v tr -> In w tr -> v <> w ->
encode_cell (mkOneHotEncoder HandleIgnore DropFirst) (categories_of tr) v
<> encode_cell (mkOneHotEncoder HandleIgnore DropFirst) (categories_of tr) w.
Proof.
intros Hv Hw Hne. rewrite !encode_cell_first. intros [= H]. apply Hne.
apply categories_In in Hv, Hw.
destruct (categories_of tr) as [| c cats]; [contradiction |].
cbn [one_hot map tl] in H. fold (one_hot cats v) (one_hot cats w) in H.
destruct Hv as [<- | Hv].
- destruct Hw as [<- | Hw]; [reflexivity |].
  symmetry. apply (one_hot_In_eq cats w c Hw). symmetry. exact H.
- apply (one_hot_In_eq cats v w Hv H).
Qed.

(** X12.  The category whose indicator is dropped is the least value seen in fit,
    in code-point order with NaN last, not the first value met. *)
Theorem dropped_category_is_least (tr : list category) (c : category) :
hd_error (categories_of tr) = Some c ->
In c tr /\ forall v, In v tr -> v = c \/ category_lt c v.
Proof.
intros Hhd. pose proof (categories_sorted tr) as Hs.
assert (Hin : forall v, In v tr <-> In v (categories_of tr))
  by (intros v; symmetry; apply categories_In).
destruct (categories_of tr) as [| c' rest]; [discriminate |].
injection Hhd as ->. split; [apply Hin; left; reflexivity |].
intros v Hv. apply Hin in Hv. destruct Hv as [<- | Hv]; [left; reflexivity |].
right. inversion Hs as [| ? ? _ Hall]; subst.
rewrite Forall_forall in Hall. exact (Hall v Hv).
Qed.

Lemma seen_category_has_one_indicator_witness :
exists c0 pre post,
  categories_of [Some "Two year"; Some "One year"; Some "Month-to-month"]
  = c0 :: pre ++ Some "Two year" :: post /\
  encode_cell (mkOneHotEncoder HandleIgnore DropFirst)
    (categories_of [Some "Two year"; Some "One year"; Some "Month-to-month"])
    (Some "Two year")
  = Ok (repeat (Some 0%R) (length pre) ++ Some 1%R :: repeat (Some 0%R) (length post)).
Proof.
apply (seen_category_has_one_indicator
         [Some "Two year"; Some "One year"; Some "Month-to-month"] (Some "Two year")).
- simpl. auto.
- vm_compute. discriminate.
Defined.

Lemma seen_categories_have_distinct_codes_witness :
encode_cell (mkOneHotEncoder HandleIgnore DropFirst)
  (categories_of [Some "Two year"; Some "One year"; Some "Month-to-month"])
  (Some "Two year")
<> encode_cell (mkOneHotEncoder HandleIgnore DropFirst)
     (categories_of [Some "Two year"; Some "One year"; Some "Month-to-month"])
     (Some "Month-to-month").
Proof.
apply (seen_categories_have_distinct_codes
         [Some "Two year"; Some "One year"; Some "Month-to-month"]).
- simpl. auto.
- simpl. auto.
- discriminate.
Defined.

Lemma dropped_category_is_least_witness :
In (Some "Month-to-month") [Some "Two year"; Some "One year"; Some "Month-to-month"] /\
forall v, In v [Some "Two year"; Some "One year"; Some "Month-to-month"] ->
  v = Some "Month-to-month" \/ category_lt (Some "Month-to-month") v.
Proof.
apply (dropped_category_is_least
         [Some "Two year"; Some "One year"; Some "Month-to-month"]).
vm_compute. reflexivity.
Defined.



Lemma mapM_Forall2 {A B} (f : A -> result B) (l : list A) (ys : list B) :
mapM f l = Ok ys -> Forall2 (fun x y => f x = Ok y) l ys.
Proof.
revert ys. induction l as [| x l IH]; intros ys; simpl.
- intros [= <-]. constructor.
- destruct (f x) as [y |] eqn:E; [| discriminate]. cbn [result_bind].
  destruct (mapM f l) as [ys' |]; [| discriminate]. cbn [result_bind].
  intros [= <-]. constructor; [exact E | apply IH; reflexivity].
Qed.

Lemma mapM_length {A B} (f : A -> result B) (l : list A) (ys : list B) :
mapM f l = Ok ys -> length ys = length l.
Proof.
intros H. apply mapM_Forall2 in H. symmetry. exact (Forall2_length H).
Qed.

Lemma encode_cell_length (enc : OneHotEncoder) (cats : list category)
  (v : category) (row : list float) :
enc_drop enc = DropFirst ->
encode_cell enc cats v = Ok row -> length row = length cats - 1.
Proof.
intros Hd. unfold encode_cell. rewrite Hd. cbn [drop_columns].
assert (H : length (tl (one_hot cats v)) = length cats - 1).
{ rewrite <- (one_hot_length cats v). destruct (one_hot cats v); simpl; lia. }
destruct (existsb (category_eqb v) cats).
- intros [= <-]. exact H.
- destruct (enc_handle_unknown enc); [discriminate |]. intros [= <-]. exact H.
Qed.

Lemma encoded_parts_length (enc : OneHotEncoder) (i : nat) :
enc_drop enc = DropFirst ->
forall (C : list (list category)) (cats : list (list category))
       (parts : list (list float)),
length C = length cats ->
mapM (fun p => encode_cell enc (fst p) (nth i (snd p) None)) (combine C cats)
= Ok parts ->
length (concat parts) = list_sum (map (fun c => length c - 1) C).
Proof.
intros Hd. induction C as [| c C IH]; intros [| x cats] parts Hlen;
  try discriminate; cbn [combine mapM].
- intros [= <-]. reflexivity.
- cbn [fst snd].
  destruct (encode_cell enc c _) as [row |] eqn:E;
    cbn [result_bind]; [| discriminate].
  match goal with
  | |- context [mapM ?f ?l] => destruct (mapM f l) as [rest |] eqn:Er
  end; cbn [result_bind]; [| discriminate].
  intros [= <-].
  cbn [concat map list_sum]. rewrite length_app.
  rewrite (encode_cell_length enc c _ row Hd E).
  rewrite (IH cats rest); [reflexivity | simpl in Hlen; lia | exact Er].
Qed.

Lemma apply_fitted_shape (ct : ColumnTransformer) (st : fitted_state)
  (X : DataFrame) (M : matrix) :
enc_drop (ct_encoder ct) = DropFirst ->
length (scaler_stats_ st) = length (ct_numerical ct) ->
length (categories_ st) = length (ct_categorical ct) ->
apply_fitted ct st X = Ok M ->
length M = nrows X /\ M <> [] /\
Forall (fun row => length row
                   = length (ct_numerical ct)
                     + list_sum (map (fun c => length c - 1) (categories_ st))) M.
Proof.
intros Hd Hs Hc. unfold apply_fitted.
destruct (Nat.eqb_spec (nrows X) 0) as [| Hrows]; [discriminate |].
destruct (mapM (numeric_column X) (ct_numerical ct)) as [nums |] eqn:En;
  [| discriminate].
cbn [result_bind].
destruct (mapM (object_column X) (ct_categorical ct)) as [cats |] eqn:Ec;
  [| discriminate].
cbn [result_bind]. intros HM.
apply mapM_length in En, Ec.
pose proof (mapM_length _ _ _ HM) as Hlen. rewrite length_seq in Hlen.
split; [exact Hlen |]. split.
{ intros E. rewrite E in Hlen. simpl in Hlen. lia. }
apply mapM_Forall2 in HM.
clear Hlen. induction HM as [| i row is' rows Hrow _ IH]; constructor; [| exact IH].
unfold transform_row in Hrow.
match type of Hrow with
| context [mapM ?f ?l] => destruct (mapM f l) as [parts |] eqn:Ep
end; [| discriminate].
cbn [result_bind] in Hrow. injection Hrow as <-.
rewrite length_app, length_map, length_combine.
rewrite (encoded_parts_length _ i Hd (categories_ st) cats parts) by (congruence || exact Ep).
lia.
Qed.

(** X14.  The two matrices handed to the models fit together: when fitting on the
    training partition and transforming the test partition both succeed,
    each matrix has one row per row of its partition and is not empty, and
    every row of either matrix has the same number of entries, one per
    numeric column plus, per categorical column, one per category learnt in
    training less one. *)
Theorem processed_matrices_agree_in_width (X Xtr Xte : DataFrame)
  (pre' : ColumnTransformer) (Mtr Mte : matrix) :
preprocess (make_preprocessor X) Xtr Xte = Ok (pre', Mtr, Mte) ->
exists st,
  ct_fitted pre' = Some st /\
  length (scaler_stats_ st) = length (number_columns X) /\
  length (categories_ st) = length (object_columns X) /\
  length Mtr = nrows Xtr /\ length Mte = nrows Xte /\
  matrix_width Mtr = matrix_width Mte /\
  Forall (fun row => length row
                     = length (number_columns X)
                       + list_sum (map (fun c => length c - 1) (categories_ st)))
         (Mtr ++ Mte).
Proof.
intros H. apply preprocess_inv in H as [st [Hfit [-> [Htr Hte]]]].
exists st. cbn [ct_fitted]. split; [reflexivity |].
assert (Hst : length (scaler_stats_ st) = length (number_columns X) /\
              length (categories_ st) = length (object_columns X)).
{ revert Hfit. unfold fit_state, make_preprocessor.
  cbn [ct_numerical ct_categorical].
  destruct (nrows Xtr =? 0); [discriminate |].
  destruct (mapM (numeric_column Xtr) _) as [nums |] eqn:En; [| discriminate].
  cbn [result_bind].
  destruct (mapM (object_column Xtr) _) as [cats |] eqn:Ec; [| discriminate].
  cbn [result_bind]. intros [= <-]. cbn [scaler_stats_ categories_].
  rewrite !length_map. apply mapM_length in En, Ec. auto. }
destruct Hst as [Hs Hc]. split; [exact Hs |]. split; [exact Hc |].
destruct (apply_fitted_shape (make_preprocessor X) st Xtr Mtr eq_refl Hs Hc Htr)
  as [L1 [N1 F1]].
destruct (apply_fitted_shape
            (mkColumnTransformer (number_columns X) (object_columns X)
               (mkOneHotEncoder HandleIgnore DropFirst) (Some st))
            st Xte Mte eq_refl Hs Hc Hte) as [L2 [N2 F2]].
cbn [ct_numerical make_preprocessor] in F1, F2.
split; [exact L1 |]. split; [exact L2 |]. split.
- destruct Mtr as [| r1 Mtr]; [congruence |].
  destruct Mte as [| r2 Mte]; [congruence |].
  inversion F1; inversion F2; subst. cbn [matrix_width]. congruence.
- apply Forall_app. split; assumption.
Qed.

Lemma processed_matrices_agree_in_width_witness :
exists pre' Mtr Mte,
  preprocess (make_preprocessor Example.small)
             (iloc [0; 2] Example.small) (iloc [1] Example.small)
  = Ok (pre', Mtr, Mte) /\
  exists st,
    ct_fitted pre' = Some st /\
    length (scaler_stats_ st) = length (number_columns Example.small) /\
    length (categories_ st) = length (object_columns Example.small) /\
    length Mtr = nrows (iloc [0; 2] Example.small) /\
    length Mte = nrows (iloc [1] Example.small) /\
    matrix_width Mtr = matrix_width Mte /\
    Forall (fun row => length row
                       = length (number_columns Example.small)
                         + list_sum (map (fun c => length c - 1) (categories_ st)))
           (Mtr ++ Mte).
Proof.
do 3 eexists. split.
- vm_compute. reflexivity.
- eapply (processed_matrices_agree_in_width Example.small).
  vm_compute. reflexivity.
Defined.

(* ================================================================== *)
(** * Further properties of the metrics and of the report *)
(* ================================================================== *)

Lemma no_nan_map_some {A} (l : list (option A)) :
existsb is_nan l = false -> l = map Some (dropna l).
Proof.
induction l as [| [x |] l IH]; simpl; [reflexivity | | discriminate].
intros H. f_equal. exact (IH H).
Qed.

Lemma check_targets_inv (y_true y_pred : list label) (t p : list Q) :
check_targets y_true y_pred = Ok (t, p) ->
length t = length p /\ y_true = map Some t /\ y_pred = map Some p.
Proof.
unfold check_targets.
destruct (Nat.eqb_spec (length y_true) (length y_pred)) as [Hlen | ];
  cbn [negb]; [| discriminate].
destruct (existsb is_nan (y_true ++ y_pred)) eqn:E; [discriminate |].
intros [= <- <-]. rewrite existsb_app in E. apply orb_false_iff in E as [E1 E2].
pose proof (no_nan_map_some y_true E1) as H1.
pose proof (no_nan_map_some y_pred E2) as H2.
split; [| split; assumption].
rewrite H1, H2 in Hlen. rewrite !length_map in Hlen. exact Hlen.
Qed.

Lemma filter_length_full {A} (f : A -> bool) (l : list A) :
length (filter f l) = length l <-> Forall (fun x => f x = true) l.
Proof.
induction l as [| x l IH]; simpl; [split; auto |].
pose proof (filter_length_le f l) as Hle.
destruct (f x) eqn:E; simpl; split.
- intros H. constructor; [exact E | apply IH; lia].
- intros H. inversion H; subst. f_equal. apply IH. assumption.
- intros H. lia.
- intros H. inversion H; subst. congruence.
Qed.

Lemma filter_length_none {A} (f : A -> bool) (l : list A) :
length (filter f l) = 0 <-> Forall (fun x => f x = false) l.
Proof.
induction l as [| x l IH]; simpl; [split; auto |].
destruct (f x) eqn:E; simpl; split.
- discriminate.
- intros H. inversion H; subst. congruence.
- intros H. constructor; [exact E | apply IH; exact H].
- intros H. inversion H; subst. apply IH. assumption.
Qed.

Lemma combine_Forall2 (b : bool) (t p : list Q) :
length t = length p ->
(Forall (fun tp => Qeq_bool (fst tp) (snd tp) = b) (combine t p) <->
 Forall2 (fun x y => label_eqb x y = b) (map Some t) (map Some p)).
Proof.
revert p. induction t as [| x t IH]; intros [| y p] Hlen; try discriminate;
  simpl.
- split; constructor.
- simpl in Hlen. specialize (IH p ltac:(lia)).
  rewrite Forall_cons_iff, Forall2_cons_iff, IH. reflexivity.
Qed.

Lemma Qdiv_eq_one (x y : Q) : (0 < y)%Q -> ((x / y == 1)%Q <-> (x == y)%Q).
Proof.
intros Hy.
assert (Hne : ~ (y == 0)%Q) by (intros E; rewrite E in Hy; exact (Qlt_irrefl _ Hy)).
assert (Hx : (x == (x / y) * y)%Q) by (field; exact Hne).
split; intros H.
- rewrite Hx, H. ring.
- rewrite H. field. exact Hne.
Qed.

Lemma Qdiv_eq_zero (x y : Q) : (0 < y)%Q -> ((x / y == 0)%Q <-> (x == 0)%Q).
Proof.
intros Hy.
assert (Hne : ~ (y == 0)%Q) by (intros E; rewrite E in Hy; exact (Qlt_irrefl _ Hy)).
assert (Hx : (x == (x / y) * y)%Q) by (field; exact Hne).
split; intros H.
- rewrite Hx, H. ring.
- rewrite H. field. exact Hne.
Qed.

(** X15.  The accuracy is a share: it lies between 0 and 1, it is 1 exactly when
    every prediction equals the actual label, and 0 exactly when none
    does. *)
Theorem accuracy_is_a_share (y_true y_pred : list label) (a : Q) :
accuracy_score y_true y_pred = Ok (Some a) ->
(0 <= a <= 1)%Q /\
((a == 1)%Q <-> Forall2 (fun t p => label_eqb t p = true) y_true y_pred) /\
((a == 0)%Q <-> Forall2 (fun t p => label_eqb t p = false) y_true y_pred).
Proof.
unfold accuracy_score.
destruct (check_targets y_true y_pred) as [[t p] |] eqn:Hc; [| discriminate].
cbn [result_bind fst snd].
destruct (Nat.eqb_spec (length t) 0) as [| Hn]; [discriminate |].
intros [= <-].
destruct (check_targets_inv _ _ _ _ Hc) as [Hlen [-> ->]].
set (n := length t) in *. set (c := count_correct t p).
assert (Hcomb : length (combine t p) = n).
{ rewrite length_combine. unfold n. lia. }
assert (Hcn : c <= n).
{ unfold c, count_correct. rewrite <- Hcomb. apply filter_length_le. }
assert (Hpos : (0 < inject_Z (Z.of_nat n))%Q).
{ rewrite <- (Zlt_Qlt 0). lia. }
split; [split |].
- apply Qle_shift_div_l; [exact Hpos |]. rewrite Qmult_0_l.
  rewrite <- (Zle_Qle 0). lia.
- apply Qle_shift_div_r; [exact Hpos |]. rewrite Qmult_1_l.
  rewrite <- Zle_Qle. lia.
- split.
  + rewrite (Qdiv_eq_one _ _ Hpos). rewrite inject_Z_injective.
    rewrite <- (combine_Forall2 true t p Hlen), <- filter_length_full.
    fold (count_correct t p). fold c. rewrite Hcomb. lia.
  + rewrite (Qdiv_eq_zero _ _ Hpos). change 0%Q with (inject_Z 0).
    rewrite inject_Z_injective.
    rewrite <- (combine_Forall2 false t p Hlen), <- filter_length_none.
    fold (count_correct t p). fold c. lia.
Qed.

Lemma accuracy_is_a_share_witness :
(0 <= inject_Z (Z.of_nat 2) / inject_Z (Z.of_nat 3) <= 1)%Q /\
((inject_Z (Z.of_nat 2) / inject_Z (Z.of_nat 3) == 1)%Q <->
 Forall2 (fun t p => label_eqb t p = true)
         [Some 0%Q; Some 1%Q; Some 1%Q] [Some 0%Q; Some 0%Q; Some 1%Q]) /\
((inject_Z (Z.of_nat 2) / inject_Z (Z.of_nat 3) == 0)%Q <->
 Forall2 (fun t p => label_eqb t p = false)
         [Some 0%Q; Some 1%Q; Some 1%Q] [Some 0%Q; Some 0%Q; Some 1%Q]).
Proof.
apply (accuracy_is_a_share [Some 0%Q; Some 1%Q; Some 1%Q]
                           [Some 0%Q; Some 0%Q; Some 1%Q]).
reflexivity.
Defined.

Lemma list_sum_all_zero {A} (g : A -> nat) (l : list A) :
(forall x, In x l -> g x = 0) -> list_sum (map g l) = 0.
Proof.
induction l as [| x l IH]; intros H; simpl; [reflexivity |].
rewrite (H x (or_introl eq_refl)), IH; [reflexivity |].
intros z Hz. apply H. right. exact Hz.
Qed.

(** Among strictly increasing labels, a value that occurs matches exactly
    one of them. *)
Lemma sum_indicator_one (L : list Q) (z : Q) :
StronglySorted Qlt L -> existsb (Qeq_bool z) L = true ->
list_sum (map (fun a => if Qeq_bool z a then 1 else 0) L) = 1.
Proof.
induction 1 as [| a L Hs IH Ha]; simpl; [discriminate |].
destruct (Qeq_bool z a) eqn:E; simpl.
- intros _. f_equal. apply list_sum_all_zero. intros b Hb.
  rewrite Forall_forall in Ha. specialize (Ha b Hb).
  destruct (Qeq_bool z b) eqn:Eb; [| reflexivity].
  apply Qeq_bool_iff in E, Eb. rewrite <- E, <- Eb in Ha.
  exfalso. exact (Qlt_irrefl _ Ha).
- exact IH.
Qed.

Lemma sum_cell_indicator (L : list Q) (x y : Q) :
StronglySorted Qlt L ->
existsb (Qeq_bool x) L = true -> existsb (Qeq_bool y) L = true ->
list_sum (map (fun a => list_sum (map (fun b =>
            if Qeq_bool x a && Qeq_bool y b then 1 else 0) L)) L) = 1.
Proof.
intros Hs Hx Hy.
rewrite (map_ext _ (fun a => if Qeq_bool x a then 1 else 0)).
- apply sum_indicator_one; assumption.
- intros a. destruct (Qeq_bool x a); cbn [andb].
  + apply sum_indicator_one; assumption.
  + apply list_sum_all_zero. reflexivity.
Qed.

Lemma sum_diagonal_indicator (L : list Q) (x y : Q) :
StronglySorted Qlt L ->
existsb (Qeq_bool x) L = true ->
list_sum (map (fun a => if Qeq_bool x a && Qeq_bool y a then 1 else 0) L)
= if Qeq_bool x y then 1 else 0.
Proof.
intros Hs Hx. destruct (Qeq_bool x y) eqn:E.
- rewrite (map_ext _ (fun a => if Qeq_bool x a then 1 else 0)).
  + apply sum_indicator_one; assumption.
  + intros a. destruct (Qeq_bool x a) eqn:Ea; [| reflexivity].
    apply Qeq_bool_iff in E, Ea.
    assert (H : Qeq_bool y a = true)
      by (apply Qeq_bool_iff; rewrite <- E; exact Ea).
    rewrite H. reflexivity.
- apply list_sum_all_zero. intros a _.
  destruct (Qeq_bool x a) eqn:Ea; [| reflexivity].
  destruct (Qeq_bool y a) eqn:Eb; [| reflexivity].
  apply Qeq_bool_iff in Ea, Eb. apply Qeq_bool_neq in E.
  exfalso. apply E. rewrite Ea, Eb. reflexivity.
Qed.

Lemma count_pairs_total (L : list Q) (ps : list (Q * Q)) :
StronglySorted Qlt L ->
(forall tp, In tp ps -> existsb (Qeq_bool (fst tp)) L = true /\
                        existsb (Qeq_bool (snd tp)) L = true) ->
list_sum (map (fun a => list_sum (map (fun b =>
   length (filter (fun tp => Qeq_bool (fst tp) a && Qeq_bool (snd tp) b) ps)) L)) L)
= length ps.
Proof.
intros Hs. induction ps as [| [x y] ps IH]; intros Hcov.
- cbn [filter length]. apply list_sum_all_zero. intros a _.
  apply list_sum_all_zero. reflexivity.
- rewrite (map_ext _ (fun a =>
     list_sum (map (fun b => if Qeq_bool x a && Qeq_bool y b then 1 else 0) L)
     + list_sum (map (fun b =>
         length (filter (fun tp => Qeq_bool (fst tp) a && Qeq_bool (snd tp) b) ps)) L))).
  + rewrite list_sum_map_add, IH.
    * destruct (Hcov (x, y) (or_introl eq_refl)) as [Hx Hy].
      rewrite (sum_cell_indicator L x y Hs Hx Hy). reflexivity.
    * intros tp Htp. apply Hcov. right. exact Htp.
  + intros a. rewrite <- list_sum_map_add. f_equal. apply map_ext. intros b.
    cbn [filter fst snd]. destruct (Qeq_bool x a && Qeq_bool y b); reflexivity.
Qed.

Lemma count_pairs_diagonal (L : list Q) (ps : list (Q * Q)) :
StronglySorted Qlt L ->
(forall tp, In tp ps -> existsb (Qeq_bool (fst tp)) L = true) ->
list_sum (map (fun a =>
   length (filter (fun tp => Qeq_bool (fst tp) a && Qeq_bool (snd tp) a) ps)) L)
= length (filter (fun tp => Qeq_bool (fst tp) (snd tp)) ps).
Proof.
intros Hs. induction ps as [| [x y] ps IH]; intros Hcov.
- cbn [filter length]. apply list_sum_all_zero. reflexivity.
- rewrite (map_ext _ (fun a =>
     (if Qeq_bool x a && Qeq_bool y a then 1 else 0)
     + length (filter (fun tp => Qeq_bool (fst tp) a && Qeq_bool (snd tp) a) ps))).
  + rewrite list_sum_map_add, IH.
    * rewrite (sum_diagonal_indicator L x y Hs (Hcov (x, y) (or_introl eq_refl))).
      cbn [filter fst snd]. destruct (Qeq_bool x y); reflexivity.
    * intros tp Htp. apply Hcov. right. exact Htp.
  + intros a. cbn [filter fst snd].
    destruct (Qeq_bool x a && Qeq_bool y a); reflexivity.
Qed.

Lemma confusion_matrix_inv (y_true y_pred : list label) (cm : list (list nat)) :
confusion_matrix y_true y_pred = Ok cm ->
exists t p,
  check_targets y_true y_pred = Ok (t, p) /\
  cm = map (fun a => map (fun b => count_pairs a b t p) (unique_labels t p))
           (unique_labels t p).
Proof.
unfold confusion_matrix.
destruct (check_targets y_true y_pred) as [[t p] |]; [| discriminate].
cbn [result_bind fst snd]. intros [= <-]. exists t, p. auto.
Qed.

(** X16.  Whatever the number of classes, the confusion matrix is square with
    one row and one column per label that occurs, its cells add up to the
    number of samples, and its diagonal adds up to the number of correct
    predictions. *)
Theorem confusion_matrix_counts_every_sample
  (y_true y_pred : list label) (cm : list (list nat)) :
confusion_matrix y_true y_pred = Ok cm ->
length cm = length (unique_labels (dropna y_true) (dropna y_pred)) /\
Forall (fun row => length row = length cm) cm /\
list_sum (map (@list_sum) cm) = length y_true /\
list_sum (map (fun i => nth i (nth i cm []) 0) (seq 0 (length cm)))
= count_correct (dropna y_true) (dropna y_pred).
Proof.
intros H. apply confusion_matrix_inv in H as [t [p [Hc ->]]].
destruct (check_targets_ok _ _ _ _ Hc) as [Lt [Lp [<- <-]]].
set (L := unique_labels t p).
pose proof (unique_labels_sorted t p) as Hs. fold L in Hs.
assert (Hcov : forall tp, In tp (combine t p) ->
          existsb (Qeq_bool (fst tp)) L = true /\
          existsb (Qeq_bool (snd tp)) L = true).
{ intros [x y] Hin. cbn [fst snd]. split; apply unique_labels_covers;
    apply in_or_app.
  - left. exact (in_combine_l _ _ _ _ Hin).
  - right. exact (in_combine_r _ _ _ _ Hin). }
rewrite length_map. split; [reflexivity |]. split.
{ apply Forall_forall. intros row Hrow. apply in_map_iff in Hrow as [a [<- _]].
  apply length_map. }
split.
- rewrite map_map. unfold count_pairs.
  rewrite (count_pairs_total L (combine t p) Hs Hcov).
  rewrite length_combine. lia.
- unfold count_correct.
  rewrite <- (count_pairs_diagonal L (combine t p) Hs)
    by (intros tp Htp; apply (Hcov tp Htp)).
  rewrite <- (map_nth_seq
     (fun a => length (filter (fun tp => Qeq_bool (fst tp) a && Qeq_bool (snd tp) a)
                              (combine t p))) 0%Q L).
  f_equal. apply map_ext_in. intros i Hi. apply in_seq in Hi.
  rewrite (nth_map_lt _ L i 0%Q []) by lia.
  rewrite (nth_map_lt _ L i 0%Q 0) by lia.
  reflexivity.
Qed.

Lemma confusion_matrix_counts_every_sample_witness :
length [[1; 0; 0]; [0; 1; 1]; [1; 0; 0]]
= length (unique_labels (dropna [Some 0%Q; Some 1%Q; Some 2%Q; Some 1%Q])
                        (dropna [Some 0%Q; Some 1%Q; Some 0%Q; Some 2%Q])) /\
Forall (fun row => length row = length [[1; 0; 0]; [0; 1; 1]; [1; 0; 0]])
       [[1; 0; 0]; [0; 1; 1]; [1; 0; 0]] /\
list_sum (map (@list_sum) [[1; 0; 0]; [0; 1; 1]; [1; 0; 0]])
= length [Some 0%Q; Some 1%Q; Some 2%Q; Some 1%Q] /\
list_sum (map (fun i => nth i (nth i [[1; 0; 0]; [0; 1; 1]; [1; 0; 0]] []) 0)
              (seq 0 (length [[1; 0; 0]; [0; 1; 1]; [1; 0; 0]])))
= count_correct (dropna [Some 0%Q; Some 1%Q; Some 2%Q; Some 1%Q])
                (dropna [Some 0%Q; Some 1%Q; Some 0%Q; Some 2%Q]).
Proof.
apply (confusion_matrix_counts_every_sample
         [Some 0%Q; Some 1%Q; Some 2%Q; Some 1%Q]
         [Some 0%Q; Some 1%Q; Some 0%Q; Some 2%Q]).
reflexivity.
Defined.



(* ================================================================== *)
(** * Further properties of the cells and of a whole run *)
(* ================================================================== *)

Lemma evaluate_ok_shape (banner title : string) (y_test y_pred : list label)
  (cm : list (list nat)) :
snd (evaluate banner title y_test y_pred) = Ok cm ->
length cm = 2 /\
Forall (fun row => length row = 2) cm /\
list_sum (map (@list_sum) cm) = length y_test.
Proof.
unfold evaluate. rewrite snd_nb_print, snd_nb_bind. cbn [nb_lift snd].
destruct (accuracy_score y_test y_pred) as [acc |]; [| discriminate].
cbn [result_bind]. rewrite snd_nb_print, snd_nb_bind. cbn [nb_lift snd].
destruct (confusion_matrix y_test y_pred) as [z |] eqn:Hcm; [| discriminate].
cbn [result_bind]. rewrite snd_nb_bind. cbn [nb_lift snd].
destruct (create_annotated_heatmap title z) as [fig |] eqn:Hfig; [| discriminate].
cbn [result_bind]. rewrite snd_nb_print. cbn [nb_ret snd]. intros [= <-].
apply heatmap_shape in Hfig as [_ [row [rest [Ez Hrow]]]].
apply confusion_matrix_inv in Hcm as [t [p [Hc Hz]]].
destruct (check_targets_ok _ _ _ _ Hc) as [Lt [Lp _]].
set (L := unique_labels t p) in *.
assert (HL : length L = 2).
{ assert (Hin : In row z) by (rewrite Ez; left; reflexivity).
  rewrite Hz in Hin. apply in_map_iff in Hin as [a [<- _]].
  rewrite length_map in Hrow. exact Hrow. }
rewrite Hz. rewrite length_map. split; [exact HL |]. split.
- apply Forall_forall. intros r Hr. apply in_map_iff in Hr as [a [<- _]].
  rewrite length_map. exact HL.
- rewrite map_map. unfold count_pairs.
  rewrite (count_pairs_total L (combine t p)).
  + rewrite length_combine. lia.
  + apply unique_labels_sorted.
  + intros [x y] Hin. cbn [fst snd]. split; apply unique_labels_covers;
      apply in_or_app.
    * left. exact (in_combine_l _ _ _ _ Hin).
    * right. exact (in_combine_r _ _ _ _ Hin).
Qed.

Lemma preprocess_partitions_ok (X : DataFrame) (train test : list nat) :
NoDup (column_names X) -> train <> [] -> test <> [] ->
exists r, preprocess (make_preprocessor X) (iloc train X) (iloc test X) = Ok r.
Proof.
intros Hnd Htrain Htest.
destruct (train_partition_schema X train Hnd Htrain) as [Nt [Numt [Objt Rt]]].
destruct (train_partition_schema X test Hnd Htest) as [Ne [Nume [Obje Re]]].
unfold preprocess, fit_transform.
rewrite (fit_state_ok X (iloc train X) Nt Numt Objt Rt). cbn [result_bind].
unfold make_preprocessor.
rewrite (apply_fitted_ok X (iloc train X) _ Nt Numt Objt Rt). cbn [result_bind fst snd].
unfold transform. cbn [ct_fitted].
rewrite (apply_fitted_ok X (iloc test X) _ Ne Nume Obje Re). cbn [result_bind].
eexists. reflexivity.
Qed.

Lemma NoDup_drop_names (name : string) (df X : DataFrame) :
NoDup (column_names df) -> df_drop name df = Ok X ->
NoDup (column_names X) /\ nrows X = nrows df.
Proof.
intros Hnd. unfold df_drop. destruct (has_column name df); [| discriminate].
intros [= <-]. split; [| reflexivity].
unfold column_names. cbn [columns]. rewrite names_drop.
apply NoDup_filter. exact Hnd.
Qed.


Lemma nb_bind_ok {A B} (o : list output) (a : A) (k : A -> Nb B) :
nb_bind (o, Ok a) k = (o ++ fst (k a), snd (k a)).
Proof. unfold nb_bind. destruct (k a). reflexivity. Qed.

Lemma nb_bind_raise {A B} (o : list output) (e : exn) (k : A -> Nb B) :
@nb_bind A B (o, Raise e) k = (o, Raise e).
Proof. reflexivity. Qed.

Lemma value_counts_bound (c : column) :
value_count 0 c + value_count 1 c <= col_length c.
Proof.
destruct c as [xs | xs]; cbn [value_count col_length]; [| lia].
induction xs as [| [x |] xs IH]; cbn [filter length]; [lia | | lia].
destruct (Qeq_bool x 0) eqn:E0, (Qeq_bool x 1) eqn:E1; cbn [length]; try lia.
apply Qeq_bool_iff in E0, E1. rewrite E0 in E1. discriminate.
Qed.

(** X18.  The churn cell on a table whose label column has one value per row:
    the two printed counts never exceed the number of rows; on an empty
    table the figure and both counts are written and the rate then raises
    [ZeroDivisionError]; otherwise the cell completes and the printed rate
    is a percentage between 0 and 100. *)
Theorem churn_rate_is_a_percentage (df : DataFrame) (c : column) :
col_get "Churn" df = Ok c -> col_length c = nrows df ->
value_count 0 c + value_count 1 c <= nrows df /\
(nrows df = 0 ->
 cell_churn_pie df
 = ([Rich "fig_churn_pie.show()";
     TextN "Customers who did not churn: " 0;
     TextN "Customers who churned: " 0], Raise ZeroDivisionError)) /\
(nrows df <> 0 ->
 exists rate,
   cell_churn_pie df
   = ([Rich "fig_churn_pie.show()";
       TextN "Customers who did not churn: " (value_count 0 c);
       TextN "Customers who churned: " (value_count 1 c);
       TextPct "Churn rate: " (Some rate)], Ok tt) /\
   (0 <= rate <= 100)%Q).
Proof.
intros Hc Hlen. pose proof (value_counts_bound c) as Hb. rewrite Hlen in Hb.
split; [exact Hb |].
unfold cell_churn_pie. rewrite Hc, nb_bind_lift_ok.
unfold nb_bind, nb_print, nb_raise. split.
- intros H0. rewrite H0 in Hb |- *. cbn [Nat.eqb app].
  assert (E0 : value_count 0 c = 0) by lia.
  assert (E1 : value_count 1 c = 0) by lia.
  rewrite E0, E1. reflexivity.
- intros Hne. destruct (Nat.eqb_spec (nrows df) 0) as [| _]; [contradiction |].
  cbn [app]. eexists. split; [reflexivity |].
  assert (Hpos : (0 < inject_Z (Z.of_nat (nrows df)))%Q).
  { rewrite <- (Zlt_Qlt 0). lia. }
  assert (H1 : (0 <= inject_Z (Z.of_nat (value_count 1 c))
                     / inject_Z (Z.of_nat (nrows df)) <= 1)%Q).
  { split.
    - apply Qle_shift_div_l; [exact Hpos |]. rewrite Qmult_0_l.
      rewrite <- (Zle_Qle 0). lia.
    - apply Qle_shift_div_r; [exact Hpos |]. rewrite Qmult_1_l.
      rewrite <- Zle_Qle. lia. }
  destruct H1 as [Ha Hb']. split.
  + apply Qmult_le_0_compat; [exact Ha | discriminate].
  + setoid_replace 100%Q with (1 * 100)%Q by ring.
    apply Qmult_le_compat_r; [exact Hb' | discriminate].
Qed.

Lemma churn_rate_is_a_percentage_witness :
value_count 0 (NumCol Example.ten_y) + value_count 1 (NumCol Example.ten_y)
<= nrows Example.ten /\
(nrows Example.ten = 0 ->
 cell_churn_pie Example.ten
 = ([Rich "fig_churn_pie.show()";
     TextN "Customers who did not churn: " 0;
     TextN "Customers who churned: " 0], Raise ZeroDivisionError)) /\
(nrows Example.ten <> 0 ->
 exists rate,
   cell_churn_pie Example.ten
   = ([Rich "fig_churn_pie.show()";
       TextN "Customers who did not churn: " (value_count 0 (NumCol Example.ten_y));
       TextN "Customers who churned: " (value_count 1 (NumCol Example.ten_y));
       TextPct "Churn rate: " (Some rate)], Ok tt) /\
   (0 <= rate <= 100)%Q).
Proof.
apply (churn_rate_is_a_percentage Example.ten (NumCol Example.ten_y)).
- reflexivity.
- reflexivity.
Defined.

Section PipelineMore.

Variable parse_csv : string -> result DataFrame.
Variable parse_float : string -> option Q.
Variable rng : Type.
Variable RandomState : Z -> rng.
Variable rng_permutation : rng -> nat -> list nat * rng.
Variable rng_choice : rng -> list nat -> nat -> list nat * rng.
Variable fitted_model : Type.
Variable est_fit :
  estimator -> rng -> matrix -> list label -> result fitted_model.
Variable est_predict : fitted_model -> matrix -> result (list label).
Variable global : rng.

Hypothesis permutation_spec :
  forall r n, Permutation (fst (rng_permutation r n)) (seq 0 n).
Hypothesis choice_spec :
  forall r inds k, NoDup inds -> k <= length inds ->
    length (fst (rng_choice r inds k)) = k /\
    NoDup (fst (rng_choice r inds k)) /\
    incl (fst (rng_choice r inds k)) inds.

Lemma train_test_split_value_error (X : DataFrame) (y : list label)
  (test_size : Q) (seed : option Z) (e : exn) :
train_test_split rng RandomState rng_permutation rng_choice global X y
                 test_size seed = Raise e ->
exists msg, e = ValueError msg.
Proof.
unfold train_test_split.
destruct (negb (nrows X =? length y)); [intros [= <-]; eauto |].
unfold validate_shuffle_split.
destruct (Qle_bool test_size 0 || Qle_bool 1 test_size);
  [intros [= <-]; eauto |].
destruct (_ =? 0); [intros [= <-]; eauto |].
cbn [result_bind fst snd]. unfold stratified_shuffle_split.
destruct (_ <? 2); [intros [= <-]; eauto |].
destruct (_ <? _); [intros [= <-]; eauto |].
destruct (_ <? _); [intros [= <-]; eauto |].
destruct (approximate_mode _ _ _ _ _) as [n_i r1].
destruct (approximate_mode _ _ _ _ _) as [t_i r2].
destruct (draw_classes _ _ _ _ _ _) as [[train test] r3].
unfold permute_array.
destruct (rng_permutation r3 (length train)) as [p1 r4].
destruct (rng_permutation r4 (length test)) as [p2 r5].
discriminate.
Qed.

Lemma split_partitions_nonempty (X : DataFrame) (y : list label)
  (seed : option Z) (Xtr Xte : DataFrame) (ytr yte : list label) :
train_test_split rng RandomState rng_permutation rng_choice global X y
                 (1 # 5)%Q seed = Ok (Xtr, Xte, ytr, yte) ->
exists train test,
  Xtr = iloc train X /\ Xte = iloc test X /\ train <> [] /\ test <> [] /\
  length yte = (nrows X + 4) / 5.
Proof.
intros H.
apply (train_test_split_inv rng RandomState rng_permutation rng_choice) in H
  as [n_train [n_test [train [test [Hlen [Hv [Hs [-> [-> [-> ->]]]]]]]]]].
destruct (validate_shuffle_split_fifth _ _ _ Hv) as [Hte [Htr Hpos]].
destruct (validate_shuffle_split_sum _ _ _ _ Hv) as [Hsum _].
rewrite Hlen in Hsum.
destruct (stratified_shuffle_split_spec rng RandomState rng_permutation rng_choice
            permutation_spec choice_spec global seed n_train n_test y
            train test Hsum Hs) as [_ [Ltr [Lte _]]].
pose proof (Nat.div_mod_eq (nrows X + 4) 5) as Hdm.
pose proof (Nat.mod_upper_bound (nrows X + 4) 5 ltac:(lia)) as Hub.
exists train, test. repeat split.
- intros E. rewrite E in Ltr. simpl in Ltr. lia.
- intros E. rewrite E in Lte. simpl in Lte. lia.
- unfold take. rewrite length_map. lia.
Qed.

(** X19.  On a cleaned table with distinct column names, the preparation cell
    can only fail in the split: the label column is there and numeric, the
    two feature lists are printed, and when the cell raises, the exception
    is the [ValueError] that [train_test_split] raised; fitting the
    transformer and transforming the test partition never stop it. *)
Theorem prepare_fails_only_in_split (df df' : DataFrame)
  (out : list output) (e : exn) :
NoDup (column_names df) ->
clean parse_float df = Ok df' ->
cell_prepare rng RandomState rng_permutation rng_choice global df'
= (out, Raise e) ->
exists X y msg,
  df_drop "Churn" df' = Ok X /\
  col_get "Churn" df' = Ok (NumCol y) /\
  train_test_split rng RandomState rng_permutation rng_choice global X y
                   (1 # 5)%Q (Some 42%Z) = Raise e /\
  e = ValueError msg /\
  out = [TextNames "Categorical features: " (object_columns X);
         TextNames "Numerical features: " (number_columns X)].
Proof.
intros Hnd Hclean.
apply clean_inv in Hclean as [tc [ch [Hid [Htc [Hch ->]]]]].
set (df' := cleaned parse_float tc ch df).
assert (Hnd' : NoDup (column_names df')).
{ unfold df'. rewrite cleaned_names by (eapply col_get_has; eassumption).
  apply NoDup_filter. exact Hnd. }
assert (Hchurn : exists y, col_get "Churn" df' = Ok (NumCol y)).
{ unfold df'. rewrite cleaned_churn. destruct ch; eexists; reflexivity. }
destruct Hchurn as [y Hy].
assert (Hdrop : exists X, df_drop "Churn" df' = Ok X).
{ unfold df_drop. rewrite (col_get_has _ _ _ Hy). eexists. reflexivity. }
destruct Hdrop as [X HX].
destruct (NoDup_drop_names _ _ _ Hnd' HX) as [HndX _].
unfold cell_prepare. rewrite HX, nb_bind_lift_ok, Hy, nb_bind_lift_ok.
cbn [y_values]. rewrite nb_bind_lift_ok.
unfold nb_bind at 1 2. cbn [nb_print].
destruct (train_test_split rng RandomState rng_permutation rng_choice global
            X y (1 # 5) (Some 42%Z)) as [[[[Xtr Xte] ytr] yte] | e'] eqn:Hs.
- intros H. exfalso.
  destruct (split_partitions_nonempty _ _ _ _ _ _ _ Hs)
    as [train [test [-> [-> [Htr [Hte _]]]]]].
  destruct (preprocess_partitions_ok X train test HndX Htr Hte) as [[[pre' Mtr] Mte] Hp].
  rewrite nb_bind_lift_ok in H. cbn beta iota in H.
  rewrite Hp, nb_bind_lift_ok in H. cbn beta iota in H.
  unfold nb_bind, nb_print, nb_ret in H. discriminate.
- rewrite nb_bind_lift_raise. cbn [app]. intros [= <- <-].
  destruct (train_test_split_value_error _ _ _ _ _ Hs) as [msg ->].
  exists X, y, msg. repeat split; auto.
Qed.


(** X20.  A table that lacks a column the cleaner needs stops the run in the
    cleaning cell: the exception is the [KeyError] naming the first of
    [customerID], [TotalCharges], [Churn] that is missing, the output is
    that of the loading and inspection cells followed by whatever the
    cleaning cell wrote before it stopped, and no later cell runs. *)
Theorem run_stops_in_cleaner (fs : filesystem) (text : string)
  (df : DataFrame) (e : exn) :
fs dataset_path = Some text -> parse_csv text = Ok df ->
clean parse_float df = Raise e ->
notebook parse_csv parse_float rng RandomState rng_permutation rng_choice
         fitted_model est_fit est_predict global fs
= ([Text "First 5 rows of the dataset:"; Rich "df.head()";
    Text "Dataset Information:"; Rich "df.info()";
    Text "Missing values per column:"; Rich "df.isnull().sum()"]
   ++ fst (cell_clean parse_float df), Raise e) /\
exists name,
  e = KeyError name /\
  In name ["customerID"; "TotalCharges"; "Churn"] /\
  has_column name df = false.
Proof.
intros Hfs Hparse Hclean. split.
- unfold notebook. rewrite (cell_load_present parse_csv fs text df Hfs Hparse).
  rewrite nb_bind_ok.
  change (cell_info df)
    with ([Text "Dataset Information:"; Rich "df.info()";
           Text "Missing values per column:"; Rich "df.isnull().sum()"],
          @Ok unit tt).
  rewrite nb_bind_ok.
  unfold clean in Hclean.
  destruct (cell_clean parse_float df) as [oc rc]. cbn [snd] in Hclean.
  rewrite Hclean, nb_bind_raise. reflexivity.
- rewrite clean_cases in Hclean.
  destruct (has_column "customerID" df) eqn:Hid.
  + destruct (col_get "TotalCharges" df) as [tc | e1] eqn:Htc.
    * destruct (col_get "Churn" df) as [ch | e2] eqn:Hch;
        cbn [result_bind] in Hclean; [discriminate |].
      injection Hclean as <-.
      apply col_get_raise in Hch as [-> Hno].
      exists "Churn". split; [reflexivity |]. split; [cbn [In]; auto | exact Hno].
    * cbn [result_bind] in Hclean. injection Hclean as <-.
      apply col_get_raise in Htc as [-> Hno].
      exists "TotalCharges".
      split; [reflexivity |]. split; [cbn [In]; auto | exact Hno].
  + injection Hclean as <-. exists "customerID".
    split; [reflexivity |]. split; [cbn [In]; auto | exact Hid].
Qed.

(** X21.  Only a missing file is intercepted by the loading cell: when the file
    is there but reading it raises any other exception, that exception
    stops the run and nothing at all is written, not even the not-found
    message. *)
Theorem unreadable_file_stops_run_silently (fs : filesystem) (text : string)
  (e : exn) :
fs dataset_path = Some text -> parse_csv text = Raise e ->
(forall path, e <> FileNotFoundError path) ->
notebook parse_csv parse_float rng RandomState rng_permutation rng_choice
         fitted_model est_fit est_predict global fs
= ([], Raise e).
Proof.
intros Hfs Hparse Hne. unfold notebook, cell_load, read_csv.
rewrite Hfs, Hparse. unfold nb_lift, try_except_FileNotFoundError.
destruct e; try reflexivity. exfalso. exact (Hne path eq_refl).
Qed.

Lemma cell_model_ok_shape (banner title : string) (e : estimator)
  (p : prepared) (cm : list (list nat)) :
snd (cell_model rng RandomState fitted_model est_fit est_predict global
       banner title e p) = Ok cm ->
length cm = 2 /\
Forall (fun row => length row = 2) cm /\
list_sum (map (@list_sum) cm) = length (y_test p).
Proof.
unfold cell_model. rewrite snd_nb_bind. cbn [nb_lift snd].
destruct (fit _ _ _ _ _ _ _ _) as [m |]; [| discriminate].
cbn [result_bind]. rewrite snd_nb_bind. cbn [nb_lift snd].
destruct (est_predict m (X_test_processed p)) as [y_pred |]; [| discriminate].
cbn [result_bind]. apply evaluate_ok_shape.
Qed.

Lemma cell_svc_ok_shape (p : prepared) (cm : list (list nat)) :
snd (cell_svc rng RandomState fitted_model est_fit est_predict global p) = Ok cm ->
length cm = 2 /\
Forall (fun row => length row = 2) cm /\
list_sum (map (@list_sum) cm) = length (y_test p).
Proof.
unfold cell_svc. rewrite snd_nb_print, snd_nb_bind. cbn [nb_lift snd].
destruct (fit _ _ _ _ _ _ _ _) as [m |]; [| discriminate].
cbn [result_bind]. rewrite snd_nb_print, snd_nb_bind. cbn [nb_lift snd].
destruct (est_predict m (X_test_processed p)) as [y_pred |]; [| discriminate].
cbn [result_bind]. apply evaluate_ok_shape.
Qed.

(** X22.  A run that completes has read a table, and reports six confusion
    matrices over one and the same test partition: each is two by two and
    its four cells add up to the size of that partition, a fifth of the
    rows of the table that was read, rounded up. *)
Theorem completed_run_reports_six_matrices (fs : filesystem)
  (out : list output) (r : report) :
notebook parse_csv parse_float rng RandomState rng_permutation rng_choice
         fitted_model est_fit est_predict global fs = (out, Ok r) ->
exists text df,
  fs dataset_path = Some text /\ parse_csv text = Ok df /\
  length (y_test (rep_prepared r)) = (nrows df + 4) / 5 /\
  length (rep_matrices r) = 6 /\
  Forall (fun cm => length cm = 2 /\
                    Forall (fun row => length row = 2) cm /\
                    list_sum (map (@list_sum) cm) = (nrows df + 4) / 5)
         (rep_matrices r).
Proof.
intros H. apply (f_equal snd) in H. cbn [snd] in H. revert H.
unfold notebook. rewrite snd_nb_bind.
destruct (cell_load parse_csv fs) as [o1 [df |]] eqn:Hload; [| discriminate].
cbn [snd result_bind]. rewrite snd_nb_bind.
destruct (snd (cell_info df)) as [u1 |]; [| discriminate].
cbn [result_bind]. rewrite snd_nb_bind.
fold (clean parse_float df).
destruct (clean parse_float df) as [df' |] eqn:Hclean; [| discriminate].
cbn [result_bind]. rewrite snd_nb_bind.
destruct (snd (cell_describe df')) as [u2 |]; [| discriminate].
cbn [result_bind]. rewrite snd_nb_bind.
destruct (snd (cell_churn_pie df')) as [u3 |]; [| discriminate].
cbn [result_bind]. rewrite snd_nb_bind.
destruct (snd (cell_histograms df')) as [u4 |]; [| discriminate].
cbn [result_bind]. rewrite snd_nb_bind.
destruct (cell_prepare rng RandomState rng_permutation rng_choice global df')
  as [o7 [p |]] eqn:Hprep; [| discriminate].
cbn [snd result_bind]. rewrite snd_nb_bind.
destruct (snd (cell_lr _ _ _ _ _ _ p)) as [c1 |] eqn:H1; [| discriminate].
cbn [result_bind]. rewrite snd_nb_bind.
destruct (snd (cell_dt _ _ _ _ _ _ p)) as [c2 |] eqn:H2; [| discriminate].
cbn [result_bind]. rewrite snd_nb_bind.
destruct (snd (cell_svc _ _ _ _ _ _ p)) as [c3 |] eqn:H3; [| discriminate].
cbn [result_bind]. rewrite snd_nb_bind.
destruct (snd (cell_rf _ _ _ _ _ _ p)) as [c4 |] eqn:H4; [| discriminate].
cbn [result_bind]. rewrite snd_nb_bind.
destruct (snd (cell_gb _ _ _ _ _ _ p)) as [c5 |] eqn:H5; [| discriminate].
cbn [result_bind]. rewrite snd_nb_bind.
destruct (snd (cell_mlp _ _ _ _ _ _ p)) as [c6 |] eqn:H6; [| discriminate].
cbn [result_bind nb_ret snd]. intros [= <-]. cbn [rep_prepared rep_matrices].
assert (Hfile : exists text, fs dataset_path = Some text /\ parse_csv text = Ok df).
{ revert Hload. unfold cell_load, read_csv.
  destruct (fs dataset_path) as [text |].
  - destruct (parse_csv text) as [df0 | e] eqn:Hp.
    + cbn. intros [= _ <-]. exists text. auto.
    + destruct e; cbn; discriminate.
  - cbn. discriminate. }
destruct Hfile as [text [Hfs Hparse]].
exists text, df. split; [exact Hfs |]. split; [exact Hparse |].
assert (Hsize : length (y_test p) = (nrows df + 4) / 5).
{ apply clean_inv in Hclean as [tc [ch [_ [_ [_ ->]]]]].
  apply cell_prepare_inv in Hprep as [X [yc [y [HX [_ [_ [Hs _]]]]]]].
  destruct (split_partitions_nonempty _ _ _ _ _ _ _ Hs) as [_ [_ [_ [_ [_ [_ ->]]]]]].
  unfold df_drop in HX. destruct (has_column "Churn" _); [| discriminate].
  injection HX as <-. reflexivity. }
split; [exact Hsize |]. split; [reflexivity |].
rewrite <- Hsize.
repeat constructor;
  solve [ eapply cell_model_ok_shape; eassumption
        | eapply cell_svc_ok_shape; eassumption ].
Qed.

End PipelineMore.

Lemma prepare_fails_only_in_split_witness :
exists df' out e,
  clean Example.parse_decimal Example.small = Ok df' /\
  cell_prepare Example.rng Example.RandomState Example.rng_permutation
               Example.rng_choice 0 df' = (out, Raise e) /\
  exists X y msg,
    df_drop "Churn" df' = Ok X /\
    col_get "Churn" df' = Ok (NumCol y) /\
    train_test_split Example.rng Example.RandomState Example.rng_permutation
                     Example.rng_choice 0 X y (1 # 5)%Q (Some 42%Z) = Raise e /\
    e = ValueError msg /\
    out = [TextNames "Categorical features: " (object_columns X);
           TextNames "Numerical features: " (number_columns X)].
Proof.
do 3 eexists. split; [vm_compute; reflexivity |]. split; [vm_compute; reflexivity |].
eapply (prepare_fails_only_in_split Example.parse_decimal Example.rng
          Example.RandomState Example.rng_permutation Example.rng_choice 0
          example_permutation_spec example_choice_spec Example.small).
- frame_facts.
- vm_compute. reflexivity.
- vm_compute. reflexivity.
Defined.

Lemma run_stops_in_cleaner_witness :
notebook (Example.read_as Example.flat) Example.parse_decimal Example.rng
         Example.RandomState Example.rng_permutation Example.rng_choice
         Example.fitted_model Example.est_fit Example.est_predict 0
         Example.one_file
= ([Text "First 5 rows of the dataset:"; Rich "df.head()";
    Text "Dataset Information:"; Rich "df.info()";
    Text "Missing values per column:"; Rich "df.isnull().sum()"]
   ++ fst (cell_clean Example.parse_decimal Example.flat),
   Raise (KeyError "customerID")) /\
exists name,
  KeyError "customerID" = KeyError name /\
  In name ["customerID"; "TotalCharges"; "Churn"] /\
  has_column name Example.flat = false.
Proof.
apply (run_stops_in_cleaner (Example.read_as Example.flat) Example.parse_decimal
         Example.rng Example.RandomState Example.rng_permutation
         Example.rng_choice Example.fitted_model Example.est_fit
         Example.est_predict 0 Example.one_file "customerID,tenure").
- reflexivity.
- reflexivity.
- reflexivity.
Defined.

Lemma unreadable_file_stops_run_silently_witness :
notebook Example.parse_csv Example.parse_decimal Example.rng
         Example.RandomState Example.rng_permutation Example.rng_choice
         Example.fitted_model Example.est_fit Example.est_predict 0
         Example.one_file
= ([], Raise ParserError).
Proof.
apply (unreadable_file_stops_run_silently Example.parse_csv Example.parse_decimal
         Example.rng Example.RandomState Example.rng_permutation
         Example.rng_choice Example.fitted_model Example.est_fit
         Example.est_predict 0 Example.one_file "customerID,tenure").
- reflexivity.
- reflexivity.
- discriminate.
Defined.

Lemma completed_run_reports_six_matrices_witness :
exists out r,
  notebook (Example.read_as Example.ten_raw) Example.parse_decimal Example.rng
           Example.RandomState Example.rng_permutation Example.rng_choice
           Example.fitted_model Example.est_fit Example.est_predict 0
           Example.one_file = (out, Ok r) /\
  exists text df,
    Example.one_file dataset_path = Some text /\
    Example.read_as Example.ten_raw text = Ok df /\
    length (y_test (rep_prepared r)) = (nrows df + 4) / 5 /\
    length (rep_matrices r) = 6 /\
    Forall (fun cm => length cm = 2 /\
                      Forall (fun row => length row = 2) cm /\
                      list_sum (map (@list_sum) cm) = (nrows df + 4) / 5)
           (rep_matrices r).
Proof.
do 2 eexists. split.
- vm_compute. reflexivity.
- eapply (completed_run_reports_six_matrices (Example.read_as Example.ten_raw)
            Example.parse_decimal Example.rng Example.RandomState
            Example.rng_permutation Example.rng_choice Example.fitted_model
            Example.est_fit Example.est_predict 0
            example_permutation_spec example_choice_spec Example.one_file).
  vm_compute. reflexivity.
Defined.





(** X24.  Targets that do not line up are refused before any metric is
    computed: when the actual and the predicted labels differ in number,
    or a missing value occurs among them, the report prints its banner
    and stops with [ValueError]; no accuracy line is written. *)
Theorem report_rejects_invalid_targets
  (banner title : string) (y_test y_pred : list label) :
length y_test <> length y_pred \/ In None (y_test ++ y_pred) ->
exists msg,
  evaluate banner title y_test y_pred = ([Text banner], Raise (ValueError msg)).
Proof.
intros H.
assert (Hc : exists msg, check_targets y_test y_pred = Raise (ValueError msg)).
{ unfold check_targets.
  destruct (Nat.eqb_spec (length y_test) (length y_pred)) as [Hlen | Hne];
    cbn [negb]; [| eexists; reflexivity].
  destruct H as [H | H]; [contradiction |].
  assert (E : existsb is_nan (y_test ++ y_pred) = true).
  { apply existsb_exists. exists None. split; [exact H | reflexivity]. }
  rewrite E. eexists. reflexivity. }
destruct Hc as [msg Hc]. exists msg.
unfold evaluate, accuracy_score. rewrite Hc. reflexivity.
Qed.

Lemma report_rejects_invalid_targets_witness :
exists msg,
  evaluate "--- Random Forest --- " "Confusion Matrix"
           [Some 0%Q; None] [Some 0%Q; Some 1%Q]
  = ([Text "--- Random Forest --- "], Raise (ValueError msg)).
Proof.
apply (report_rejects_invalid_targets "--- Random Forest --- " "Confusion Matrix"
         [Some 0%Q; None] [Some 0%Q; Some 1%Q]).
right. simpl. auto.
Defined.
